(** * Content-review (C&C) status tracker of chatot-smogon

    A shallow embedding of the stage classifier and of the reconciliation
    loop, in the forms the repository carries:

    - [Workers] : the loop body of [parseCCStage], the same in the two
      later variants of the workers file ([unnamed/part_004] and
      [unnamed/part_005]);
    - [Part004] : the variant that filters by last-check time
      ([alertCCStatus] and the thread loop of [checkCCUpdates]);
    - [Part005] : the variant that polls the whole open set, evicts with
      [uncacheRemovedThreads] and carries the diagnostic posts;
    - [Cnc]     : [src/helpers/cnc.ts], the earliest form ([findNewThreads]).

    Strings are sequences of 8-bit characters, read as the code units
    U+0000 to U+00FF of a JavaScript string. *)

From Stdlib Require Import String Ascii List Bool ZArith Lia PeanoNat.
From Stdlib Require Import DecimalString.
Import ListNotations.
Open Scope string_scope.
Open Scope list_scope.
Open Scope nat_scope.

Set Implicit Arguments.

(** ** JavaScript string operations used by the sources *)

Module JsString.

Definition code (c : ascii) : nat := nat_of_ascii c.

Definition inRange (lo hi : nat) (c : ascii) : bool :=
  (lo <=? code c) && (code c <=? hi).

(** [\d] *)
Definition isDigit (c : ascii) : bool := inRange 48 57 c.

(** [\s] restricted to code units below U+0100: TAB, LF, VT, FF, CR, SP
    and NBSP. *)
Definition isSpace (c : ascii) : bool :=
  inRange 9 13 c || (code c =? 32) || (code c =? 160).

(** [.] without the [s] flag: anything but a line terminator. *)
Definition isDot (c : ascii) : bool :=
  negb ((code c =? 10) || (code c =? 13)).

(** Word characters of [\b]: [A-Za-z0-9_]. *)
Definition isWord (c : ascii) : bool :=
  inRange 65 90 c || inRange 97 122 c || isDigit c || (code c =? 95).

(** [String.prototype.toLowerCase] on one code unit below U+0100. *)
Definition lowerChar (c : ascii) : ascii :=
  if inRange 65 90 c then ascii_of_nat (code c + 32)
  else if inRange 192 222 c && negb (code c =? 215)
       then ascii_of_nat (code c + 32)
  else c.

(** Canonicalize of a case-insensitive, non-unicode regular expression:
    upper-casing, which never sends a code unit above U+007F to an
    ASCII letter. *)
Definition canonicalize (c : ascii) : ascii :=
  if inRange 97 122 c then ascii_of_nat (code c - 32) else c.

Fixpoint toLowerCase (s : string) : string :=
  match s with
  | EmptyString => EmptyString
  | String c s' => String (lowerChar c) (toLowerCase s')
  end.

(** [s.startsWith(p)] *)
Definition startsWith (p s : string) : bool := String.prefix p s.

(** [s.includes(p)] *)
Fixpoint includes (p s : string) : bool :=
  String.prefix p s ||
  match s with
  | EmptyString => false
  | String _ s' => includes p s'
  end.

(** [s.replace(/ /g, '')] *)
Fixpoint removeSpaces (s : string) : string :=
  match s with
  | EmptyString => EmptyString
  | String c s' =>
      if Ascii.eqb c " " then removeSpaces s' else String c (removeSpaces s')
  end.

(** [s.split('/')]: the pieces between the separators, at least one. *)
Fixpoint splitSlash (s : string) : list string :=
  match s with
  | EmptyString => [EmptyString]
  | String c s' =>
      if Ascii.eqb c "/" then EmptyString :: splitSlash s'
      else match splitSlash s' with
           | [] => [String c EmptyString]
           | p :: ps => String c p :: ps
           end
  end.

(** [n.toString()] and template interpolation of an integer. *)
Definition toString (n : Z) : string := NilZero.string_of_int (Z.to_int n).

(** Array [includes] over strings. *)
Definition arrIncludes (x : string) (l : list string) : bool :=
  existsb (String.eqb x) l.

Definition nl : string := String (ascii_of_nat 10) EmptyString.

End JsString.
Import JsString.

(** ** A backtracking matcher for the regular expressions of the sources

    [run r st] lists the states in which a match of [r] begun in [st] can
    end, in the order a backtracking matcher tries them, so that its head
    is the match JavaScript reports. *)

Module Regex.

Inductive regex : Type :=
| Chr (p : ascii -> bool)      (* one character satisfying [p] *)
| Bound                        (* \b *)
| Eps
| Cat (r1 r2 : regex)
| Alt (r1 r2 : regex)
| Quest (r : regex)            (* r?      greedy *)
| Upto (n : nat) (r : regex)   (* r{0,n}  greedy *)
| Star (r : regex)             (* r*      greedy *)
| Grp (i : nat) (r : regex).   (* the i-th capturing group *)

(** A match array [[m0, g1, ..., gn]]; [None] is [undefined]. *)
Definition jsmatch : Type := list (option string).

Record mstate : Type := MState {
  prev : option ascii;          (* the character before the position *)
  rest : string;                (* the input from the position on *)
  caps : jsmatch
}.

Fixpoint setNth (i : nat) (v : option string) (l : jsmatch) : jsmatch :=
  match l, i with
  | [], _ => []
  | _ :: l', 0 => v :: l'
  | x :: l', S i' => x :: setNth i' v l'
  end.

Fixpoint groups (r : regex) : list nat :=
  match r with
  | Chr _ | Bound | Eps => []
  | Cat r1 r2 | Alt r1 r2 => groups r1 ++ groups r2
  | Quest r' | Upto _ r' | Star r' => groups r'
  | Grp i r' => i :: groups r'
  end.

Definition clearGroups (gs : list nat) (st : mstate) : mstate :=
  MState (prev st) (rest st) (fold_right (fun i c => setNth i None c) (caps st) gs).

(** The text between two positions of one run. *)
Definition consumed (st st' : mstate) : string :=
  substring 0 (String.length (rest st) - String.length (rest st')) (rest st).

Definition advanced (st st' : mstate) : bool :=
  String.length (rest st') <? String.length (rest st).

Definition isWordOpt (c : option ascii) : bool :=
  match c with Some c => isWord c | None => false end.

Definition nextChar (s : string) : option ascii :=
  match s with EmptyString => None | String c _ => Some c end.

(** RepeatMatcher: at most [n] further iterations of [body]; each one
    starts with the captures of the repeated term cleared and is
    rejected when it matches the empty string. *)
Fixpoint repeatUpto (body : mstate -> list mstate) (gs : list nat)
         (n : nat) (st : mstate) : list mstate :=
  match n with
  | 0 => [st]
  | S n' =>
      flat_map (fun st' => if advanced st st' then repeatUpto body gs n' st' else [])
               (body (clearGroups gs st))
      ++ [st]
  end.

Fixpoint run (r : regex) (st : mstate) : list mstate :=
  match r with
  | Chr p =>
      match rest st with
      | String c s' => if p c then [MState (Some c) s' (caps st)] else []
      | EmptyString => []
      end
  | Bound =>
      if xorb (isWordOpt (prev st)) (isWordOpt (nextChar (rest st)))
      then [st] else []
  | Eps => [st]
  | Cat r1 r2 => flat_map (run r2) (run r1 st)
  | Alt r1 r2 => run r1 st ++ run r2 st
  | Quest r' => repeatUpto (run r') (groups r') 1 st
  | Upto n r' => repeatUpto (run r') (groups r') n st
  | Star r' => repeatUpto (run r') (groups r') (String.length (rest st)) st
  | Grp i r' =>
      map (fun st' => MState (prev st') (rest st')
                             (setNth i (Some (consumed st st')) (caps st')))
          (run r' st)
  end.

(** One attempt at a fixed position: the match array and the length of
    the match. *)
Definition execAt (r : regex) (ngroups : nat) (p : option ascii) (s : string)
  : option (jsmatch * nat) :=
  let st := MState p s (repeat None (S ngroups)) in
  match run r st with
  | [] => None
  | st' :: _ =>
      Some (setNth 0 (Some (consumed st st')) (caps st'),
            String.length s - String.length (rest st'))
  end.

(** [s.match(r)] for a regular expression without the [g] flag. *)
Fixpoint searchFrom (r : regex) (ngroups : nat) (p : option ascii) (s : string)
  : option jsmatch :=
  match execAt r ngroups p s with
  | Some (m, _) => Some m
  | None =>
      match s with
      | EmptyString => None
      | String c s' => searchFrom r ngroups (Some c) s'
      end
  end.

Definition jsMatch (r : regex) (ngroups : nat) (s : string) : option jsmatch :=
  searchFrom r ngroups None s.

(** [[...s.matchAll(r)]] for a regular expression with the [g] flag.
    [skip] counts the characters of the last match still to be passed
    over; after an empty match the search moves on by one character. *)
Fixpoint matchAllFrom (r : regex) (ngroups : nat) (skip : nat)
         (p : option ascii) (s : string) : list jsmatch :=
  let here := match skip with
              | 0 => execAt r ngroups p s
              | S _ => None
              end in
  let skip' := match here with
               | Some (_, len) => len - 1
               | None => skip - 1
               end in
  let tail := match s with
              | EmptyString => []
              | String c s' => matchAllFrom r ngroups skip' (Some c) s'
              end in
  match here with
  | Some (m, _) => m :: tail
  | None => tail
  end.

Definition matchAll (r : regex) (ngroups : nat) (s : string) : list jsmatch :=
  matchAllFrom r ngroups 0 None s.

(** A literal under the [i] flag. *)
Definition ci (c x : ascii) : bool := Ascii.eqb (canonicalize x) (canonicalize c).

Fixpoint lit (s : string) : regex :=
  match s with
  | EmptyString => Eps
  | String c EmptyString => Chr (ci c)
  | String c s' => Cat (Chr (ci c)) (lit s')
  end.

Fixpoint alts (l : list regex) : regex :=
  match l with
  | [] => Chr (fun _ => false)
  | [r] => r
  | r :: l' => Alt r (alts l')
  end.

End Regex.
Import Regex.

(** [\d\s?\/\s?\d], the numeric group of both progress patterns. *)
Definition numericRE : regex :=
  Cat (Chr isDigit)
      (Cat (Quest (Chr isSpace))
           (Cat (lit "/") (Cat (Quest (Chr isSpace)) (Chr isDigit)))).

(** [/(QC|GP).{0,3}(\d\s?\/\s?\d)/gi] *)
Definition progressRE : regex :=
  Cat (Grp 1 (Alt (lit "QC") (lit "GP")))
      (Cat (Upto 3 (Chr isDot)) (Grp 2 numericRE)).

(** [/(QC|GP)?:?\s?(\d\s?\/\s?\d)/gi], the pattern of [cnc.ts]. *)
Definition progressRE_cnc : regex :=
  Cat (Quest (Grp 1 (Alt (lit "QC") (lit "GP"))))
      (Cat (Quest (lit ":")) (Cat (Quest (Chr isSpace)) (Grp 2 numericRE))).

(** [/\b((Gen|G|Generation)\s*([1-9])|(SV|SWSH|...|RB))*\b/i] *)
Definition genRegex : regex :=
  Cat Bound
      (Cat (Star (Grp 1 (Alt
              (Cat (Grp 2 (alts [lit "Gen"; lit "G"; lit "Generation"]))
                   (Cat (Star (Chr isSpace)) (Grp 3 (Chr (inRange 49 57)))))
              (Grp 4 (alts (map lit
                 ["SV"; "SWSH"; "SS"; "USUM"; "USM"; "SM"; "ORAS"; "XY";
                  "B2W2"; "BW2"; "BW"; "HGSS"; "DPP"; "DP"; "RSE"; "RS";
                  "ADV"; "GSC"; "GS"; "RBY"; "RB"]))))))
           Bound).

(** [/(?<=Gen )\d/]: the first digit that directly follows ["Gen "]
    (this one is case sensitive).  The matcher above has no lookbehind,
    so the search is written out. *)
Fixpoint matchGenDigit (s : string) : option string :=
  match s with
  | EmptyString => None
  | String _ s' =>
      match (if String.prefix "Gen " s then String.get 4 s else None) with
      | Some d =>
          if isDigit d then Some (String d EmptyString) else matchGenDigit s'
      | None => matchGenDigit s'
      end
  end.

(** ** Data model *)

(** A row of the forum query ([IXFStatusQuery]). *)
Record IXFStatusQuery : Type := {
  thread_id : Z;
  node_id : Z;
  title : string;
  phrase_text : option string          (* [None] is SQL NULL *)
}.

(** [IXFParsedThreadData]: the four fields of the query row, copied, and
    the four inferred ones.  An element of [gen] can be [undefined]
    (a miss in the [gens] table). *)
Record IXFParsedThreadData : Type := {
  thread : IXFStatusQuery;
  gen : list (option string);
  tier : list string;
  stage : string;
  progress : string
}.

(** A row of the status cache, [chatot.ccstatus]. *)
Module Status.
Record t : Type := { thread_id : Z; stage : string; progress : string }.
End Status.

(** A row of the subscriptions, [chatot.ccprefs]. *)
Module AlertChan.
Record t : Type := {
  serverid : string;
  channelid : string;
  tier : string;
  role : option string;
  gen : string
}.
End AlertChan.

Record ICCData : Type := {
  threads : list Status.t;
  alertchans : list AlertChan.t
}.

(** An entry of the forum-section table. *)
Module Sub.
Record t : Type := { gens : list string; tiers : list string; url : string }.
End Sub.

Definition pastGens : list string := ["1"; "2"; "3"; "4"; "5"; "6"; "7"; "8"].

Definition omTiers : list string :=
  ["nfe"; "almost-any-ability"; "2v2-doubles"; "godly-gift"; "ag"; "bh";
   "mix-and-mega"; "stabmons"; "zu"; "partners-in-crime"; "inh"; "ubers-uu"].

Definition forumUrl (s : string) : string :=
  "https://www.smogon.com/forums/forums/" ++ s.

(** [ccSubObj], as the repository spells it out (the copy next to the
    migration command; [constants.js] itself is not among the sources). *)
Definition ccSubObj : list (string * Sub.t) :=
  [ ("758", Sub.Build_t ["9"] ["ou"] (forumUrl "ou-analyses.758/"));
    ("759", Sub.Build_t ["9"] ["uber"] (forumUrl "ubers-analyses.759/"));
    ("539", Sub.Build_t pastGens ["uber"] (forumUrl "past-generation-ubers-analyses.539/"));
    ("772", Sub.Build_t ["9"] ["uu"] (forumUrl "uu-analyses.772/"));
    ("576", Sub.Build_t pastGens ["uu"] (forumUrl "past-generation-uu-analyses.576/"));
    ("774", Sub.Build_t ["9"] ["nu"] (forumUrl "nu-analyses.774/"));
    ("587", Sub.Build_t pastGens ["nu"] (forumUrl "past-generation-nu-analyses.587/"));
    ("775", Sub.Build_t ["9"] ["pu"] (forumUrl "pu-analyses.775/"));
    ("844", Sub.Build_t pastGens ["pu"] (forumUrl "past-generation-pu-analyses.844/"));
    ("760", Sub.Build_t ["9"] ["lc"] (forumUrl "lc-analyses.760/"));
    ("540", Sub.Build_t pastGens ["lc"] (forumUrl "past-generation-lc-analyses.540/"));
    ("761", Sub.Build_t ["9"] ["doubles"] (forumUrl "doubles-ou-analyses.761/"));
    ("541", Sub.Build_t pastGens ["doubles"] (forumUrl "past-gen-doubles-ou-analyses.541/"));
    ("762", Sub.Build_t ["9"] ["monotype"] (forumUrl "monotype-analyses.762/"));
    ("660", Sub.Build_t pastGens ["monotype"] (forumUrl "past-generation-monotype-analyses.660/"));
    ("763", Sub.Build_t ["9"] omTiers (forumUrl "om-analyses.763/"));
    ("770", Sub.Build_t pastGens omTiers (forumUrl "past-generation-om-analyses.770/"));
    ("764", Sub.Build_t ["9"] ["1v1"] (forumUrl "1v1-analyses.764/"));
    ("476", Sub.Build_t pastGens ["1v1"] (forumUrl "past-generation-1v1-analyses.476/"));
    ("765", Sub.Build_t ["9"] ["national-dex"] (forumUrl "national-dex-analyses.765/"));
    ("828", Sub.Build_t ["9"] ["national-dex-monotype"] (forumUrl "natdex-mono-analyses.828/"));
    ("839", Sub.Build_t ["9"] ["national-dex-uu"] (forumUrl "natdex-uu-analyses.839/"));
    ("768", Sub.Build_t (pastGens ++ ["9"]) ["cap"] (forumUrl "cap-analyses.768/"));
    ("766", Sub.Build_t ["9"] ["bss"] (forumUrl "battle-stadium-analyses.766/"));
    ("767", Sub.Build_t ["9"] ["vgc"] (forumUrl "vgc-analyses.767/"));
    ("148", Sub.Build_t pastGens ["ou"] (forumUrl "past-generation-analyses.148/"));
    ("512", Sub.Build_t ["1"] ["nu"; "pu"; "stadium-ou"; "tradebacks-ou"; "uu"; "uber"]
                        (forumUrl "rby-other-tier-analyses.512/"));
    ("608", Sub.Build_t ["7"] ["lgpe-ou"] (forumUrl "pokemon-lets-go-analyses.608/"));
    ("707", Sub.Build_t ["8"] ["bdsp-ou"] (forumUrl "bdsp-ou-analyses.707/"));
    ("871", Sub.Build_t ["9"] ["draft"] (forumUrl "draft-league-analyses.871/")) ].

(** Property lookup [obj[key]] on a literal object; [None] is
    [undefined]. *)
Fixpoint lookup {A : Type} (key : string) (obj : list (string * A)) : option A :=
  match obj with
  | [] => None
  | (k, v) :: obj' => if String.eqb key k then Some v else lookup key obj'
  end.

(** The remaining names imported from [constants.js], which is not among
    the sources: the three prefix vocabularies and the table of
    generation abbreviations.  They are parameters of the classifier. *)
Class Constants : Type := {
  OMPrefix : list string;
  pastGenPrefix : list string;
  rbyOtherPrefix : list string;
  gens : string -> option string
}.

(** The values these names have where [cnc.ts] still writes them
    inline. *)
Definition gensInline : list (string * string) :=
  [ ("sv", "9"); ("9", "9"); ("swsh", "8"); ("ss", "8"); ("8", "8");
    ("usum", "7"); ("usm", "7"); ("sm", "7"); ("7", "7");
    ("oras", "6"); ("xy", "6"); ("6", "6");
    ("b2w2", "5"); ("bw2", "5"); ("bw", "5"); ("5", "5");
    ("hgss", "4"); ("dpp", "4"); ("dp", "4"); ("4", "4");
    ("rse", "3"); ("rs", "3"); ("adv", "3"); ("3", "3");
    ("gsc", "2"); ("gs", "2"); ("2", "2");
    ("rby", "1"); ("rb", "1"); ("1", "1") ].

Definition OMPrefixInline : list string :=
  ["NFE"; "AAA"; "2v2"; "GG"; "AG"; "BH"; "M&M"; "STAB"; "ZU"; "PH"].

Definition pastGenPrefixInline : list string :=
  ["Gen 1"; "Gen 2"; "Gen 3"; "Gen 4"; "Gen 5"; "Gen 6"; "Gen 7"; "Gen 8"].

Definition rbyOtherPrefixInline : list string :=
  ["NU"; "PU"; "Stadium OU"; "Tradebacks OU"; "UU"; "Ubers"].

Definition inlineConstants : Constants :=
  {| OMPrefix := OMPrefixInline;
     pastGenPrefix := pastGenPrefixInline;
     rbyOtherPrefix := rbyOtherPrefixInline;
     gens := fun k => lookup k gensInline |}.

(** ** Control flow of one loop iteration

    [Continue] is the [continue] statement (the thread is skipped);
    [TypeError prop] is the error JavaScript throws on reading the
    property [prop] of [undefined]. *)

Inductive res (A : Type) : Type :=
| Ok (a : A)
| Continue
| TypeError (prop : string).
Arguments Ok {A} a.
Arguments Continue {A}.
Arguments TypeError {A} prop.

Definition bind {A B : Type} (m : res A) (f : A -> res B) : res B :=
  match m with
  | Ok a => f a
  | Continue => Continue
  | TypeError prop => TypeError prop
  end.

Notation "x <- m ;; k" := (bind m (fun x => k))
  (at level 61, m at next level, right associativity).
Notation "' p <- m ;; k" := (bind m (fun x => let p := x in k))
  (at level 61, p pattern, m at next level, right associativity).

(** Reading the property [prop] of a value that may be [undefined]. *)
Definition defined {A : Type} (prop : string) (v : option A) : res A :=
  match v with Some a => Ok a | None => TypeError prop end.

(** [arr[i]] *)
Definition at_ {A : Type} (i : nat) (arr : list (option A)) : option A :=
  match nth_error arr i with Some v => v | None => None end.

(** Truthiness of a value that is a string or [undefined]/[null]. *)
Definition truthy (v : option string) : bool :=
  match v with Some s => negb (String.eqb s "") | None => false end.

Definition optEqb (a b : option string) : bool :=
  match a, b with
  | Some x, Some y => String.eqb x y
  | None, None => true
  | _, _ => false
  end.

(** ** The stage classifier: [parseCCStage]

    The body of the loop is the same in both variants of the workers
    file; the later one adds diagnostic posts, modelled apart
    ([Part005.parseThreadDiag]) since they do not touch the data. *)

Module Workers.

(** [prog.some(val => val?.toLowerCase() === name)] *)
Definition tagged (name : string) (prog : jsmatch) : bool :=
  existsb (fun val => match val with
                      | Some v => String.eqb (toLowerCase v) name
                      | None => false
                      end) prog.

(** [prog[2].replace(/ /g, '')] *)
Definition progressOf (prog : jsmatch) : res string :=
  v <- defined "replace" (at_ 2 prog) ;; Ok (removeSpaces v).

(** [arr[0] !== arr[1]] on the pieces of a [split]. *)
Definition sidesDiffer (arr : list string) : bool :=
  negb (optEqb (nth_error arr 0) (nth_error arr 1)).

Definition progressions (title : string) : list jsmatch :=
  matchAll progressRE 2 title.

Definition tagIs (phrase : option string) (label : string) : bool :=
  optEqb phrase (Some label).

(** [phrase && list.includes(phrase)] *)
Definition listed (phrase : option string) (l : list string) : bool :=
  match phrase with
  | Some p => truthy phrase && arrIncludes p l
  | None => false
  end.

(** [thread.phrase_text.match(/(?<=Gen )\d/)] on the tag. *)
Definition genOfTag (phrase : option string) : option string :=
  match phrase with
  | Some p => matchGenDigit p
  | None => None
  end.

Section Classifier.
Context {K : Constants}.

(** Lines 237-270: the prefix tag gives (stage, gen, tier). *)
Definition parsePrefix (phrase : option string)
  : res (string * list (option string) * list string) :=
  if tagIs phrase "WIP" then Ok ("WIP", [], [])
  else if tagIs phrase "Quality Control" then Ok ("QC", [], [])
  else if tagIs phrase "Copyediting" then Ok ("GP", [], [])
  else if tagIs phrase "HTML" then Ok ("HTML", [], [])
  else if tagIs phrase "Done" then Ok ("Done", [], [])
  else if tagIs phrase "Resource" || tagIs phrase "Announcement" then Continue
  else if listed phrase OMPrefix then
    Ok ("", [], match phrase with Some p => [p] | None => [] end)
  else if listed phrase pastGenPrefix then
    match genOfTag phrase with
    | Some d => Ok ("", [Some d], [])
    | None => Ok ("", [], [])
    end
  else if listed phrase rbyOtherPrefix then
    Ok ("", [], match phrase with Some p => [p] | None => [] end)
  else Ok ("", [], []).

(** Lines 273-366: stage and progress from the title, when the tag left
    the stage empty. *)
Definition inferStage (title : string) : res (string * string) :=
  let progressions := progressions title in
  if length progressions =? 0 then Ok ("WIP", "")
  else if includes "done" (toLowerCase title) then Ok ("Done", "")
  else if 2 <=? length progressions then
    let gpStageMatch := filter (tagged "gp") progressions in
    if (length gpStageMatch =? 0) || (length (hd [] gpStageMatch) <? 3)
    then Continue else
    gp0 <- defined "2" (nth_error gpStageMatch 0) ;;
    gpStageProgress <- progressOf gp0 ;;
    let gpProgArr := splitSlash gpStageProgress in
    let qcStageMatch := filter (tagged "qc") progressions in
    if (length qcStageMatch =? 0) || (length (hd [] qcStageMatch) <? 3)
    then Continue else
    qc0 <- defined "2" (nth_error qcStageMatch 0) ;;
    qcStageProgress <- progressOf qc0 ;;
    let qcProgArr := splitSlash qcStageProgress in
    if sidesDiffer qcProgArr then Ok ("QC", qcStageProgress)
    else if negb (sidesDiffer qcProgArr) && negb (sidesDiffer gpProgArr)
      then Ok ("Done", "")
    else Ok ("GP", gpStageProgress)
  else if existsb (tagged "gp") progressions then
    let gpStageMatch := filter (tagged "gp") progressions in
    gp0 <- defined "2" (nth_error gpStageMatch 0) ;;
    gpStageProgress <- progressOf gp0 ;;
    let gpProgArr := splitSlash gpStageProgress in
    if negb (sidesDiffer gpProgArr) then Ok ("Done", "")
    else Ok ("GP", gpStageProgress)
  else if existsb (tagged "qc") progressions then
    let qcStageMatch := filter (tagged "qc") progressions in
    qc0 <- defined "2" (nth_error qcStageMatch 0) ;;
    qcStageProgress <- progressOf qc0 ;;
    let qcProgArr := splitSlash qcStageProgress in
    if negb (sidesDiffer qcProgArr) then Ok ("GP", "0/?")
    else Ok ("QC", qcStageProgress)
  else Ok ("WIP", "").

(** Lines 369-390: progress for a stage taken from the tag. *)
Definition backfillProgress (title stage : string) : res string :=
  let progressions := progressions title in
  if String.eqb stage "GP" || String.eqb stage "QC" then
    let stageProgress := filter (tagged (toLowerCase stage)) progressions in
    if negb (length stageProgress =? 0) && (3 <=? length (hd [] stageProgress))
    then
      sp0 <- defined "2" (nth_error stageProgress 0) ;; progressOf sp0
    else if negb (length progressions =? 0) then
      let stageProgress :=
        filter (fun prog => optEqb (at_ 1 prog) None && truthy (at_ 2 prog))
               progressions in
      if negb (length stageProgress =? 0) && (3 <=? length (hd [] stageProgress))
      then
        sp0 <- defined "2" (nth_error stageProgress 0) ;; progressOf sp0
      else Ok ""
    else Ok ""
  else Ok "".

(** Lines 396-459: the generation, when the tag did not give it. *)
Definition resolveGen (t : IXFStatusQuery) : res (list (option string)) :=
  if Z.eqb (node_id t) 770 then
    match jsMatch genRegex 4 (title t) with
    | Some matchArr =>
      if negb (optEqb (at_ 0 matchArr) (Some ""))
      then
        genDesr <- defined "toLowerCase" (if truthy (at_ 3 matchArr)
                            then at_ 3 matchArr else at_ 4 matchArr) ;;
        Ok [gens (toLowerCase genDesr)]
      else Continue
    | None => Continue
    end
  else
    sub <- defined "gens" (lookup (toString (node_id t)) ccSubObj) ;;
    Ok (map Some (Sub.gens sub)).

(** Lines 462-464: the tier, when the tag did not give it. *)
Definition resolveTier (t : IXFStatusQuery) : res (list string) :=
  sub <- defined "tiers" (lookup (toString (node_id t)) ccSubObj) ;;
  Ok (Sub.tiers sub).

(** One iteration of the loop of [parseCCStage]. *)
Definition parseThread (t : IXFStatusQuery) : res IXFParsedThreadData :=
  '(stage0, gen0, tier0) <- parsePrefix (phrase_text t) ;;
  '(stage1, progress1) <-
     (if String.eqb stage0 "" then inferStage (title t) else Ok (stage0, "")) ;;
  progress2 <-
     (if String.eqb progress1 "" then backfillProgress (title t) stage1
      else Ok progress1) ;;
  gen1 <- (if length gen0 =? 0 then resolveGen t else Ok gen0) ;;
  tier1 <- (if length tier0 =? 0 then resolveTier t else Ok tier0) ;;
  Ok {| thread := t; gen := gen1; tier := tier1;
        stage := stage1; progress := progress2 |}.

(** [parseCCStage]: the threads the loop pushes, or [None] when an
    iteration throws. *)
Fixpoint parseCCStage (threadData : list IXFStatusQuery)
  : option (list IXFParsedThreadData) :=
  match threadData with
  | [] => Some []
  | t :: ts =>
      match parseThread t with
      | TypeError _ => None
      | Continue => parseCCStage ts
      | Ok d => option_map (cons d) (parseCCStage ts)
      end
  end.

End Classifier.
End Workers.

(** ** Effects: the chat client, the cache and the trace of a cycle *)

Inductive ChannelType : Type :=
| GuildText | PublicThread | PrivateThread | OtherChannel.

(** [client.channels.fetch(id)]; [None] is [null].  Posting to a fetched
    channel is recorded in the trace; a rejected post is outside the
    model (the later variant catches it and goes on). *)
Record Client : Type := { fetch : string -> option ChannelType }.

(** [chan.type === GuildText || ... PublicThread || ... PrivateThread] *)
Definition isTextChannel (chan : option ChannelType) : bool :=
  match chan with
  | Some GuildText | Some PublicThread | Some PrivateThread => true
  | _ => false
  end.

(** What a diagnostic post to the developer channel carries. *)
Inductive diag : Type :=
| QueryFailed
| ParseEmpty
| AlertChansJson (chans : list AlertChan.t)
| ThreadTrace (oldGen : bool) (t : IXFStatusQuery) (stage progress : string)
              (gen : list (option string)) (tier : list string).

Inductive event : Type :=
| ChanSend (channelid msg : string)        (* [chan.send(alertmsg)] *)
| DevSend (d : diag)                       (* [devChan.send(...)] *)
| CacheUpdate (row : Status.t) (del : bool).   (* [updateCCCache(row, del)] *)

(** The two persisted tables. *)
Record DB : Type := {
  ccstatus : list Status.t;
  ccprefs : list AlertChan.t
}.

(** [SELECT ... WHERE thread_id = id] *)
Definition sqlSelect (id : Z) (cache : list Status.t) : list Status.t :=
  filter (fun row => Z.eqb (Status.thread_id row) id) cache.

(** [DELETE ... WHERE thread_id = id] *)
Definition sqlDelete (id : Z) (cache : list Status.t) : list Status.t :=
  filter (fun row => negb (Z.eqb (Status.thread_id row) id)) cache.

(** [INSERT ... ON CONFLICT (thread_id) DO UPDATE SET stage, progress] *)
Definition sqlUpsert (row : Status.t) (cache : list Status.t) : list Status.t :=
  if existsb (fun r => Z.eqb (Status.thread_id r) (Status.thread_id row)) cache
  then map (fun r => if Z.eqb (Status.thread_id r) (Status.thread_id row)
                     then row else r) cache
  else cache ++ [row].

(** Modelled from the spec: [loadCCData] of [ccQueries.js], which is not
    among the sources.  Section 4.3: load returns the cache entries and
    the subscriptions. *)
Definition loadCCData (db : DB) : ICCData :=
  {| threads := ccstatus db; alertchans := ccprefs db |}.

(** Modelled from the spec: [updateCCCache] of [ccQueries.js], which is
    not among the sources.  Section 4.3: delete by thread id, or upsert
    with the last write winning; section 3: an entry is deleted when its
    stage becomes Done. *)
Definition updateCCCache (row : Status.t) (del : bool) (cache : list Status.t)
  : list Status.t :=
  if del || String.eqb (Status.stage row) "Done"
  then sqlDelete (Status.thread_id row) cache
  else sqlUpsert row cache.

(** The cache after the effects of a trace. *)
Definition applyEvent (cache : list Status.t) (e : event) : list Status.t :=
  match e with
  | CacheUpdate row del => updateCCCache row del cache
  | _ => cache
  end.

Definition applyTrace (cache : list Status.t) (tr : list event) : list Status.t :=
  fold_left applyEvent tr cache.

(** The fields of a parsed thread that [updateCCCache] reads. *)
Definition statusOf (d : IXFParsedThreadData) : Status.t :=
  {| Status.thread_id := thread_id (thread d);
     Status.stage := stage d;
     Status.progress := progress d |}.

Definition threadUrl (id : Z) : string :=
  "Update to thread <https://www.smogon.com/forums/threads/" ++ toString id ++ "/>".

(** [if (alertChan.role) alertmsg = `<@&${alertChan.role}> `.concat(alertmsg)] *)
Definition withRole (alertChan : AlertChan.t) (alertmsg : string) : string :=
  match AlertChan.role alertChan with
  | Some r => if truthy (Some r) then "<@&" ++ r ++ "> " ++ alertmsg else alertmsg
  | None => alertmsg
  end.

(** The subscriptions whose tier and generation the thread carries. *)
Definition matchingChans (newData : IXFParsedThreadData) (oldData : ICCData)
  : list AlertChan.t :=
  let newTierLower := map toLowerCase (tier newData) in
  filter (fun chanData =>
            arrIncludes (AlertChan.tier chanData) newTierLower
            && existsb (optEqb (Some (AlertChan.gen chanData))) (gen newData))
         (alertchans oldData).

(** [newData.stage !== old.stage || newData.progress !== old.progress],
    or no cached row at all. *)
Definition changed (newStage newProgress : string) (oldThreadData : list Status.t)
  : bool :=
  match oldThreadData with
  | [] => true
  | old0 :: _ =>
      negb (String.eqb newStage (Status.stage old0))
      || negb (String.eqb newProgress (Status.progress old0))
  end.

(** ** The variant with the last-check window *)

Module Part004.

(** The loop of [alertCCStatus] (lines 347-381). *)
Fixpoint alertLoop (client : Client) (newData : IXFParsedThreadData)
         (alertChans : list AlertChan.t) (processedIDs : list string)
  : list event :=
  match alertChans with
  | [] => []
  | alertChan :: more =>
    if arrIncludes (AlertChan.channelid alertChan) processedIDs
    then alertLoop client newData more processedIDs
    else if negb (isTextChannel (fetch client (AlertChan.channelid alertChan)))
    then []
    else
      if String.eqb (stage newData) "GP" && startsWith "0" (progress newData) then
        ChanSend (AlertChan.channelid alertChan)
                 (withRole alertChan
                    (threadUrl (thread_id (thread newData)) ++ nl
                     ++ "Status: **Ready for GP**"))
        :: alertLoop client newData more
                     (processedIDs ++ [AlertChan.channelid alertChan])
      else if String.eqb (stage newData) "QC" && startsWith "0" (progress newData) then
        ChanSend (AlertChan.channelid alertChan)
                 (withRole alertChan
                    (threadUrl (thread_id (thread newData)) ++ nl
                     ++ "Status: **Ready for QC**"))
        :: alertLoop client newData more
                     (processedIDs ++ [AlertChan.channelid alertChan])
      else if negb (String.eqb (stage newData) "QC"
                    || String.eqb (stage newData) "Done") then
        []
      else
        ChanSend (AlertChan.channelid alertChan)
                 (withRole alertChan
                    (threadUrl (thread_id (thread newData)) ++ nl
                     ++ "Status: **" ++ stage newData ++ " "
                     ++ progress newData ++ "**"))
        :: alertLoop client newData more
                     (processedIDs ++ [AlertChan.channelid alertChan])
  end.

Definition alertCCStatus (newData : IXFParsedThreadData) (oldData : ICCData)
           (client : Client) : list event :=
  let alertChans := matchingChans newData oldData in
  if length alertChans =? 0 then []
  else alertLoop client newData alertChans [].

(** One iteration of the thread loop of [checkCCUpdates]
    (lines 303-317). *)
Definition threadStep (client : Client) (oldData : ICCData)
           (newThreadData : IXFParsedThreadData) : list event :=
  let oldThreadData :=
    filter (fun othread =>
              Z.eqb (Status.thread_id othread) (thread_id (thread newThreadData)))
           (threads oldData) in
  if changed (stage newThreadData) (progress newThreadData) oldThreadData
  then alertCCStatus newThreadData oldData client
       ++ [CacheUpdate (statusOf newThreadData) false]
  else [].

Definition threadLoop (client : Client) (oldData : ICCData)
           (parsedThreadData : list IXFParsedThreadData) : list event :=
  flat_map (threadStep client oldData) parsedThreadData.

End Part004.

(** ** The variant that polls the whole open set *)

Module Part005.

Definition devChanId : string := "1040378543626002445".

(** A diagnostic post: sent when the developer channel is fetched as a
    guild text channel, logged to the console otherwise. *)
Definition devSend (client : Client) (d : diag) : list event :=
  match fetch client devChanId with
  | Some GuildText => [DevSend d]
  | _ => []
  end.

(** The loop of [alertCCStatus] (lines 166-215). *)
Fixpoint alertLoop (client : Client) (newData : IXFParsedThreadData)
         (alertChans : list AlertChan.t) (processedIDs : list string)
  : list event :=
  match alertChans with
  | [] => []
  | alertChan :: more =>
    if arrIncludes (AlertChan.channelid alertChan) processedIDs
    then alertLoop client newData more processedIDs
    else if negb (isTextChannel (fetch client (AlertChan.channelid alertChan)))
    then []
    else
      let alertmsg : string :=
       (if String.eqb (stage newData) "GP" && startsWith "0" (progress newData) then
          threadUrl (thread_id (thread newData)) ++ nl ++ "Status: **Ready for GP**"
        else if String.eqb (stage newData) "QC" && startsWith "0" (progress newData) then
          threadUrl (thread_id (thread newData)) ++ nl ++ "Status: **Ready for QC**"
        else if negb (String.eqb (stage newData) "QC"
                      || String.eqb (stage newData) "Done") then
          "Not QC or Done"
        else
          threadUrl (thread_id (thread newData)) ++ nl
          ++ "Status: **" ++ stage newData ++ " " ++ progress newData ++ "**")%string in
      ChanSend (AlertChan.channelid alertChan) (withRole alertChan alertmsg)
      :: alertLoop client newData more
                   (processedIDs ++ [AlertChan.channelid alertChan])
  end.

Definition alertCCStatus (newData : IXFParsedThreadData) (oldData : ICCData)
           (client : Client) : list event :=
  let alertChans := matchingChans newData oldData in
  devSend client (AlertChansJson alertChans)
  ++ (if length alertChans =? 0 then []
      else alertLoop client newData alertChans []).

(** [uncacheRemovedThreads] (lines 106-118). *)
Definition uncacheRemovedThreads (currentData : list IXFStatusQuery)
           (cachedData : ICCData) : list event :=
  let currentThreadIDs := map thread_id currentData in
  let cachedRemoved :=
    filter (fun othread =>
              negb (existsb (Z.eqb (Status.thread_id othread)) currentThreadIDs))
           (threads cachedData) in
  map (fun oldThreadData => CacheUpdate oldThreadData true) cachedRemoved.

Section Classifier.
Context {K : Constants}.

(** The diagnostic posts of one iteration of [parseCCStage]
    (lines 406-412, 442-450 and 472-480). *)
Definition parseThreadDiag (client : Client) (t : IXFStatusQuery) : list event :=
  match
    ('(stage0, gen0, tier0) <- Workers.parsePrefix (phrase_text t) ;;
     '(stage1, progress1) <-
        (if String.eqb stage0 "" then Workers.inferStage (title t)
         else Ok (stage0, "")) ;;
     progress2 <-
        (if String.eqb progress1 "" then Workers.backfillProgress (title t) stage1
         else Ok progress1) ;;
     Ok (stage1, progress2, gen0, tier0))
  with
  | Ok (stage1, progress2, gen0, tier0) =>
      (if length gen0 =? 0 then
         if Z.eqb (node_id t) 770
         then devSend client (ThreadTrace true t stage1 progress2 gen0 tier0)
         else if Z.eqb (node_id t) 763
         then devSend client (ThreadTrace false t stage1 progress2 gen0 tier0)
         else []
       else [])
      ++ match Workers.parseThread t with
         | Ok d =>
             if Z.eqb (node_id t) 763
             then devSend client (ThreadTrace false t (stage d) (progress d)
                                              (gen d) (tier d))
             else []
         | _ => []
         end
  | _ => []
  end.

(** [parseCCStage] with its posts. *)
Fixpoint parseCCStage (threadData : list IXFStatusQuery) (client : Client)
  : list event * option (list IXFParsedThreadData) :=
  match threadData with
  | [] => ([], Some [])
  | t :: ts =>
      match Workers.parseThread t with
      | TypeError _ => (parseThreadDiag client t, None)
      | Continue =>
          let (tr, r) := parseCCStage ts client in
          (parseThreadDiag client t ++ tr, r)
      | Ok d =>
          let (tr, r) := parseCCStage ts client in
          (parseThreadDiag client t ++ tr, option_map (cons d) r)
      end
  end.

(** One iteration of the thread loop of [checkCCUpdates]
    (lines 78-93). *)
Definition threadStep (client : Client) (oldData : ICCData)
           (newThreadData : IXFParsedThreadData) : list event :=
  let oldThreadData :=
    filter (fun othread =>
              Z.eqb (Status.thread_id othread) (thread_id (thread newThreadData)))
           (threads oldData) in
  if changed (stage newThreadData) (progress newThreadData) oldThreadData
  then alertCCStatus newThreadData oldData client
       ++ [CacheUpdate (statusOf newThreadData) false]
  else [].

(** [checkCCUpdates]: the trace of a cycle over the rows [threadData]
    that [pollCCForums] returned, and whether the cycle ran to its end
    ([false]: an iteration of the classifier threw). *)
Definition checkCCUpdates (client : Client) (db : DB)
           (threadData : list IXFStatusQuery) : list event * bool :=
  let oldData := loadCCData db in
  if length threadData =? 0 then
    (devSend client QueryFailed ++ uncacheRemovedThreads threadData oldData, true)
  else
    match parseCCStage threadData client with
    | (tr, None) => (tr, false)
    | (tr, Some parsedThreadData) =>
        (tr
         ++ (if length parsedThreadData =? 0 then devSend client ParseEmpty else [])
         ++ flat_map (threadStep client oldData) parsedThreadData
         ++ uncacheRemovedThreads threadData oldData,
         true)
    end.

End Classifier.
End Part005.

(** ** The earliest form: [src/helpers/cnc.ts] *)

Module Cnc.

Definition sample : string := "SubRoost Zapdos [QC: 2/2] [GP:0/1]".

(** [prog.some(val => val.toLowerCase() === name)]: stops at the first
    hit, throws on an [undefined] group met before it. *)
Fixpoint someVal (name : string) (prog : jsmatch) : res bool :=
  match prog with
  | [] => Ok false
  | val :: more =>
      v <- defined "toLowerCase" val ;;
      if String.eqb (toLowerCase v) name then Ok true else someVal name more
  end.

(** [progressions.some(prog => prog.some(...))] *)
Fixpoint someProg (name : string) (progressions : list jsmatch) : res bool :=
  match progressions with
  | [] => Ok false
  | prog :: more =>
      b <- someVal name prog ;;
      if b then Ok true else someProg name more
  end.

(** [progressions.filter(prog => prog.some(...))] *)
Fixpoint filterProg (name : string) (progressions : list jsmatch)
  : res (list jsmatch) :=
  match progressions with
  | [] => Ok []
  | prog :: more =>
      b <- someVal name prog ;;
      l <- filterProg name more ;;
      Ok (if b then prog :: l else l)
  end.

(** [m[2]] of a match of the progress pattern: group 2 takes part in
    every match, so the value is a string. *)
Definition group2 (m : jsmatch) : string :=
  match at_ 2 m with Some v => v | None => "" end.

(** [arr[arr.length - 1]] *)
Definition lastOf (arr : list string) : option string :=
  nth_error arr (length arr - 1).

(** The classification part of one iteration of [findNewThreads]
    (lines 46-194): stage, progress, gen and tier, the last two possibly
    [undefined]. *)
Definition classify (t : IXFStatusQuery)
  : res (string * string * option string * option string) :=
  let phrase := phrase_text t in
  '(stage, progress, gen, tier) <-
    (if Workers.tagIs phrase "WIP" then Ok ("WIP", "", Some "", Some "")
     else if Workers.tagIs phrase "Quality Control" then Ok ("QC", "", Some "", Some "")
     else if Workers.tagIs phrase "Copyediting" then Ok ("GP", "", Some "", Some "")
     else if Workers.tagIs phrase "HTML" then Ok ("HTML", "", Some "", Some "")
     else if Workers.tagIs phrase "Done" then Ok ("Done", "", Some "", Some "")
     else if Workers.tagIs phrase "Resource" || Workers.tagIs phrase "Announcement"
       then Continue
     else if Workers.listed phrase OMPrefixInline then Ok ("", "", Some "", phrase)
     else if Workers.listed phrase pastGenPrefixInline then
       match Workers.genOfTag phrase with
       | Some d => Ok ("", "", Some d, Some "")
       | None => Ok ("", "", Some "", Some "")
       end
     else if Workers.listed phrase rbyOtherPrefixInline then Ok ("", "", Some "", phrase)
     else
       let progressions := matchAll progressRE_cnc 2 sample in
       if includes "done" (toLowerCase (title t)) then Ok ("Done", "", Some "", Some "")
       else
         isGp <- someProg "gp" progressions ;;
         if isGp then
           gpStageProgress <- filterProg "gp" progressions ;;
           m0 <- defined "2" (nth_error gpStageProgress 0) ;;
           Ok ("GP", group2 m0, Some "", Some "")
         else
           isQc <- someProg "qc" progressions ;;
           if isQc then
             gpStageProgress <- filterProg "qc" progressions ;;
             m0 <- defined "2" (nth_error gpStageProgress 0) ;;
             Ok ("QC", group2 m0, Some "", Some "")
           else Ok ("WIP", "", Some "", Some "")) ;;
  progress <-
    (if String.eqb progress "" then
       let progressions := matchAll progressRE_cnc 2 sample in
       if String.eqb stage "GP" || String.eqb stage "QC" then
         stageProgress <- filterProg (toLowerCase stage) progressions ;;
         if negb (length stageProgress =? 0) then
           m0 <- defined "2" (nth_error stageProgress 0) ;; Ok (group2 m0)
         else if negb (length progressions =? 0) then
           let stageProgress :=
             filter (fun prog => optEqb (at_ 1 prog) None && truthy (at_ 2 prog))
                    progressions in
           m0 <- defined "2" (nth_error stageProgress 0) ;; Ok (group2 m0)
         else Ok progress
       else Ok progress
     else Ok progress) ;;
  gen <-
    (if optEqb gen (Some "") then
       if Z.eqb (node_id t) 770 then
         match jsMatch genRegex 4 (title t) with
         | Some matchArr =>
             genDesr <- defined "toLowerCase" (if truthy (at_ 3 matchArr)
                                 then at_ 3 matchArr else at_ 4 matchArr) ;;
             Ok (lookup (toLowerCase genDesr) gensInline)
         | None => Ok gen
         end
       else
         sub <- defined "gens" (lookup (toString (node_id t)) ccSubObj) ;;
         Ok (lastOf (Sub.gens sub))
     else Ok gen) ;;
  tier <-
    (if optEqb tier (Some "") then
       sub <- defined "tiers" (lookup (toString (node_id t)) ccSubObj) ;;
       Ok (lastOf (Sub.tiers sub))
     else Ok tier) ;;
  Ok (stage, progress, gen, tier).

(** [alertCCStatus] of [cnc.ts] (lines 231-256): the subscriptions are
    selected by equality on tier and gen; the loop returns in its first
    iteration. *)
Definition alertCCStatus (threadid : Z) (stage progress : string)
           (gen tier : option string) (client : Client) (db : DB) : list event :=
  let alertChans :=
    filter (fun row => optEqb (Some (AlertChan.tier row)) tier
                       && optEqb (Some (AlertChan.gen row)) gen)
           (ccprefs db) in
  match alertChans with
  | [] => []
  | alertChan :: _ =>
      if negb (isTextChannel (fetch client (AlertChan.channelid alertChan)))
      then []
      else [ChanSend (AlertChan.channelid alertChan)
                     (threadUrl threadid ++ nl ++ nl ++ "Status: " ++ stage
                      ++ " " ++ progress)]
  end.

(** How the loop of [findNewThreads] ends. *)
Inductive ending : Type :=
| Finished          (* every row was visited *)
| Returned          (* the [return] of line 205 *)
| Thrown.           (* a TypeError *)

(** The loop of [findNewThreads] (lines 46-219) over the rows of the
    forum query: the posts, the cache afterwards, and how it ended. *)
Fixpoint threadLoop (client : Client) (db : DB) (threadData : list IXFStatusQuery)
  : list event * DB * ending :=
  match threadData with
  | [] => ([], db, Finished)
  | t :: more =>
      match classify t with
      | Continue => threadLoop client db more
      | TypeError _ => ([], db, Thrown)
      | Ok (stage, progress, gen, tier) =>
          let oldThreadData := sqlSelect (thread_id t) (ccstatus db) in
          if changed stage progress oldThreadData then
            let posts := alertCCStatus (thread_id t) stage progress gen tier client db in
            let row := {| Status.thread_id := thread_id t;
                          Status.stage := stage;
                          Status.progress := progress |} in
            let db' :=
              {| ccstatus := if String.eqb stage "Done"
                             then sqlDelete (thread_id t) (ccstatus db)
                             else sqlUpsert row (ccstatus db);
                 ccprefs := ccprefs db |} in
            let '(tr, db'', e) := threadLoop client db' more in
            (posts ++ tr, db'', e)
          else ([], db, Returned)
      end
  end.

Definition findNewThreads (client : Client) (db : DB)
           (threadData : list IXFStatusQuery) : list event * DB * ending :=
  if length threadData =? 0 then ([], db, Returned)
  else threadLoop client db threadData.

End Cnc.

(** ** Vocabulary of the statements *)

(** The prefix tag is none of the labels that fix the stage or exclude
    the thread; [parsePrefix] then leaves the stage empty. *)
Definition tagGivesNoStage (phrase : option string) : bool :=
  negb (existsb (Workers.tagIs phrase)
          ["WIP"; "Quality Control"; "Copyediting"; "HTML"; "Done";
           "Resource"; "Announcement"]).

Fixpoint lastChar (s : string) : option ascii :=
  match s with
  | EmptyString => None
  | String c EmptyString => Some c
  | String _ s' => lastChar s'
  end.

(** The two digits of a match: the first and the last character of its
    numeric group. *)
Definition digitsOf (m : jsmatch) : option (ascii * ascii) :=
  match at_ 2 m with
  | Some (String a more) =>
      match lastChar more with
      | Some b => Some (a, b)
      | None => None
      end
  | _ => None
  end.

Fixpoint allChars (p : ascii -> bool) (s : string) : bool :=
  match s with
  | EmptyString => true
  | String c s' => p c && allChars p s'
  end.

(** The white space inside the numeric group of a match, if any, is the
    space character U+0020. *)
Definition plainSpaces (m : jsmatch) : bool :=
  match at_ 2 m with
  | Some g => allChars (fun c => negb (isSpace c) || Ascii.eqb c " ") g
  | None => true
  end.

(** The progress string [a/b]. *)
Definition frac (a b : ascii) : string := String a (String "/" (String b "")).

(** The forum section is a key of [ccSubObj]. *)
Definition monitored (t : IXFStatusQuery) : Prop :=
  lookup (toString (node_id t)) ccSubObj <> None.

Definition tab : string := String (ascii_of_nat 9) EmptyString.

(** What a classification says about a thread, or how the iteration
    ended otherwise. *)
Definition classification (d : IXFParsedThreadData)
  : string * string * list (option string) * list string :=
  (stage d, progress d, gen d, tier d).

Definition outcomeOf {K : Constants} (t : IXFStatusQuery)
  : res (string * string * list (option string) * list string) :=
  d <- Workers.parseThread t ;; Ok (classification d).

(** The number of notifications posted to channel [c] in a trace. *)
Definition sentTo (c : string) (tr : list event) : nat :=
  length (filter (fun e => match e with
                           | ChanSend c' _ => String.eqb c' c
                           | _ => false
                           end) tr).

(** The notifications of a trace, without the diagnostic posts and the
    cache updates. *)
Definition chanSends (tr : list event) : list event :=
  filter (fun e => match e with ChanSend _ _ => true | _ => false end) tr.






(** An optional white-space character. *)
Definition optSpace (w : string) : Prop :=
  w = "" \/ exists c, w = String c "" /\ isSpace c = true.

(** [g] is digit [a], an optional white space, a slash, an optional
    white space and digit [b]. *)
Definition numericShape (g : string) (a b : ascii) : Prop :=
  exists w1 w2,
    g = String a (w1 ++ String "/" (w2 ++ String b "")) /\
    isDigit a = true /\ isDigit b = true /\ optSpace w1 /\ optSpace w2.

(** What a match of the progress pattern looks like: the whole match,
    the stage name in either case, and the numeric group. *)
Definition progressMatch (m : jsmatch) (g1 g2 : string) (a b : ascii) : Prop :=
  exists full,
    m = [Some full; Some g1; Some g2] /\
    2 < String.length full /\
    (toLowerCase g1 = "qc" \/ toLowerCase g1 = "gp") /\
    numericShape g2 a b.

(** The group that the generation pattern stars, over its three leaves. *)
Definition genBody (word sp token : regex) : regex :=
  Grp 1 (Alt (Cat (Grp 2 word) (Cat sp (Grp 3 (Chr (inRange 49 57)))))
             (Grp 4 token)).

(** Captures of the generation pattern after at least one iteration:
    group 3 is a non-empty string or group 4 is defined. *)
Definition genCaptured (c : jsmatch) : Prop :=
  length c = 5 /\ (truthy (at_ 3 c) = true \/ at_ 4 c <> None).


(** ** Sample inputs *)

Definition thread_qc_1_2 : IXFStatusQuery :=
  {| thread_id := 100; node_id := 758;
     title := "Zapdos [QC 1/2]"; phrase_text := None |}.

Definition thread_qc_gp : IXFStatusQuery :=
  {| thread_id := 100; node_id := 758;
     title := "Zapdos [QC 2/2] [GP 0/1]"; phrase_text := None |}.

(** Section 770, no generation at the start of the title. *)
Definition thread_770_qc : IXFStatusQuery :=
  {| thread_id := 101; node_id := 770;
     title := "Zapdos [QC 1/2]"; phrase_text := None |}.

Definition thread_770_qc_gp : IXFStatusQuery :=
  {| thread_id := 101; node_id := 770;
     title := "Zapdos [QC 1/2] [GP 0/1]"; phrase_text := None |}.

Definition thread_770_done : IXFStatusQuery :=
  {| thread_id := 101; node_id := 770;
     title := "Zapdos [QC 2/2] done"; phrase_text := None |}.

(** A tab between the first digit and the slash. *)
Definition thread_qc_tab : IXFStatusQuery :=
  {| thread_id := 102; node_id := 758;
     title := "Zapdos [QC 2" ++ tab ++ "/2]"; phrase_text := None |}.

Definition thread_qc_tab_gp : IXFStatusQuery :=
  {| thread_id := 102; node_id := 758;
     title := "Zapdos [QC 2" ++ tab ++ "/2] [GP 0/1]"; phrase_text := None |}.

Definition thread_done_only : IXFStatusQuery :=
  {| thread_id := 103; node_id := 758;
     title := "Zapdos (done)"; phrase_text := None |}.

Definition thread_done_qc : IXFStatusQuery :=
  {| thread_id := 103; node_id := 758;
     title := "Zapdos [QC 1/2] DONE"; phrase_text := None |}.

Definition thread_plain : IXFStatusQuery :=
  {| thread_id := 104; node_id := 758;
     title := "Landorus-T"; phrase_text := None |}.

(** The tag is outside every vocabulary [cnc.ts] lists. *)
Definition noRecognizedTag (phrase : option string) : bool :=
  tagGivesNoStage phrase
  && negb (Workers.listed phrase OMPrefixInline)
  && negb (Workers.listed phrase pastGenPrefixInline)
  && negb (Workers.listed phrase rbyOtherPrefixInline).

(** A subscription of channel [chanA] to (ou, 9), a client that fetches
    [chanA] as a text channel and nothing else, and a cache that holds
    thread 100 as WIP. *)
Definition chanA : string := "1059653209678950460".

Definition subOU : AlertChan.t :=
  {| AlertChan.serverid := "192713314399289344";
     AlertChan.channelid := chanA;
     AlertChan.tier := "ou";
     AlertChan.role := None;
     AlertChan.gen := "9" |}.

Definition clientA : Client :=
  {| fetch := fun id => if String.eqb id chanA then Some GuildText else None |}.

Definition rowWIP : Status.t :=
  {| Status.thread_id := 100; Status.stage := "WIP"; Status.progress := "" |}.

Definition dbA : DB := {| ccstatus := [rowWIP]; ccprefs := [subOU] |}.

Definition thread_wip : IXFStatusQuery :=
  {| thread_id := 100; node_id := 758;
     title := "Zapdos"; phrase_text := Some "WIP" |}.

Definition thread_qc_tag : IXFStatusQuery :=
  {| thread_id := 105; node_id := 758;
     title := "Moltres"; phrase_text := Some "Quality Control" |}.



Definition parsed_qc_0_2 : IXFParsedThreadData :=
  {| thread := thread_wip; gen := [Some "9"]; tier := ["ou"; "uu"];
     stage := "QC"; progress := "0/2" |}.

Definition subUU : AlertChan.t :=
  {| AlertChan.serverid := "192713314399289344";
     AlertChan.channelid := chanA;
     AlertChan.tier := "uu";
     AlertChan.role := Some "1061135917160607766";
     AlertChan.gen := "9" |}.

Definition dataA : ICCData := {| threads := [rowWIP]; alertchans := [subOU; subUU] |}.

(** The end-to-end scenario of the specification: thread 100, titled
    with "QC 0/2", first unknown to the cache, then cached, then gone. *)
Definition thread_qc_0_2 : IXFStatusQuery :=
  {| thread_id := 100; node_id := 758;
     title := "Zapdos [QC 0/2]"; phrase_text := None |}.

Definition thread_qc_1_2_gp_0_1 : IXFStatusQuery :=
  {| thread_id := 100; node_id := 758;
     title := "Zapdos [QC 1/2] [GP 0/1]"; phrase_text := None |}.

Definition rowQC02 : Status.t :=
  {| Status.thread_id := 100; Status.stage := "QC"; Status.progress := "0/2" |}.

Definition dbEmpty : DB := {| ccstatus := []; ccprefs := [subOU] |}.

Definition dbCached : DB := {| ccstatus := [rowQC02]; ccprefs := [subOU] |}.

(** ** The tier check of [cnc.ts] *)

Module CncTier.
Section Meta.

(** [ccMetaObj] of [constants.js], which is not among the sources: the
    (name, value) pairs of the tier choices. *)
Variable ccMetaObj : list (string * string).

(** [validateCCTier] (lines 224-228). *)
Definition validateCCTier (tier : string) : bool :=
  existsb (fun pair => String.eqb (snd pair) (toLowerCase tier)) ccMetaObj.

End Meta.
End CncTier.

(** ** The migration command: [migratedb] ([unnamed/part_002]) *)

Module Migrate.

(** A row of the old subscriptions ([ICCPrefDump]). *)
Record ICCPrefDump : Type := {
  serverid : string;
  channelid : string;
  tier : string;
  role : string;
  gen : string;
  stage : string;
  cooldown : Z;
  prefix : string
}.

(** The object [gens] of [genConversion], as [Object.entries] lists
    it. *)
Definition genTable : list (string * string) :=
  [ ("SV", "9"); ("SS", "8"); ("SM", "7"); ("XY", "6"); ("BW", "5");
    ("DP", "4"); ("RS", "3"); ("GS", "2"); ("RB", "1") ].

Fixpoint genConversionFrom (entries : list (string * string)) (gen : string)
  : string :=
  match entries with
  | [] => gen
  | (k, v) :: more =>
      if String.eqb gen k then v
      else if String.eqb gen v then k
      else genConversionFrom more gen
  end.

(** [genConversion] (lines 653-676). *)
Definition genConversion (gen : string) : string :=
  genConversionFrom genTable gen.

(** [s.replace(/ /g, '-')] *)
Fixpoint dashSpaces (s : string) : string :=
  match s with
  | EmptyString => EmptyString
  | String c s' => String (if Ascii.eqb c " " then "-"%char else c) (dashSpaces s')
  end.

(** The tier pushed for a row of the old subscriptions; [None] is the
    [continue] of the tier "Ubers". *)
Definition remapTier (tier : string) : option string :=
  if String.eqb tier "ubers" then Some "uber"
  else if String.eqb tier "dou" then Some "doubles"
  else if String.eqb tier "mono" then Some "monotype"
  else if String.eqb tier "natdex ou" then Some "national-dex"
  else if String.eqb tier "natdex uu" then Some "national-dex-uu"
  else if String.eqb tier "natdex ag" then Some "national-dex-ag"
  else if String.eqb tier "natdex mono" then Some "national-dex-monotype"
  else if String.eqb tier "2v2" then Some "2v2-doubles"
  else if String.eqb tier "m&m" then Some "mix-and-mega"
  else if String.eqb tier "aaa" then Some "almost-any-ability"
  else if String.eqb tier "gg" then Some "godly-gift"
  else if String.eqb tier "ph" then Some "pure-hackmons"
  else if String.eqb tier "stab" then Some "stabmons"
  else if String.eqb tier "pic" then Some "partners-in-crime"
  else if String.eqb tier "inheritance" then Some "inh"
  else if String.eqb tier "uubers" then Some "ubers-uu"
  else if String.eqb tier "Ubers" then None
  else Some (toLowerCase (dashSpaces tier)).

(** The eight arrays the loop over the old subscriptions fills. *)
Record CCArrays : Type := {
  servers : list string;
  channels : list string;
  tiers : list string;
  roles : list string;
  gens : list string;
  stages : list string;
  cooldowns : list Z;
  prefixes : list string
}.

Definition noArrays : CCArrays :=
  {| servers := []; channels := []; tiers := []; roles := []; gens := [];
     stages := []; cooldowns := []; prefixes := [] |}.

Section Loop.

(** [Number(s) < 9], the comparison of the old generation with 9. *)
Variable numberBelow9 : string -> bool.

(** The prefix pushed for a row. *)
Definition remapPrefix (row : ICCPrefDump) : string :=
  if arrIncludes (tier row)
       ["nfe"; "aaa"; "2v2"; "gg"; "ag"; "bh"; "m&m"; "stab"; "zu"; "ph";
        "pic"; "inheritance"; "uubers"]
  then tier row
  else if String.eqb (tier row) "ou" || String.eqb (tier row) "PU"
          || String.eqb (tier row) "pu" || String.eqb (tier row) "uu"
  then (if numberBelow9 (gen row) then ("gen " ++ gen row)%string else "")
  else if String.eqb (gen row) "1"
          && arrIncludes (tier row)
               ["nu"; "pu"; "stadium ou"; "tradebacks ou"; "uu"; "ubers"]
  then tier row
  else prefix row.

(** One iteration of the loop over [db.cc] (lines 440-532). *)
Definition ccStep (acc : CCArrays) (row : ICCPrefDump) : CCArrays :=
  match remapTier (tier row) with
  | None => acc
  | Some newTier =>
      {| tiers := tiers acc ++ [newTier];
         prefixes := prefixes acc ++ [remapPrefix row];
         gens := gens acc ++ [toLowerCase (genConversion (gen row))];
         servers := servers acc ++ [serverid row];
         channels := channels acc ++ [channelid row];
         roles := roles acc ++ [role row];
         stages := stages acc ++ [stage row];
         cooldowns := cooldowns acc ++ [cooldown row] |}
  end.

Definition ccLoop (cc : list ICCPrefDump) : CCArrays :=
  fold_left ccStep cc noArrays.

End Loop.

(** The two [UPDATE ... FROM (VALUES ...) AS renames] statements of the
    transaction (lines 578-621): the (old, new) pairs. *)
Definition genRenames : list (string * string) :=
  [ ("1", "rb"); ("2", "gs"); ("3", "rs"); ("4", "dp"); ("5", "bw");
    ("6", "xy"); ("7", "sm"); ("8", "ss"); ("9", "sv") ].

Definition tierRenames : list (string * string) :=
  [ ("ubers", "uber"); ("dou", "doubles"); ("mono", "monotype");
    ("natdex ou", "national-dex"); ("natdex uu", "national-dex-uu");
    ("natdex ag", "national-dex-ag"); ("natdex mono", "national-dex-monotype");
    ("2v2", "2v2-doubles"); ("m&m", "mix-and-mega"); ("aaa", "almost-any-ability");
    ("gg", "godly-gift"); ("ph", "pure-hackmons"); ("stab", "stabmons");
    ("pic", "partners-in-crime"); ("inheritance", "inh"); ("uubers", "ubers-uu");
    ("lgpe ou", "lgpe-ou"); ("bdsp-ou", "bdsp-ou"); ("stadium ou", "stadium-ou");
    ("tradebacks ou", "tradebacks-ou"); ("PU", "pu") ].

(** The value of a column after [SET col = renames.new WHERE col =
    renames.old]. *)
Definition sqlRename (renames : list (string * string)) (old : string) : string :=
  match lookup old renames with
  | Some new => new
  | None => old
  end.

(** The rows [DELETE FROM chatot.ccprefs WHERE tier='Ubers'] leaves. *)
Definition sqlDeleteUbers (cc : list ICCPrefDump) : list ICCPrefDump :=
  filter (fun row => negb (String.eqb (tier row) "Ubers")) cc.

(** The primary key (serverid, channelid, tier, gen, stage) of an old
    row after the two [UPDATE] statements, and of the row the loop
    pushes for it ([None]: it pushes none). *)
Definition renamedKey (row : ICCPrefDump)
  : string * string * string * string * string :=
  (serverid row, channelid row, sqlRename tierRenames (tier row),
   sqlRename genRenames (gen row), stage row).

Definition insertedKey (row : ICCPrefDump)
  : option (string * string * string * string * string) :=
  match remapTier (tier row) with
  | Some newTier =>
      Some (serverid row, channelid row, newTier,
            toLowerCase (genConversion (gen row)), stage row)
  | None => None
  end.

End Migrate.

(** ** The logging helpers ([unnamed/part_004], first part) *)

Module Logging.

Record embedField : Type := {
  name : string;
  value : string;
  inline : option bool
}.

(** What the code sets on an [EmbedBuilder]. *)
Record Embed : Type := {
  embedTitle : option string;
  embedDescription : option string;
  embedColor : option Z;
  embedURL : option string;
  embedImage : option string;
  embedFields : list embedField
}.

(** What [postLogEvent] calls and does not define: the checks of the
    two URL setters of the chat library, whether a post to a channel
    is delivered, and whether [errorHandler] (of [errorHandler.js])
    returns.  None of them is among the sources; they are parameters
    of the model.  A failed check and an undelivered post throw into
    the [catch] of the loop over the channels; [delivered i p] is asked
    for post number [p] of iteration [i] of that loop, and
    [handlerReturns i] for the handler call of iteration [i]. *)
Record World : Type := {
  validURL : string -> bool;
  validImageURL : string -> bool;
  delivered : nat -> nat -> bool;
  handlerReturns : nat -> bool
}.

(** The embed after [setURL(url).setImage(image)]. *)
Definition withURLImage (embed : Embed) (url image : string) : Embed :=
  {| embedTitle := embedTitle embed;
     embedDescription := embedDescription embed;
     embedColor := embedColor embed;
     embedURL := Some url;
     embedImage := Some image;
     embedFields := embedFields embed |}.

(** [embed.setURL(url).setImage(image)]; [None] when a setter throws. *)
Definition setURLImage (w : World) (embed : Embed) (url image : string)
  : option Embed :=
  if validURL w url && validImageURL w image
  then Some (withURLImage embed url image) else None.

(** The embed after [addFields(fs)]. *)
Definition withFields (embed : Embed) (fs : list embedField) : Embed :=
  {| embedTitle := embedTitle embed;
     embedDescription := embedDescription embed;
     embedColor := embedColor embed;
     embedURL := embedURL embed;
     embedImage := embedImage embed;
     embedFields := embedFields embed ++ fs |}.

(** The limits the library checks on a field: a name of 1 to 256 and a
    value of 1 to 1024 characters. *)
Definition fieldAccepted (f : embedField) : bool :=
  (1 <=? String.length (name f)) && (String.length (name f) <=? 256)
  && (1 <=? String.length (value f)) && (String.length (value f) <=? 1024).

(** [embed.addFields(fs)]: the library throws ([None]) when the embed
    would hold more than 25 fields or a field is outside the limits. *)
Definition addFields (embed : Embed) (fs : list embedField) : option Embed :=
  if (length (embedFields embed) + length fs <=? 25) && forallb fieldAccepted fs
  then Some (withFields embed fs) else None.

Inductive loggedEventTypes : Type :=
| Ban | Kick | Timeout | ModDelete | SelfDelete | Edit | Boost.

Record ILogChan : Type := {
  channelid : string;
  logtype : string
}.

(** The filter of [postLogEvent] (lines 76-91). *)
Definition targetChans (event : loggedEventTypes) (logchan : list ILogChan)
  : list ILogChan :=
  match event with
  | Ban | Kick | Timeout =>
      filter (fun row => arrIncludes (logtype row)
                           ["all"; "nonedits"; "modex"; "usertarget"]) logchan
  | ModDelete =>
      filter (fun row => arrIncludes (logtype row)
                           ["all"; "nonedits"; "modex"; "msgtarget"]) logchan
  | SelfDelete =>
      filter (fun row => arrIncludes (logtype row)
                           ["all"; "nonedits"; "userex"; "msgtarget"]) logchan
  | Edit =>
      filter (fun row => arrIncludes (logtype row)
                           ["all"; "edits"; "userex"; "msgtarget"]) logchan
  | Boost =>
      filter (fun row => arrIncludes (logtype row)
                           ["all"; "nonedits"; "userex"; "usertarget"]) logchan
  end.

(** The table in the comment above the filter (lines 67-75): the events
    each channel type is documented to receive. *)
Definition documented (logtype : string) : list loggedEventTypes :=
  if String.eqb logtype "all"
  then [Ban; Kick; Timeout; ModDelete; SelfDelete; Edit; Boost]
  else if String.eqb logtype "edits" then [Edit]
  else if String.eqb logtype "nonedits"
  then [Ban; Kick; Timeout; ModDelete; SelfDelete; Boost]
  else if String.eqb logtype "userex" then [SelfDelete; Edit; Boost]
  else if String.eqb logtype "modex" then [Kick; Ban; Timeout; ModDelete]
  else if String.eqb logtype "usertarget" then [Kick; Ban; Timeout; Boost]
  else if String.eqb logtype "msgtarget" then [ModDelete; SelfDelete; Edit]
  else [].

(** [arr.slice(from, to)] and [arr.slice(from)] *)
Definition slice {A : Type} (arr : list A) (from to : nat) : list A :=
  firstn (to - from) (skipn from arr).

Definition sliceFrom {A : Type} (arr : list A) (from : nat) : list A :=
  skipn from arr.

(** [urls.join(' ')] *)
Definition joinSpace (urls : list string) : string := String.concat " " urls.

Definition maxImages : nat := 4.

Definition attachmentsField (v : string) : embedField :=
  {| name := "Attachments"; value := v; inline := None |}.

Definition previewURL : string := "https://www.smogon.com/forums/".

(** [embedHolder.forEach((newEmbed, index) => embedHolder[index] =
    newEmbed.addFields(f))] (lines 128-132 and 145-149); [None] when a
    call throws. *)
Fixpoint addToEach (embedHolder : list Embed) (f : embedField)
  : option (list Embed) :=
  match embedHolder with
  | [] => Some []
  | newEmbed :: more =>
      match addFields newEmbed [f] with
      | Some e => option_map (cons e) (addToEach more f)
      | None => None
      end
  end.

(** The loop over the attachments of a deleted message (lines 119-152):
    [rest] is what is left of [attachmentArr], [send p] says whether
    post number [p] is delivered.  The result lists the [embeds] of the
    posts delivered, in order, and says whether the loop ran to its end
    ([false]: a call threw). *)
Fixpoint attachmentLoop (w : World) (send : nat -> bool) (embed : Embed)
         (attachmentArr rest : list string)
         (embedHolder : list Embed) (attCnt postCnt : nat)
  : list (list Embed) * bool :=
  match rest with
  | [] =>
      if negb (length embedHolder =? 0) then
        match addToEach embedHolder
                (attachmentsField
                   (joinSpace (sliceFrom attachmentArr (maxImages * postCnt)))) with
        | Some embeds => if send postCnt then ([embeds], true) else ([], false)
        | None => ([], false)
        end
      else ([], true)
  | attachment :: more =>
      match setURLImage w embed previewURL attachment with
      | None => ([], false)
      | Some attPreviewEmbed =>
          let embedHolder := embedHolder ++ [attPreviewEmbed] in
          let attCnt := attCnt + 1 in
          if attCnt =? maxImages then
            match addToEach embedHolder
                    (attachmentsField
                       (joinSpace (slice attachmentArr (maxImages * postCnt)
                                         (maxImages * (postCnt + 1))))) with
            | Some embeds =>
                if send postCnt then
                  let '(posts, ended) :=
                    attachmentLoop w send embed attachmentArr more [] 0 (postCnt + 1) in
                  (embeds :: posts, ended)
                else ([], false)
            | None => ([], false)
            end
          else attachmentLoop w send embed attachmentArr more embedHolder attCnt postCnt
      end
  end.

(** The image URLs of the embeds of a post. *)
Definition imagesOf (post : list Embed) : list string :=
  flat_map (fun e => match embedImage e with Some u => [u] | None => [] end) post.

(** The preview of one attachment, before its field is added. *)
Definition previewOf (embed : Embed) (u : string) : Embed :=
  withURLImage embed previewURL u.

(** Every embed of the post has the fields of [embed] and, last, an
    "Attachments" field that lists the images of the post. *)
Definition listsItsImages (embed : Embed) (post : list Embed) : Prop :=
  Forall (fun e => embedFields e
                   = embedFields embed
                     ++ [attachmentsField (joinSpace (imagesOf post))]) post.

(** The author or, from the audit log, the moderator who deleted a
    message: [User | string]. *)
Inductive Executor : Type :=
| ExUser (id tag : string)
| ExString (s : string).

(** The fields of a [Message] the helpers read; [attachments] holds the
    URLs, in the order of the collection. *)
Record Message : Type := {
  authorTag : string;
  authorId : string;
  channelId : string;
  content : string;
  attachments : list string
}.

(** The body of the [try] for one channel (lines 103-163): the [embeds]
    of each post delivered to the channel, and whether the body ran to
    its end. *)
Definition postsOf (w : World) (send : nat -> bool) (embed : Embed)
           (message : option Message) : list (list Embed) * bool :=
  match message with
  | Some m =>
      if 0 <? length (attachments m)
      then attachmentLoop w send embed (attachments m) (attachments m) [] 0 0
      else
        match addFields embed [attachmentsField "No Attachments"] with
        | Some e => if send 0 then ([[e]], true) else ([], false)
        | None => ([], false)
        end
  | None => if send 0 then ([[embed]], true) else ([], false)
  end.

(** The loop over the target channels (lines 95-169), from iteration
    [i] on.  A channel that does not resolve to a text channel or
    thread is passed over; what is thrown in the [try] goes to
    [errorHandler], and the loop goes on when that returns. *)
Fixpoint chanLoop (w : World) (ogEmbed : Embed) (client : Client)
         (message : option Message) (i : nat) (chans : list ILogChan)
  : list (string * list Embed) :=
  match chans with
  | [] => []
  | chan :: more =>
      if negb (isTextChannel (fetch client (channelid chan)))
      then chanLoop w ogEmbed client message (S i) more
      else
        let '(posts, ended) := postsOf w (delivered w i) ogEmbed message in
        map (fun embeds => (channelid chan, embeds)) posts
        ++ (if ended || handlerReturns w i
            then chanLoop w ogEmbed client message (S i) more
            else [])
  end.

(** [postLogEvent] (lines 60-173) on the rows [logchan] of the server:
    the posts delivered, as (channel id, embeds). *)
Definition postLogEvent (w : World) (ogEmbed : Embed) (client : Client)
           (logchan : list ILogChan)
           (event : loggedEventTypes) (message : option Message)
  : list (string * list Embed) :=
  if negb (length logchan =? 0)
  then chanLoop w ogEmbed client message 0 (targetChans event logchan)
  else [].

(** The checks of the library pass on everything the loop over the
    attachments builds: the fixed link and every attachment URL pass
    the setters, the embed has room for one more field, and the URLs
    of each post, joined, are a value within the limits. *)
Definition attachmentsPass (w : World) (embed : Embed) (attachmentArr : list string)
  : Prop :=
  validURL w previewURL = true
  /\ Forall (fun u => validImageURL w u = true) attachmentArr
  /\ length (embedFields embed) < 25
  /\ forall p, maxImages * p < length attachmentArr ->
       1 <= String.length
              (joinSpace (slice attachmentArr (maxImages * p) (maxImages * (p + 1))))
         <= 1024.

Definition messagePasses (w : World) (embed : Embed) (message : option Message)
  : Prop :=
  match message with
  | Some m => attachmentsPass w embed (attachments m)
  | None => True
  end.

(** [buildMsgDeleteEmbedParams] (lines 200-252). *)
Definition buildMsgDeleteEmbedParams (executor : Executor) (message : Message)
  : string * string * Z * list embedField :=
  let title := "Message Deleted" in
  let description : string :=
    (match executor with
     | ExString s =>
         if String.eqb s "Self"
         then authorTag message ++ " deleted their own message."
         else ""
     | ExUser _ tag =>
         authorTag message ++ "'s message was deleted by " ++ tag ++ "."
     end)%string in
  let color := 39423%Z in
  let executorOut : string :=
    (match executor with
     | ExUser id _ => "<@" ++ id ++ ">"
     | ExString s => s
     end)%string in
  let contentFieldVal :=
    if truthy (Some (content message)) then
      if 1024 <? String.length (content message)
      then "Message too long to output."
      else content message
    else "No text" in
  (title, description, color,
   [ {| name := "Content"; value := contentFieldVal; inline := None |};
     {| name := "Author";
        value := ("<@" ++ authorId message ++ ">")%string; inline := Some true |};
     {| name := "Channel";
        value := ("<#" ++ channelId message ++ ">")%string; inline := Some true |};
     {| name := "Deleted By"; value := executorOut; inline := None |} ]).

End Logging.

(** ** The support tickets: [/config tickets] and [createTicket]
    ([src/commands/config.ts], [unnamed/part_006]) *)

Module Tickets.

(** A row of [chatot.tickets]; its primary key is (serverid, staffid). *)
Record row : Type := {
  serverid : string;
  messageid : string;
  threadchanid : string;
  staffid : string;
  logchanid : option string
}.

(** [[...new Set(arr)]]: the first occurrences, in order. *)
Fixpoint uniqueFrom (seen arr : list string) : list string :=
  match arr with
  | [] => []
  | x :: more =>
      if arrIncludes x seen then uniqueFrom seen more
      else x :: uniqueFrom (seen ++ [x]) more
  end.

Definition unique (arr : list string) : list string := uniqueFrom [] arr.

(** Lines 592-599 of the command: the ids of the roles given, without
    repeats, or the dummy ['-']. *)
Definition staffRoles (staffRole staff2 staff3 : option string) : list string :=
  let given :=
    flat_map (fun role => match role with Some id => [id] | None => [] end)
             [staffRole; staff2; staff3] in
  let staffRoles := unique given in
  if length staffRoles =? 0 then ["-"] else staffRoles.

(** The transaction of the command (lines 647-655): the rows of the
    server are deleted, one row per staff id is inserted. *)
Definition saveTickets (table : list row) (guildId msgId threadChannelId : string)
           (staffRoles : list string) (logchan : option string) : list row :=
  filter (fun r => negb (String.eqb (serverid r) guildId)) table
  ++ map (fun s => {| serverid := guildId; messageid := msgId;
                      threadchanid := threadChannelId; staffid := s;
                      logchanid := logchan |}) staffRoles.

(** [SELECT ... FROM chatot.tickets WHERE messageid=$1] of
    [createTicket]. *)
Definition threadSetup (table : list row) (messageId : string) : list row :=
  filter (fun r => String.eqb (messageid r) messageId) table.

Definition ping (staffid : string) : string := ("<@&" ++ staffid ++ ">")%string.

(** The roles [createTicket] pings (lines 70-81). *)
Definition staffPings (threadSetup : list row) : list string :=
  let staffPings :=
    flat_map (fun staffrow =>
                if negb (String.eqb (staffid staffrow) "-")
                then [ping (staffid staffrow)] else [])
             threadSetup in
  if length staffPings =? 0 then ["staff"] else staffPings.

Definition key (r : row) : string * string := (serverid r, staffid r).

End Tickets.

(** ** The environment: [src/config.ts] *)

Module Env.

(** A value of the [ENV] object: a string, the number [parseInt(s, 10)]
    (never [undefined], whatever [s] is), or [undefined]. *)
Inductive value : Type :=
| Str (s : string)
| ParseInt (s : string)
| Undefined.

(** [process.env.KEY] *)
Definition ofEnv (v : option string) : value :=
  match v with Some s => Str s | None => Undefined end.

(** [process.env.KEY || ''] *)
Definition orEmpty (v : option string) : string :=
  match v with
  | Some s => if truthy v then s else ""
  | None => ""
  end.

(** [getConfig] (lines 83-102): the entries of the object, in the order
    [Object.entries] lists them. *)
Definition getConfig (env : string -> option string) : list (string * value) :=
  [ ("TOKEN", ofEnv (env "TOKEN"));
    ("CLIENT_ID", ofEnv (env "CLIENT_ID"));
    ("GUILD_ID", ofEnv (env "GUILD_ID"));
    ("PGUSER", ofEnv (env "PGUSER"));
    ("PGPASSWORD", Str (orEmpty (env "PGPASSWORD")));
    ("PGHOST", ofEnv (env "PGHOST"));
    ("PGPORT", ParseInt (orEmpty (env "PGPORT")));
    ("PGDATABASE", ofEnv (env "PGDATABASE"));
    ("SQLUSER", ofEnv (env "SQLUSER"));
    ("SQLPASSWORD", Str (orEmpty (env "SQLPASSWORD")));
    ("SQLHOST", Str (orEmpty (env "SQLHOST")));
    ("SQLPORT", ParseInt (orEmpty (env "SQLPORT")));
    ("SQLDATABASE", ofEnv (env "SQLDATABASE"));
    ("SQLSOCKETPATH", Str (orEmpty (env "SQLSOCKETPATH")));
    ("INTERNAL_DATA_PATH", ofEnv (env "INTERNAL_DATA_PATH")) ].

(** The loop of [getSanitzedConfig] (lines 114-125): the message of the
    error thrown at the first [undefined] entry, if any. *)
Fixpoint firstMissing (entries : list (string * value)) : option string :=
  match entries with
  | [] => None
  | (key, v) :: more =>
      match v with
      | Undefined => Some ("Missing key " ++ key ++ " in .env")%string
      | _ => firstMissing more
      end
  end.

(** [getSanitzedConfig]: the configuration, or the message of the
    error. *)
Definition getSanitzedConfig (config : list (string * value))
  : string + list (string * value) :=
  match firstMissing config with
  | Some msg => inl msg
  | None => inr config
  end.

(** The variables without a default: those [getConfig] reads with
    neither [|| ''] nor [parseInt]. *)
Definition required : list string :=
  ["TOKEN"; "CLIENT_ID"; "GUILD_ID"; "PGUSER"; "PGHOST"; "PGDATABASE";
   "SQLUSER"; "SQLDATABASE"; "INTERNAL_DATA_PATH"].

End Env.

(** ** The rater list: [removerater] ([unnamed/part_003]) *)

Module Raters.

(** [arr.indexOf(x)]; -1 when [x] is absent. *)
Fixpoint indexOfFrom (i : Z) (arr : list string) (x : string) : Z :=
  match arr with
  | [] => (-1)%Z
  | y :: more => if String.eqb y x then i else indexOfFrom (i + 1) more x
  end.

Definition indexOf (arr : list string) (x : string) : Z := indexOfFrom 0 arr x.

(** The array after [arr.splice(start, 1)]; a negative [start] counts
    from the end. *)
Definition splice1 (arr : list string) (start : Z) : list string :=
  let len := Z.of_nat (length arr) in
  let actualStart :=
    if (start <? 0)%Z then Z.max (len + start) 0 else Z.min start len in
  firstn (Z.to_nat actualStart) arr ++ skipn (Z.to_nat actualStart + 1) arr.

(** The removal of a user from the list of one meta (lines 64-76);
    [None]: the user is not in the list and nothing is written. *)
Definition removeRater (currentRaters : list string) (userId : string)
  : option (list string) :=
  if negb (arrIncludes userId currentRaters) then None
  else Some (splice1 currentRaters (indexOf currentRaters userId)).

End Raters.

(** ** Custom commands: the [messageCreate] handler ([unnamed/part_007]) *)

Module CustomCommands.

(** A row of the cache [dbmatches]. *)
Record dbmatch : Type := {
  serverid : string;
  cmd : string;
  txt : string;
  prefix : string
}.

(** [arr.findIndex(p)]; -1 when no element satisfies [p]. *)
Fixpoint findIndexFrom {A : Type} (i : Z) (p : A -> bool) (arr : list A) : Z :=
  match arr with
  | [] => (-1)%Z
  | y :: more => if p y then i else findIndexFrom (i + 1) p more
  end.

Definition findIndex {A : Type} (p : A -> bool) (arr : list A) : Z :=
  findIndexFrom 0 p arr.

(** [arr[i]] for an integer [i]; [None] is [undefined]. *)
Definition atZ {A : Type} (arr : list A) (i : Z) : option A :=
  if (i <? 0)%Z then None else nth_error arr (Z.to_nat i).

(** The custom-command step of the handler (lines 159-171): the text
    posted, if the message is a command of the server. *)
Definition customCommand (dbmatches : list dbmatch) (guildId content : string)
  : res (option string) :=
  let serverRows :=
    filter (fun row => String.eqb (serverid row) guildId) dbmatches in
  let serverCommands := map (fun r => (prefix r ++ cmd r)%string) serverRows in
  if existsb (fun c => String.eqb content c) serverCommands then
    let index := findIndex (fun c => String.eqb c content) serverCommands in
    row <- defined "txt" (atZ serverRows index) ;;
    Ok (Some (txt row))
  else Ok None.

End CustomCommands.

(** ** Subscribing a channel: [/config cc add]
    ([src/commands/config.ts]) *)

Module CCPrefs.

(** A row of [chatot.ccprefs]; its primary key is (serverid, channelid,
    tier, gen, stage). *)
Record row : Type := {
  serverid : string;
  channelid : string;
  tier : string;
  role : option string;
  gen : string;
  stage : string;
  cooldown : option Z;
  prefix : option string
}.

Definition key (r : row) : string * string * string * string * string :=
  (serverid r, channelid r, tier r, gen r, stage r).

(** [serverid=$1 AND channelid=$2 AND tier=$3 AND gen=$4] *)
Definition sameSub (guildId channelId tier' gen' : string) (r : row) : bool :=
  String.eqb (serverid r) guildId && String.eqb (channelid r) channelId
  && String.eqb (tier r) tier' && String.eqb (gen r) gen'.

(** The conflict target of the upsert. *)
Definition sameKey (r1 r2 : row) : bool :=
  sameSub (serverid r2) (channelid r2) (tier r2) (gen r2) r1
  && String.eqb (stage r1) (stage r2).

Definition standardPrefixes : list string :=
  ["wip"; "resource"; "announcement"; "quality control"; "copyediting";
   "done"; "project"].

Section Add.

(** [validateAutocomplete(tier, modifiedDexFormats)] and
    [validateAutocomplete(gen, dexGens)], whose tables are not among
    the sources. *)
Variable validTier validGen : string -> bool.

(** The subcommand [cc add] (lines 442-533) on the table, with the tier
    and the generation already mapped to their aliases; [None]: the
    input is refused and the table is left as it is. *)
Definition ccAdd (table : list row) (guildId channelId tier' : string)
           (role' : option string) (gen' : string) (stageOption : option string)
           (cooldown' : option Z) (tierprefix : option string)
  : option (list row) :=
  let stage' := match stageOption with Some s => s | None => "all" end in
  let prefix' := option_map toLowerCase tierprefix in
  if truthy prefix'
     && match prefix' with
        | Some p => arrIncludes p standardPrefixes
        | None => false
        end
  then None
  else if negb (validTier tier') then None
  else if negb (validGen gen') then None
  else
    let newRow :=
      {| serverid := guildId; channelid := channelId; tier := tier';
         role := role'; gen := gen'; stage := stage'; cooldown := cooldown';
         prefix := prefix' |} in
    if String.eqb stage' "all" then
      Some (filter (fun r => negb (sameSub guildId channelId tier' gen' r)) table
            ++ [newRow])
    else
      let kept :=
        filter (fun r => negb (sameSub guildId channelId tier' gen' r
                               && String.eqb (stage r) "all")) table in
      Some (if existsb (fun r => sameKey r newRow) kept
            then map (fun r => if sameKey r newRow then newRow else r) kept
            else kept ++ [newRow]).

End Add.

(** The stage "all" excludes the other stages: among the rows of one
    channel, tier and generation, a row of stage "all" is alone. *)
Definition exclusive (table : list row) : Prop :=
  forall r1 r2,
    In r1 table -> In r2 table ->
    sameSub (serverid r1) (channelid r1) (tier r1) (gen r1) r2 = true ->
    stage r1 = "all"%string -> stage r2 = "all"%string.

End CCPrefs.

(** ** Vocabulary of the further statements *)

(** A trace of diagnostic posts only. *)
Definition onlyDiag (tr : list event) : bool :=
  forallb (fun e => match e with DevSend _ => true | _ => false end) tr.

(** The progress of the first match of the title tagged [name], spaces
    removed; empty when no match carries the tag. *)
Definition firstProgress (name title : string) : string :=
  match filter (Workers.tagged name) (Workers.progressions title) with
  | [] => ""
  | m :: _ => match at_ 2 m with Some g => removeSpaces g | None => "" end
  end.

(** The character is, in either case, the first letter of one of the
    words of the generation pattern (Gen, SV, USUM, ORAS, XY, BW, HGSS,
    DPP, RSE, ADV, GSC, ...). *)
Definition startsGeneration (c : ascii) : bool :=
  existsb (Ascii.eqb (canonicalize c))
          ["G"; "S"; "U"; "O"; "X"; "B"; "H"; "D"; "R"; "A"]%char.

(** The thread id of a classified thread. *)
Definition idOf (d : IXFParsedThreadData) : Z := thread_id (thread d).

(** The cache and the subscriptions after the effects of a trace. *)
Definition dbAfter (db : DB) (tr : list event) : DB :=
  {| ccstatus := applyTrace (ccstatus db) tr; ccprefs := ccprefs db |}.

(** A thread of a section that is not in the table. *)
Definition thread_elsewhere : IXFStatusQuery :=
  {| thread_id := 106; node_id := 999;
     title := "Zapdos [QC 1/2]"; phrase_text := None |}.

Definition thread_gp_1_2 : IXFStatusQuery :=
  {| thread_id := 107; node_id := 758;
     title := "Zapdos [GP 1/2]"; phrase_text := None |}.

Definition thread_two_qc : IXFStatusQuery :=
  {| thread_id := 108; node_id := 758;
     title := "Zapdos [QC 1/2] [QC 2/2]"; phrase_text := None |}.

Definition thread_qc_tag_gp_title : IXFStatusQuery :=
  {| thread_id := 109; node_id := 758;
     title := "Zapdos [GP 1/2]"; phrase_text := Some "Quality Control" |}.

Definition thread_done_tag : IXFStatusQuery :=
  {| thread_id := 110; node_id := 758;
     title := "Zapdos"; phrase_text := Some "Done" |}.

(** A subscription whose tier is not in lower case. *)
Definition subOUupper : AlertChan.t :=
  {| AlertChan.serverid := "192713314399289344";
     AlertChan.channelid := chanA;
     AlertChan.tier := "OU";
     AlertChan.role := None;
     AlertChan.gen := "9" |}.

(** ** The generation words of the title pattern *)

(** The words of the second alternative of the generation pattern. *)
Definition genWords : list string :=
  ["SV"; "SWSH"; "SS"; "USUM"; "USM"; "SM"; "ORAS"; "XY";
   "B2W2"; "BW2"; "BW"; "HGSS"; "DPP"; "DP"; "RSE"; "RS";
   "ADV"; "GSC"; "GS"; "RBY"; "RB"].

(** What the pattern can hand to the [gens] table: a digit from 1 to 9
    (group 3) or one of its words (group 4), in lower case. *)
Definition genTokens : list string :=
  ["1"; "2"; "3"; "4"; "5"; "6"; "7"; "8"; "9"] ++ map toLowerCase genWords.

(** [matchArr[3] || matchArr[4]] *)
Definition genToken (c : jsmatch) : option string :=
  if truthy (at_ 3 c) then at_ 3 c else at_ 4 c.

(** Captures of the generation pattern after at least one iteration:
    the token read is one of [genTokens], in either case. *)
Definition genCapturedIn (c : jsmatch) : Prop :=
  length c = 5 /\ exists w, genToken c = Some w /\ In (toLowerCase w) genTokens.

(** Every character that matches [c] under the [i] flag has the lower
    case of [c]. *)
Definition foldsAlike (c : ascii) : bool :=
  forallb (fun n => let x := ascii_of_nat n in
                    implb (ci c x) (Ascii.eqb (lowerChar x) (lowerChar c)))
          (seq 0 256).

(** The [gens] table has an entry for every token the pattern can
    read. *)
Definition definesGenerations (K : Constants) : Prop :=
  Forall (fun k => @gens K k <> None) genTokens.

(** Section 770, the title starts with a generation word. *)
Definition thread_770_sv : IXFStatusQuery :=
  {| thread_id := 107; node_id := 770;
     title := "SV Zapdos [QC 1/2]"; phrase_text := None |}.

(** ** Sample inputs of the logging helpers *)

(** Every link over https passes the setters, every post is delivered,
    the error handler returns. *)
Definition worldOK : Logging.World :=
  {| Logging.validURL := String.prefix "https://";
     Logging.validImageURL := String.prefix "https://";
     Logging.delivered := fun _ _ => true;
     Logging.handlerReturns := fun _ => true |}.

Definition fiveImages : list string :=
  ["https://cdn.discordapp.com/attachments/1/1/a.png";
   "https://cdn.discordapp.com/attachments/1/2/b.png";
   "https://cdn.discordapp.com/attachments/1/3/c.png";
   "https://cdn.discordapp.com/attachments/1/4/d.png";
   "https://cdn.discordapp.com/attachments/1/5/e.png"].

Definition messageDeleted : Logging.Message :=
  {| Logging.authorTag := "zapdos";
     Logging.authorId := "211";
     Logging.channelId := "630";
     Logging.content := "roost";
     Logging.attachments := fiveImages |}.

(** The embed [buildEmbed] makes of [buildMsgDeleteEmbedParams] for a
    message deleted by its author. *)
Definition embedDeleted : Logging.Embed :=
  let '(title, description, color, fields) :=
    Logging.buildMsgDeleteEmbedParams (Logging.ExString "Self") messageDeleted in
  {| Logging.embedTitle := Some title;
     Logging.embedDescription := Some description;
     Logging.embedColor := Some color;
     Logging.embedURL := None;
     Logging.embedImage := None;
     Logging.embedFields := fields |}.

(** Two log channels of one server: [chanA] takes what moderators do,
    the other one the edits. *)
Definition logchanA : list Logging.ILogChan :=
  [ {| Logging.channelid := chanA; Logging.logtype := "modex" |};
    {| Logging.channelid := "1040378543626002445"; Logging.logtype := "edits" |} ].

(** The goal of an iteration in which a call threw: nothing was posted. *)
Ltac thrown :=
  cbn [fst snd concat map];
  split; [now exists 0|]; split; [constructor|]; split; [constructor|discriminate].

(** * Properties *)

(** ** Strings *)

Lemma length_append (a b : string) :
  String.length (a ++ b) = String.length a + String.length b.
Proof. induction a as [|c a IH]; simpl; [reflexivity | now rewrite IH]. Qed.

Lemma substring_prefix (a b : string) :
  substring 0 (String.length a) (a ++ b) = a.
Proof.
  induction a as [|c a IH]; simpl.
  - destruct b; reflexivity.
  - now rewrite IH.
Qed.

Lemma append_assoc (a b c : string) : ((a ++ b) ++ c)%string = (a ++ (b ++ c))%string.
Proof. induction a as [|x a IH]; simpl; [reflexivity | now rewrite IH]. Qed.

(** ** The matcher *)

Lemma clearGroups_nil (st : mstate) : clearGroups [] st = st.
Proof. destruct st; reflexivity. Qed.

Lemma run_Chr_inv (p : ascii -> bool) (st st' : mstate) :
  In st' (run (Chr p) st) ->
  exists c, rest st = String c (rest st') /\ p c = true /\ caps st' = caps st.
Proof.
  simpl. destruct (rest st) as [|c s] eqn:E; [intros []|].
  destruct (p c) eqn:Hp; [|intros []].
  intros [<-|[]]. exists c. simpl. auto.
Qed.

(** An optional single character: either nothing is consumed or one
    character satisfying [p]. *)
Lemma run_Quest_Chr_inv (p : ascii -> bool) (st st' : mstate) :
  In st' (run (Quest (Chr p)) st) ->
  (rest st = rest st' \/ exists c, rest st = String c (rest st') /\ p c = true)
  /\ caps st' = caps st.
Proof.
  cbn [run repeatUpto groups]. rewrite clearGroups_nil.
  intros H. apply in_app_or in H. destruct H as [H|[<-|[]]]; [|auto].
  apply in_flat_map in H. destruct H as (st1 & H1 & H2).
  destruct (advanced st st1); [|destruct H2].
  destruct H2 as [<-|[]].
  apply run_Chr_inv in H1. destruct H1 as (c & E & Hp & Hc).
  split; [right; eauto | assumption].
Qed.

(** Every match that [matchAll] or [match] reports is the outcome of one
    attempt at some position. *)
Lemma matchAllFrom_inv (r : regex) (n : nat) (m : jsmatch) :
  forall s skip p,
    In m (matchAllFrom r n skip p s) ->
    exists p' s' len, execAt r n p' s' = Some (m, len).
Proof.
  induction s as [|c s IH]; intros skip p H.
  - simpl in H. destruct skip; [|destruct H].
    destruct (execAt r n p "") as [[m' len]|] eqn:E; [|destruct H].
    destruct H as [<-|[]]. eauto.
  - cbn [matchAllFrom] in H. destruct skip.
    + destruct (execAt r n p (String c s)) as [[m' len]|] eqn:E.
      * destruct H as [<-|H]; eauto.
      * eauto.
    + eauto.
Qed.

Lemma searchFrom_inv (r : regex) (n : nat) (m : jsmatch) :
  forall s p,
    searchFrom r n p s = Some m ->
    exists p' s' len, execAt r n p' s' = Some (m, len).
Proof.
  induction s as [|c s IH]; intros p H; cbn [searchFrom] in H.
  - destruct (execAt r n p "") as [[m' len]|] eqn:E; [|discriminate].
    injection H as <-. eauto.
  - destruct (execAt r n p (String c s)) as [[m' len]|] eqn:E.
    + injection H as <-. eauto.
    + eauto.
Qed.

(** *** The numeric group [\d\s?\/\s?\d] *)

Lemma ci_slash (c : ascii) : ci "/" c = true -> c = "/"%char.
Proof.
  destruct c as [[] [] [] [] [] [] [] []]; vm_compute; (discriminate || reflexivity).
Qed.

Lemma run_numericRE_inv (st st' : mstate) :
  In st' (run numericRE st) ->
  exists a b g,
    numericShape g a b /\ rest st = (g ++ rest st')%string /\ caps st' = caps st.
Proof.
  unfold numericRE. cbn [run lit].
  intros H.
  apply in_flat_map in H. destruct H as (s1 & H1 & H).
  apply in_flat_map in H. destruct H as (s2 & H2 & H).
  apply in_flat_map in H. destruct H as (s3 & H3 & H).
  apply in_flat_map in H. destruct H as (s4 & H4 & H5).
  apply run_Chr_inv in H1. destruct H1 as (a & E1 & Da & C1).
  apply (run_Quest_Chr_inv isSpace) in H2. destruct H2 as (W1 & C2).
  apply run_Chr_inv in H3. destruct H3 as (sl & E3 & Dsl & C3).
  apply (run_Quest_Chr_inv isSpace) in H4. destruct H4 as (W2 & C4).
  apply run_Chr_inv in H5. destruct H5 as (b & E5 & Db & C5).
  apply ci_slash in Dsl. subst sl.
  assert (exists w1, optSpace w1 /\ rest s1 = (w1 ++ rest s2)%string) as (w1 & O1 & R1).
  { destruct W1 as [W|(c & W & Hc)].
    - exists ""%string. split; [now left | exact W].
    - exists (String c ""). split; [right; eauto | exact W]. }
  assert (exists w2, optSpace w2 /\ rest s3 = (w2 ++ rest s4)%string) as (w2 & O2 & R2).
  { destruct W2 as [W|(c & W & Hc)].
    - exists ""%string. split; [now left | exact W].
    - exists (String c ""). split; [right; eauto | exact W]. }
  exists a, b, (String a (w1 ++ String "/" (w2 ++ String b ""))).
  split; [exists w1, w2; auto|].
  split.
  - rewrite E1, R1, E3, R2, E5. simpl. f_equal.
    rewrite append_assoc. simpl. f_equal. f_equal.
    rewrite append_assoc. reflexivity.
  - congruence.
Qed.

(** *** Matches consume a prefix of the input and keep the number of
    groups *)

Lemma repeatUpto_suffix (body : mstate -> list mstate) (gs : list nat) :
  (forall st st', In st' (body st) -> exists g, rest st = (g ++ rest st')%string) ->
  forall n st st',
    In st' (repeatUpto body gs n st) -> exists g, rest st = (g ++ rest st')%string.
Proof.
  intros Hbody. induction n as [|n IH]; intros st st' H; simpl in H.
  - destruct H as [<-|[]]. now exists ""%string.
  - apply in_app_or in H. destruct H as [H|[<-|[]]]; [|now exists ""%string].
    apply in_flat_map in H. destruct H as (s1 & H1 & H2).
    destruct (advanced st s1); [|destruct H2].
    apply Hbody in H1. destruct H1 as (g1 & E1). simpl in E1.
    apply IH in H2. destruct H2 as (g2 & E2).
    exists (g1 ++ g2)%string. rewrite E1, E2. now rewrite append_assoc.
Qed.

Lemma run_suffix (r : regex) :
  forall st st', In st' (run r st) -> exists g, rest st = (g ++ rest st')%string.
Proof.
  induction r as [p| | |r1 IH1 r2 IH2|r1 IH1 r2 IH2|r IH|n r IH|r IH|i r IH];
    intros st st' H.
  - apply run_Chr_inv in H. destruct H as (c & E & _). exists (String c ""). exact E.
  - simpl in H. destruct (xorb _ _); [|destruct H].
    destruct H as [<-|[]]. now exists ""%string.
  - destruct H as [<-|[]]. now exists ""%string.
  - simpl in H. apply in_flat_map in H. destruct H as (s1 & H1 & H2).
    apply IH1 in H1. apply IH2 in H2. destruct H1 as (g1 & E1), H2 as (g2 & E2).
    exists (g1 ++ g2)%string. rewrite E1, E2. now rewrite append_assoc.
  - simpl in H. apply in_app_or in H. destruct H as [H|H]; eauto.
  - cbn [run] in H. exact (repeatUpto_suffix (run r) (groups r) IH _ _ _ H).
  - cbn [run] in H. exact (repeatUpto_suffix (run r) (groups r) IH _ _ _ H).
  - cbn [run] in H. exact (repeatUpto_suffix (run r) (groups r) IH _ _ _ H).
  - simpl in H. apply in_map_iff in H. destruct H as (s1 & <- & H1).
    simpl. eauto.
Qed.

Lemma consumed_suffix (st st' : mstate) (g : string) :
  rest st = (g ++ rest st')%string -> consumed st st' = g.
Proof.
  intros E. unfold consumed. rewrite E, length_append.
  replace (String.length g + String.length (rest st') - String.length (rest st'))
    with (String.length g) by lia.
  apply substring_prefix.
Qed.

Lemma setNth_length (i : nat) (v : option string) (l : jsmatch) :
  length (setNth i v l) = length l.
Proof.
  revert i; induction l as [|x l IH]; intros [|i]; simpl; auto.
Qed.

Lemma clearGroups_length (gs : list nat) (st : mstate) :
  length (caps (clearGroups gs st)) = length (caps st).
Proof.
  unfold clearGroups; simpl. induction gs as [|g gs IH]; simpl; [reflexivity|].
  now rewrite setNth_length.
Qed.

Lemma repeatUpto_caps_length (body : mstate -> list mstate) (gs : list nat) :
  (forall st st', In st' (body st) -> length (caps st') = length (caps st)) ->
  forall n st st',
    In st' (repeatUpto body gs n st) -> length (caps st') = length (caps st).
Proof.
  intros Hbody. induction n as [|n IH]; intros st st' H; simpl in H.
  - now destruct H as [<-|[]].
  - apply in_app_or in H. destruct H as [H|[<-|[]]]; [|reflexivity].
    apply in_flat_map in H. destruct H as (s1 & H1 & H2).
    destruct (advanced st s1); [|destruct H2].
    apply Hbody in H1. apply IH in H2.
    rewrite H2, H1. apply clearGroups_length.
Qed.

Lemma run_caps_length (r : regex) :
  forall st st', In st' (run r st) -> length (caps st') = length (caps st).
Proof.
  induction r as [p| | |r1 IH1 r2 IH2|r1 IH1 r2 IH2|r IH|n r IH|r IH|i r IH];
    intros st st' H.
  - apply run_Chr_inv in H. now destruct H as (c & _ & _ & ->).
  - simpl in H. destruct (xorb _ _); [|destruct H]. now destruct H as [<-|[]].
  - now destruct H as [<-|[]].
  - simpl in H. apply in_flat_map in H. destruct H as (s1 & H1 & H2).
    apply IH1 in H1. apply IH2 in H2. congruence.
  - simpl in H. apply in_app_or in H. destruct H as [H|H]; eauto.
  - cbn [run] in H. exact (repeatUpto_caps_length (run r) (groups r) IH _ _ _ H).
  - cbn [run] in H. exact (repeatUpto_caps_length (run r) (groups r) IH _ _ _ H).
  - cbn [run] in H. exact (repeatUpto_caps_length (run r) (groups r) IH _ _ _ H).
  - simpl in H. apply in_map_iff in H. destruct H as (s1 & <- & H1).
    simpl. rewrite setNth_length. eauto.
Qed.

(** A repetition without groups inside leaves the captures alone. *)
Lemma repeatUpto_caps (body : mstate -> list mstate) :
  (forall st st', In st' (body st) -> caps st' = caps st) ->
  forall n st st', In st' (repeatUpto body [] n st) -> caps st' = caps st.
Proof.
  intros Hbody. induction n as [|n IH]; intros st st' H; simpl in H.
  - now destruct H as [<-|[]].
  - apply in_app_or in H. destruct H as [H|[<-|[]]]; [|reflexivity].
    apply in_flat_map in H. destruct H as (s1 & H1 & H2).
    destruct (advanced st s1); [|destruct H2].
    apply Hbody in H1. apply IH in H2.
    rewrite H2, H1. now rewrite clearGroups_nil.
Qed.

(** *** The progress pattern *)

Lemma toLowerCase_length (s : string) :
  String.length (toLowerCase s) = String.length s.
Proof. induction s as [|c s IH]; simpl; congruence. Qed.

Lemma ci_lower_Q (c : ascii) : ci "Q" c = true -> lowerChar c = "q"%char.
Proof.
  destruct c as [[] [] [] [] [] [] [] []]; vm_compute; (discriminate || reflexivity).
Qed.

Lemma ci_lower_C (c : ascii) : ci "C" c = true -> lowerChar c = "c"%char.
Proof.
  destruct c as [[] [] [] [] [] [] [] []]; vm_compute; (discriminate || reflexivity).
Qed.

Lemma ci_lower_G (c : ascii) : ci "G" c = true -> lowerChar c = "g"%char.
Proof.
  destruct c as [[] [] [] [] [] [] [] []]; vm_compute; (discriminate || reflexivity).
Qed.

Lemma ci_lower_P (c : ascii) : ci "P" c = true -> lowerChar c = "p"%char.
Proof.
  destruct c as [[] [] [] [] [] [] [] []]; vm_compute; (discriminate || reflexivity).
Qed.

Lemma run_stageName_inv (st st' : mstate) :
  In st' (run (Alt (lit "QC") (lit "GP")) st) ->
  exists g1, rest st = (g1 ++ rest st')%string /\ caps st' = caps st /\
             String.length g1 = 2 /\
             (toLowerCase g1 = "qc" \/ toLowerCase g1 = "gp").
Proof.
  cbn [run lit]. intros H. apply in_app_or in H.
  destruct H as [H|H]; apply in_flat_map in H; destruct H as (s1 & H1 & H2);
    apply run_Chr_inv in H1; destruct H1 as (c1 & E1 & P1 & C1);
    apply run_Chr_inv in H2; destruct H2 as (c2 & E2 & P2 & C2);
    exists (String c1 (String c2 ""));
    (split; [rewrite E1, E2; reflexivity|]);
    (split; [congruence|]); (split; [reflexivity|]); simpl.
  - left. now rewrite (ci_lower_Q _ P1), (ci_lower_C _ P2).
  - right. now rewrite (ci_lower_G _ P1), (ci_lower_P _ P2).
Qed.

Lemma run_Cat_inv (r1 r2 : regex) (st st' : mstate) :
  In st' (run (Cat r1 r2) st) ->
  exists s1, In s1 (run r1 st) /\ In st' (run r2 s1).
Proof. cbn [run]. intros H. apply in_flat_map in H. exact H. Qed.

Lemma run_Grp_inv (i : nat) (r : regex) (st st' : mstate) :
  In st' (run (Grp i r) st) ->
  exists s1, In s1 (run r st) /\
             st' = MState (prev s1) (rest s1)
                          (setNth i (Some (consumed st s1)) (caps s1)).
Proof.
  cbn [run]. intros H. apply in_map_iff in H.
  destruct H as (s1 & <- & H). eauto.
Qed.

Lemma run_dots_inv (n : nat) (st st' : mstate) :
  In st' (run (Upto n (Chr isDot)) st) ->
  caps st' = caps st /\ exists w, rest st = (w ++ rest st')%string.
Proof.
  intros H. split; [|exact (run_suffix _ _ _ H)].
  cbn [run groups] in H.
  apply (repeatUpto_caps (run (Chr isDot))) with (n := n); [|exact H].
  intros x y Hxy. apply run_Chr_inv in Hxy. now destruct Hxy as (? & _ & _ & ->).
Qed.

Lemma append_cancel_r (x y z : string) :
  (x ++ z)%string = (y ++ z)%string -> x = y.
Proof.
  intros E.
  assert (L : String.length x = String.length y).
  { apply (f_equal String.length) in E. rewrite !length_append in E. lia. }
  revert y E L. induction x as [|c x IH]; intros [|d y] E L;
    simpl in *; try discriminate; auto.
  injection E as <- E. f_equal. apply IH; auto.
Qed.

Lemma execAt_progressRE_inv (p : option ascii) (s : string) (m : jsmatch) (len : nat) :
  execAt progressRE 2 p s = Some (m, len) ->
  exists g1 g2 a b, progressMatch m g1 g2 a b.
Proof.
  unfold execAt.
  set (st0 := MState p s (repeat None 3)).
  destruct (run progressRE st0) as [|st' l] eqn:E; [discriminate|].
  intros H. injection H as <- _.
  assert (Hin : In st' (run progressRE st0)) by (rewrite E; now left).
  pose proof (run_suffix progressRE st0 st' Hin) as (full & Efull).
  clear E. unfold progressRE in Hin.
  apply run_Cat_inv in Hin. destruct Hin as (s1 & H1 & Hin).
  apply run_Cat_inv in Hin. destruct Hin as (s2 & H2 & H3).
  apply run_Grp_inv in H1. destruct H1 as (s1' & H1 & ->).
  apply run_stageName_inv in H1. destruct H1 as (g1 & E1 & C1 & L1 & T1).
  apply run_dots_inv in H2. destruct H2 as (C2 & w & S2).
  apply run_Grp_inv in H3. destruct H3 as (s3 & H3 & ->).
  apply run_numericRE_inv in H3. destruct H3 as (a & b & g2 & Sh & E3 & C3).
  cbn [caps rest prev] in *.
  rewrite (@consumed_suffix st0 s1' _ E1) in C2.
  rewrite (@consumed_suffix s2 s3 _ E3).
  rewrite (@consumed_suffix st0 (MState (prev s3) (rest s3)
             (setNth 2 (Some g2) (caps s3))) _ Efull).
  rewrite C3, C2, C1. cbn.
  exists g1, g2, a, b, full.
  split; [reflexivity|].
  split; [|auto].
  assert (full = (g1 ++ (w ++ g2))%string) as ->.
  { rewrite E1, S2, E3 in Efull.
    rewrite <- !append_assoc in Efull.
    apply append_cancel_r in Efull. rewrite <- Efull.
    now rewrite append_assoc. }
  rewrite !length_append, L1.
  destruct Sh as (w1 & w2 & -> & _). simpl. lia.
Qed.

Lemma progressions_shape (title : string) (m : jsmatch) :
  In m (Workers.progressions title) ->
  exists g1 g2 a b, progressMatch m g1 g2 a b.
Proof.
  unfold Workers.progressions, matchAll. intros H.
  apply matchAllFrom_inv in H. destruct H as (p & s & len & H).
  eapply execAt_progressRE_inv; eauto.
Qed.

(** ** Consequences of the shape of a match *)

Lemma digit_facts (a : ascii) :
  isDigit a = true ->
  Ascii.eqb a " " = false /\ Ascii.eqb a "/" = false /\ isSpace a = false.
Proof.
  destruct a as [[] [] [] [] [] [] [] []]; vm_compute; intros H;
    (discriminate H || auto).
Qed.

Lemma optSpace_plain (w : string) :
  optSpace w ->
  allChars (fun c => negb (isSpace c) || Ascii.eqb c " ") w = true ->
  w = ""%string \/ w = " "%string.
Proof.
  intros [->|(c & -> & Hc)] H; [now left|right].
  simpl in H. rewrite Hc in H. simpl in H.
  rewrite andb_true_r in H. apply Ascii.eqb_eq in H. now subst.
Qed.

Lemma allChars_append (p : ascii -> bool) (x y : string) :
  allChars p (x ++ y) = allChars p x && allChars p y.
Proof.
  induction x as [|c x IH]; simpl; [reflexivity|].
  now rewrite IH, andb_assoc.
Qed.

Lemma numericShape_removeSpaces (g : string) (a b : ascii) :
  numericShape g a b ->
  allChars (fun c => negb (isSpace c) || Ascii.eqb c " ") g = true ->
  removeSpaces g = frac a b.
Proof.
  intros (w1 & w2 & -> & Da & Db & O1 & O2) H.
  simpl in H. rewrite allChars_append in H. simpl in H.
  rewrite allChars_append in H.
  repeat (apply andb_true_iff in H; destruct H as [H ?]).
  repeat match goal with
         | X : _ /\ _ |- _ => destruct X
         | X : (_ && _) = true |- _ => apply andb_true_iff in X
         end.
  destruct (digit_facts _ Da) as (A1 & A2 & _).
  destruct (digit_facts _ Db) as (B1 & B2 & _).
  assert (W1 : w1 = ""%string \/ w1 = " "%string) by (apply optSpace_plain; auto).
  assert (W2 : w2 = ""%string \/ w2 = " "%string) by (apply optSpace_plain; auto).
  unfold frac.
  destruct W1 as [->| ->], W2 as [->| ->]; simpl; rewrite A1, B1; reflexivity.
Qed.

Lemma splitSlash_frac (a b : ascii) :
  isDigit a = true -> isDigit b = true ->
  splitSlash (frac a b) = [String a ""; String b ""].
Proof.
  intros Da Db.
  destruct (digit_facts _ Da) as (_ & A2 & _).
  destruct (digit_facts _ Db) as (_ & B2 & _).
  unfold frac. simpl. now rewrite A2, B2.
Qed.

Lemma sidesDiffer_frac (a b : ascii) :
  isDigit a = true -> isDigit b = true ->
  Workers.sidesDiffer (splitSlash (frac a b)) = negb (Ascii.eqb a b).
Proof.
  intros Da Db. rewrite splitSlash_frac by assumption.
  unfold Workers.sidesDiffer. simpl.
  destruct (Ascii.eqb a b); reflexivity.
Qed.

Lemma lastChar_append_one (x : string) (b : ascii) :
  lastChar (x ++ String b "") = Some b.
Proof.
  induction x as [|c x IH]; simpl; [reflexivity|].
  rewrite IH. destruct (x ++ String b "")%string eqn:E; [|reflexivity].
  destruct x; discriminate.
Qed.

Lemma progressMatch_digitsOf (m : jsmatch) (g1 g2 : string) (a b : ascii) :
  progressMatch m g1 g2 a b -> digitsOf m = Some (a, b).
Proof.
  intros (full & -> & _ & _ & (w1 & w2 & -> & _)).
  unfold digitsOf. simpl.
  change (String "/" (w2 ++ String b "")) with (("/" ++ w2) ++ String b "")%string.
  rewrite <- append_assoc. now rewrite lastChar_append_one.
Qed.

Lemma eqb_length_neq (x y : string) :
  String.length x <> String.length y -> String.eqb x y = false.
Proof.
  intros H. apply String.eqb_neq. intros ->. now apply H.
Qed.

Lemma progressMatch_tagged (m : jsmatch) (g1 g2 : string) (a b : ascii)
      (name : string) :
  progressMatch m g1 g2 a b -> String.length name = 2 ->
  Workers.tagged name m = String.eqb (toLowerCase g1) name.
Proof.
  intros (full & -> & Lf & _ & (w1 & w2 & -> & _)) Ln.
  unfold Workers.tagged. cbn [existsb].
  rewrite (eqb_length_neq (toLowerCase full) name)
    by (rewrite toLowerCase_length; lia).
  rewrite (eqb_length_neq (toLowerCase (String a _)) name).
  - now rewrite orb_false_r.
  - rewrite toLowerCase_length. cbn [String.length].
    rewrite length_append. cbn [String.length].
    rewrite length_append. cbn [String.length]. lia.
Qed.

Lemma progressMatch_progressOf (m : jsmatch) (g1 g2 : string) (a b : ascii) :
  progressMatch m g1 g2 a b -> Workers.progressOf m = Ok (removeSpaces g2).
Proof. intros (full & -> & _). reflexivity. Qed.

Lemma progressMatch_plain (m : jsmatch) (g1 g2 : string) (a b : ascii) :
  progressMatch m g1 g2 a b -> plainSpaces m = true ->
  removeSpaces g2 = frac a b /\ isDigit a = true /\ isDigit b = true.
Proof.
  intros (full & -> & _ & _ & Sh) H. unfold plainSpaces in H. simpl in H.
  split; [now apply numericShape_removeSpaces|].
  destruct Sh as (w1 & w2 & _ & Da & Db & _). auto.
Qed.

(** ** The classifier *)

Section ClassifierFacts.
Context {K : Constants}.

Lemma parsePrefix_no_stage (phrase : option string) :
  tagGivesNoStage phrase = true ->
  exists g tr, Workers.parsePrefix phrase = Ok ("", g, tr).
Proof.
  unfold tagGivesNoStage. cbn [existsb]. intros H.
  apply negb_true_iff in H.
  repeat (apply orb_false_iff in H; destruct H as [? H]).
  unfold Workers.parsePrefix.
  repeat match goal with X : Workers.tagIs _ _ = false |- _ => rewrite X; clear X end.
  cbn [orb].
  destruct (Workers.listed phrase OMPrefix); [eauto|].
  destruct (Workers.listed phrase pastGenPrefix).
  - destruct (Workers.genOfTag phrase); eauto.
  - destruct (Workers.listed phrase rbyOtherPrefix); eauto.
Qed.

(** Once the title has given stage [s] and progress [p], the thread is
    pushed with exactly these, unless the generation or tier step ends
    the iteration; in a monitored section other than 770 it is pushed. *)
Lemma parseThread_stage_from_title (t : IXFStatusQuery) (s p : string) :
  tagGivesNoStage (phrase_text t) = true ->
  Workers.inferStage (title t) = Ok (s, p) ->
  p <> ""%string \/ (String.eqb s "GP" || String.eqb s "QC") = false ->
  (forall d, Workers.parseThread t = Ok d -> stage d = s /\ progress d = p)
  /\ (monitored t -> node_id t <> 770%Z -> exists d, Workers.parseThread t = Ok d).
Proof.
  intros Htag Hst Hp.
  destruct (parsePrefix_no_stage _ Htag) as (g0 & t0 & Epre).
  unfold Workers.parseThread. rewrite Epre. cbn [bind String.eqb].
  rewrite Hst. cbn [bind].
  assert (Eback : (if String.eqb p "" then Workers.backfillProgress (title t) s
                   else Ok p) = Ok p).
  { destruct (String.eqb p "") eqn:E; [|reflexivity].
    apply String.eqb_eq in E. subst p.
    destruct Hp as [Hp|Hp]; [now destruct Hp|].
    unfold Workers.backfillProgress. now rewrite Hp. }
  rewrite Eback. cbn [bind].
  split.
  - intros d H.
    destruct (if length g0 =? 0 then Workers.resolveGen t else Ok g0)
      as [g1| |]; cbn [bind] in H; try discriminate.
    destruct (if length t0 =? 0 then Workers.resolveTier t else Ok t0)
      as [t1| |]; cbn [bind] in H; try discriminate.
    injection H as <-. auto.
  - intros Hmon Hnode. unfold monitored in Hmon.
    destruct (lookup (toString (node_id t)) ccSubObj) as [sub|] eqn:El;
      [|now destruct Hmon].
    assert (Eg : exists g1, (if length g0 =? 0 then Workers.resolveGen t else Ok g0)
                            = Ok g1).
    { destruct (length g0 =? 0); [|eauto].
      unfold Workers.resolveGen.
      apply Z.eqb_neq in Hnode. rewrite Hnode, El. cbn. eauto. }
    assert (Et : exists t1, (if length t0 =? 0 then Workers.resolveTier t else Ok t0)
                            = Ok t1).
    { destruct (length t0 =? 0); [|eauto].
      unfold Workers.resolveTier. rewrite El. cbn. eauto. }
    destruct Eg as (g1 & ->), Et as (t1 & ->). cbn. eauto.
Qed.

(** The title heuristic with exactly one match, tagged QC. *)
Lemma inferStage_single_qc (ti : string) (m : jsmatch) (a b : ascii) :
  includes "done" (toLowerCase ti) = false ->
  Workers.progressions ti = [m] ->
  Workers.tagged "qc" m = true ->
  digitsOf m = Some (a, b) ->
  plainSpaces m = true ->
  Workers.inferStage ti =
    Ok (if Ascii.eqb a b then ("GP", "0/?") else ("QC", frac a b)).
Proof.
  intros Hdone Hprog Hqc Hdig Hplain.
  assert (Hin : In m (Workers.progressions ti)) by (rewrite Hprog; now left).
  destruct (progressions_shape _ _ Hin) as (g1 & g2 & a' & b' & Sh).
  rewrite (progressMatch_digitsOf Sh) in Hdig. injection Hdig as -> ->.
  destruct (progressMatch_plain Sh Hplain) as (Erm & Da & Db).
  assert (Hgp : Workers.tagged "gp" m = false).
  { rewrite (@progressMatch_tagged _ _ _ _ _ "qc" Sh eq_refl) in Hqc.
    rewrite (@progressMatch_tagged _ _ _ _ _ "gp" Sh eq_refl).
    apply String.eqb_eq in Hqc. now rewrite Hqc. }
  unfold Workers.inferStage. rewrite Hprog, Hdone.
  cbn [length Nat.eqb Nat.leb existsb filter]. rewrite Hgp, Hqc.
  cbn [orb nth_error defined bind].
  rewrite (progressMatch_progressOf Sh). cbn [bind]. rewrite Erm.
  rewrite sidesDiffer_frac by assumption. rewrite negb_involutive.
  now destruct (Ascii.eqb a b).
Qed.

Lemma hd_error_filter_In {A : Type} (f : A -> bool) (l : list A) (x : A) :
  hd_error (filter f l) = Some x ->
  In x l /\ exists more, filter f l = x :: more.
Proof.
  destruct (filter f l) as [|y more] eqn:E; [discriminate|].
  intros H. injection H as ->. split; [|eauto].
  assert (In x (filter f l)) by (rewrite E; now left).
  now apply filter_In in H.
Qed.

Lemma progressMatch_length (m : jsmatch) (g1 g2 : string) (a b : ascii) :
  progressMatch m g1 g2 a b -> length m = 3.
Proof. intros (full & -> & _). reflexivity. Qed.

(** The title heuristic with two or more matches, a QC and a GP one
    among them. *)
Lemma inferStage_qc_and_gp (ti : string) (mq mg : jsmatch) (qa qb ga gb : ascii) :
  includes "done" (toLowerCase ti) = false ->
  2 <= length (Workers.progressions ti) ->
  hd_error (filter (Workers.tagged "qc") (Workers.progressions ti)) = Some mq ->
  hd_error (filter (Workers.tagged "gp") (Workers.progressions ti)) = Some mg ->
  digitsOf mq = Some (qa, qb) ->
  digitsOf mg = Some (ga, gb) ->
  plainSpaces mq = true ->
  plainSpaces mg = true ->
  Workers.inferStage ti =
    Ok (if negb (Ascii.eqb qa qb) then ("QC", frac qa qb)
        else if Ascii.eqb ga gb then ("Done", "")
        else ("GP", frac ga gb)).
Proof.
  intros Hdone Hlen Hq Hg Dq Dg Pq Pg.
  destruct (hd_error_filter_In _ _ Hq) as (Inq & moreq & Fq).
  destruct (hd_error_filter_In _ _ Hg) as (Ing & moreg & Fg).
  destruct (progressions_shape _ _ Inq) as (q1 & q2 & qa' & qb' & Shq).
  destruct (progressions_shape _ _ Ing) as (p1 & p2 & ga' & gb' & Shg).
  rewrite (progressMatch_digitsOf Shq) in Dq. injection Dq as -> ->.
  rewrite (progressMatch_digitsOf Shg) in Dg. injection Dg as -> ->.
  destruct (progressMatch_plain Shq Pq) as (Eq & Dqa & Dqb).
  destruct (progressMatch_plain Shg Pg) as (Eg & Dga & Dgb).
  unfold Workers.inferStage.
  destruct (length (Workers.progressions ti) =? 0) eqn:E0;
    [apply Nat.eqb_eq in E0; lia|].
  rewrite Hdone.
  destruct (2 <=? length (Workers.progressions ti)) eqn:E2;
    [|apply Nat.leb_gt in E2; lia].
  rewrite Fq, Fg. cbn [length hd Nat.eqb orb nth_error defined bind].
  rewrite (progressMatch_length Shq), (progressMatch_length Shg).
  cbn [Nat.ltb Nat.leb bind].
  rewrite (progressMatch_progressOf Shq), (progressMatch_progressOf Shg).
  cbn [bind]. rewrite Eq, Eg.
  rewrite !sidesDiffer_frac by assumption. rewrite !negb_involutive.
  destruct (Ascii.eqb qa qb), (Ascii.eqb ga gb); reflexivity.
Qed.

(** The word "done" decides once the title has a match. *)
Lemma inferStage_done (ti : string) :
  Workers.progressions ti <> [] ->
  includes "done" (toLowerCase ti) = true ->
  Workers.inferStage ti = Ok ("Done", "").
Proof.
  intros Hne Hdone. unfold Workers.inferStage.
  destruct (Workers.progressions ti) as [|m l]; [now destruct Hne|].
  cbn [length Nat.eqb]. now rewrite Hdone.
Qed.

(** No match: the stage is WIP, whatever else the title says. *)
Lemma inferStage_no_match (ti : string) :
  Workers.progressions ti = [] ->
  Workers.inferStage ti = Ok ("WIP", "").
Proof.
  intros E. unfold Workers.inferStage. now rewrite E.
Qed.

End ClassifierFacts.

(** ** The title heuristic (claims C1, C3 and C5) *)

(** C5, amended.  A thread whose tag leaves the stage open, whose title
    does not contain "done" and has exactly one match, tagged QC, with
    digits [a] and [b] and no white space but spaces in its numeric
    group: whenever the classifier pushes the thread, the stage is GP
    with progress "0/?" if [a = b], and QC with progress [a/b]
    otherwise; and it does push it in every monitored section other
    than 770. *)
Theorem C5_single_qc_match {K : Constants}
        (t : IXFStatusQuery) (m : jsmatch) (a b : ascii) :
  tagGivesNoStage (phrase_text t) = true ->
  includes "done" (toLowerCase (title t)) = false ->
  Workers.progressions (title t) = [m] ->
  Workers.tagged "qc" m = true ->
  digitsOf m = Some (a, b) ->
  plainSpaces m = true ->
  (forall d, Workers.parseThread t = Ok d ->
     (a = b -> stage d = "GP"%string /\ progress d = "0/?"%string) /\
     (a <> b -> stage d = "QC"%string /\ progress d = frac a b))
  /\ (monitored t -> node_id t <> 770%Z ->
      exists d, Workers.parseThread t = Ok d).
Proof.
  intros Htag Hdone Hprog Hqc Hdig Hplain.
  pose proof (inferStage_single_qc _ Hdone Hprog Hqc Hdig Hplain) as Hst.
  destruct (Ascii.eqb a b) eqn:E.
  - apply Ascii.eqb_eq in E.
    destruct (parseThread_stage_from_title t Htag Hst) as (H1 & H2);
      [left; discriminate|].
    split; [|exact H2]. intros d Hd. split; [intros _; eauto|].
    intros Hne. now destruct Hne.
  - apply Ascii.eqb_neq in E.
    destruct (parseThread_stage_from_title t Htag Hst) as (H1 & H2);
      [left; discriminate|].
    split; [|exact H2]. intros d Hd. split; [intros Heq; now destruct E|].
    intros _. eauto.
Qed.

Lemma C5_single_qc_match_witness :
  (forall d, @Workers.parseThread inlineConstants thread_qc_1_2 = Ok d ->
     ("1"%char = "2"%char -> stage d = "GP"%string /\ progress d = "0/?"%string) /\
     ("1"%char <> "2"%char -> stage d = "QC"%string /\ progress d = "1/2"%string))
  /\ (monitored thread_qc_1_2 -> node_id thread_qc_1_2 <> 770%Z ->
      exists d, @Workers.parseThread inlineConstants thread_qc_1_2 = Ok d).
Proof.
  apply (@C5_single_qc_match inlineConstants thread_qc_1_2
           [Some "QC 1/2"; Some "QC"; Some "1/2"] "1" "2"); reflexivity.
Defined.

(** C5 as stated fails twice.  In section 770 a thread that meets its
    hypotheses is skipped, not classified; and with a tab inside the
    numeric group the equal digits 2 and 2 give stage QC with the tab
    kept in the progress. *)
Lemma C5_counterexample :
  (tagGivesNoStage (phrase_text thread_770_qc) = true /\
   includes "done" (toLowerCase (title thread_770_qc)) = false /\
   Workers.progressions (title thread_770_qc) = [[Some "QC 1/2"; Some "QC"; Some "1/2"]] /\
   @Workers.parseThread inlineConstants thread_770_qc = Continue)
  /\
  (tagGivesNoStage (phrase_text thread_qc_tab) = true /\
   includes "done" (toLowerCase (title thread_qc_tab)) = false /\
   (exists m, Workers.progressions (title thread_qc_tab) = [m] /\
              Workers.tagged "qc" m = true /\
              digitsOf m = Some ("2"%char, "2"%char)) /\
   @Workers.parseThread inlineConstants thread_qc_tab =
     Ok {| thread := thread_qc_tab; gen := [Some "9"]; tier := ["ou"];
           stage := "QC"; progress := "2" ++ tab ++ "/2" |}).
Proof.
  split.
  - repeat split; reflexivity.
  - split; [reflexivity|]. split; [reflexivity|]. split; [|reflexivity].
    exists [Some ("QC 2" ++ tab ++ "/2")%string; Some "QC"%string;
            Some ("2" ++ tab ++ "/2")%string].
    split; [vm_compute; reflexivity|]. split; reflexivity.
Qed.

(** C1, amended.  A thread whose tag leaves the stage open, whose title
    does not contain "done" and has two or more matches, the first QC
    match with digits [qa], [qb] and the first GP match with digits
    [ga], [gb], neither with white space other than spaces in its
    numeric group: whenever the classifier pushes the thread, the stage
    is QC with progress [qa/qb] if [qa <> qb]; GP with progress [ga/gb]
    if [qa = qb] and [ga <> gb]; Done if both pairs are equal.  It does
    push it in every monitored section other than 770. *)
Theorem C1_qc_and_gp_matches {K : Constants}
        (t : IXFStatusQuery) (mq mg : jsmatch) (qa qb ga gb : ascii) :
  tagGivesNoStage (phrase_text t) = true ->
  includes "done" (toLowerCase (title t)) = false ->
  2 <= length (Workers.progressions (title t)) ->
  hd_error (filter (Workers.tagged "qc") (Workers.progressions (title t))) = Some mq ->
  hd_error (filter (Workers.tagged "gp") (Workers.progressions (title t))) = Some mg ->
  digitsOf mq = Some (qa, qb) ->
  digitsOf mg = Some (ga, gb) ->
  plainSpaces mq = true ->
  plainSpaces mg = true ->
  (forall d, Workers.parseThread t = Ok d ->
     (qa <> qb -> stage d = "QC"%string /\ progress d = frac qa qb) /\
     (qa = qb -> ga <> gb -> stage d = "GP"%string /\ progress d = frac ga gb) /\
     (qa = qb -> ga = gb -> stage d = "Done"%string /\ progress d = ""%string))
  /\ (monitored t -> node_id t <> 770%Z ->
      exists d, Workers.parseThread t = Ok d).
Proof.
  intros Htag Hdone Hlen Hq Hg Dq Dg Pq Pg.
  pose proof (inferStage_qc_and_gp _ Hdone Hlen Hq Hg Dq Dg Pq Pg) as Hst.
  destruct (Ascii.eqb qa qb) eqn:Eq; cbn [negb] in Hst.
  - apply Ascii.eqb_eq in Eq.
    destruct (Ascii.eqb ga gb) eqn:Eg.
    + apply Ascii.eqb_eq in Eg.
      destruct (parseThread_stage_from_title t Htag Hst) as (H1 & H2);
        [right; reflexivity|].
      split; [|exact H2]. intros d Hd.
      repeat split; intros; try contradiction; now apply H1.
    + apply Ascii.eqb_neq in Eg.
      destruct (parseThread_stage_from_title t Htag Hst) as (H1 & H2);
        [left; discriminate|].
      split; [|exact H2]. intros d Hd.
      repeat split; intros; try contradiction; now apply H1.
  - apply Ascii.eqb_neq in Eq.
    destruct (parseThread_stage_from_title t Htag Hst) as (H1 & H2);
      [left; discriminate|].
    split; [|exact H2]. intros d Hd.
    repeat split; intros; try contradiction; now apply H1.
Qed.

Lemma C1_qc_and_gp_matches_witness :
  (forall d, @Workers.parseThread inlineConstants thread_qc_gp = Ok d ->
     ("2"%char <> "2"%char -> stage d = "QC"%string /\ progress d = "2/2"%string) /\
     ("2"%char = "2"%char -> "0"%char <> "1"%char ->
      stage d = "GP"%string /\ progress d = "0/1"%string) /\
     ("2"%char = "2"%char -> "0"%char = "1"%char ->
      stage d = "Done"%string /\ progress d = ""%string))
  /\ (monitored thread_qc_gp -> node_id thread_qc_gp <> 770%Z ->
      exists d, @Workers.parseThread inlineConstants thread_qc_gp = Ok d).
Proof.
  apply (@C1_qc_and_gp_matches inlineConstants thread_qc_gp
           [Some "QC 2/2"; Some "QC"; Some "2/2"]
           [Some "GP 0/1"; Some "GP"; Some "0/1"] "2" "2" "0" "1");
    reflexivity.
Defined.

(** C1 as stated fails twice.  In section 770 a thread that meets its
    hypotheses, with QC digits 1 and 2, is skipped, not classified; and
    with a tab inside the QC group the equal QC digits 2 and 2 give
    stage QC, not GP. *)
Lemma C1_counterexample :
  (tagGivesNoStage (phrase_text thread_770_qc_gp) = true /\
   includes "done" (toLowerCase (title thread_770_qc_gp)) = false /\
   Workers.progressions (title thread_770_qc_gp) =
     [[Some "QC 1/2"; Some "QC"; Some "1/2"];
      [Some "GP 0/1"; Some "GP"; Some "0/1"]] /\
   @Workers.parseThread inlineConstants thread_770_qc_gp = Continue)
  /\
  (tagGivesNoStage (phrase_text thread_qc_tab_gp) = true /\
   includes "done" (toLowerCase (title thread_qc_tab_gp)) = false /\
   (exists mq mg,
      Workers.progressions (title thread_qc_tab_gp) = [mq; mg] /\
      Workers.tagged "qc" mq = true /\ Workers.tagged "gp" mg = true /\
      digitsOf mq = Some ("2"%char, "2"%char) /\
      digitsOf mg = Some ("0"%char, "1"%char)) /\
   @Workers.parseThread inlineConstants thread_qc_tab_gp =
     Ok {| thread := thread_qc_tab_gp; gen := [Some "9"]; tier := ["ou"];
           stage := "QC"; progress := "2" ++ tab ++ "/2" |}).
Proof.
  split.
  - repeat split; reflexivity.
  - split; [reflexivity|]. split; [reflexivity|]. split; [|reflexivity].
    exists [Some ("QC 2" ++ tab ++ "/2")%string; Some "QC"%string;
            Some ("2" ++ tab ++ "/2")%string],
           [Some "GP 0/1"%string; Some "GP"%string; Some "0/1"%string].
    split; [vm_compute; reflexivity|]. repeat split; reflexivity.
Qed.

(** C3, amended.  A thread whose tag leaves the stage open and whose
    title contains "done" in any letter case: whenever the classifier
    pushes the thread, the stage is Done with empty progress if the
    title has at least one QC/GP numeric match, however many, and WIP
    with empty progress if it has none.  The classifier does push the
    thread in every monitored section other than 770. *)
Theorem C3_done_with_a_match {K : Constants} (t : IXFStatusQuery) :
  tagGivesNoStage (phrase_text t) = true ->
  includes "done" (toLowerCase (title t)) = true ->
  (Workers.progressions (title t) <> [] ->
   forall d, Workers.parseThread t = Ok d ->
     stage d = "Done"%string /\ progress d = ""%string)
  /\ (Workers.progressions (title t) = [] ->
      forall d, Workers.parseThread t = Ok d ->
        stage d = "WIP"%string /\ progress d = ""%string)
  /\ (monitored t -> node_id t <> 770%Z ->
      exists d, Workers.parseThread t = Ok d).
Proof.
  intros Htag Hdone.
  destruct (Workers.progressions (title t)) as [|m l] eqn:Ep.
  - pose proof (inferStage_no_match _ Ep) as Hst.
    destruct (parseThread_stage_from_title t Htag Hst) as (H1 & H2);
      [now right|].
    split; [intros Hne; now destruct Hne|]. split; [intros _; exact H1|exact H2].
  - assert (Hne : Workers.progressions (title t) <> []) by (rewrite Ep; discriminate).
    pose proof (inferStage_done _ Hne Hdone) as Hst.
    destruct (parseThread_stage_from_title t Htag Hst) as (H1 & H2);
      [now right|].
    split; [intros _; exact H1|]. split; [discriminate|exact H2].
Qed.

Lemma C3_done_with_a_match_witness :
  (Workers.progressions (title thread_done_qc) <> [] ->
   forall d, @Workers.parseThread inlineConstants thread_done_qc = Ok d ->
     stage d = "Done"%string /\ progress d = ""%string)
  /\ (Workers.progressions (title thread_done_qc) = [] ->
      forall d, @Workers.parseThread inlineConstants thread_done_qc = Ok d ->
        stage d = "WIP"%string /\ progress d = ""%string)
  /\ (monitored thread_done_qc -> node_id thread_done_qc <> 770%Z ->
      exists d, @Workers.parseThread inlineConstants thread_done_qc = Ok d).
Proof.
  apply (@C3_done_with_a_match inlineConstants thread_done_qc); reflexivity.
Defined.

(** C3 as stated fails twice.  A title with the word "done" and no
    numeric match is classified WIP; and in section 770 a thread with
    "done" and a match is skipped. *)
Lemma C3_counterexample :
  (tagGivesNoStage (phrase_text thread_done_only) = true /\
   includes "done" (toLowerCase (title thread_done_only)) = true /\
   Workers.progressions (title thread_done_only) = [] /\
   @Workers.parseThread inlineConstants thread_done_only =
     Ok {| thread := thread_done_only; gen := [Some "9"]; tier := ["ou"];
           stage := "WIP"; progress := "" |})
  /\
  (tagGivesNoStage (phrase_text thread_770_done) = true /\
   includes "done" (toLowerCase (title thread_770_done)) = true /\
   @Workers.parseThread inlineConstants thread_770_done = Continue).
Proof. repeat split; reflexivity. Qed.

(** The same heuristic with no match at all: the later classifier scans
    the thread's own title and gives WIP with empty progress. *)
Lemma parseThread_no_match_WIP {K : Constants} (t : IXFStatusQuery) :
  tagGivesNoStage (phrase_text t) = true ->
  Workers.progressions (title t) = [] ->
  (forall d, Workers.parseThread t = Ok d ->
     stage d = "WIP"%string /\ progress d = ""%string)
  /\ (monitored t -> node_id t <> 770%Z ->
      exists d, Workers.parseThread t = Ok d).
Proof.
  intros Htag Hno.
  pose proof (inferStage_no_match _ Hno) as Hst.
  apply (parseThread_stage_from_title t Htag Hst). now right.
Qed.

(** ** The generation pattern: a non-empty match defines group 3 or 4 *)

Lemma run_Bound_inv (st st' : mstate) : In st' (run Bound st) -> st' = st.
Proof.
  cbn [run]. destruct (xorb _ _); [|intros []]. now intros [<-|[]].
Qed.

Lemma run_Alt_inv (r1 r2 : regex) (st st' : mstate) :
  In st' (run (Alt r1 r2) st) -> In st' (run r1 st) \/ In st' (run r2 st).
Proof. cbn [run]. apply in_app_or. Qed.

Lemma genCaptured_set3 (i : nat) (v : option string) (c : ascii) (l : jsmatch) :
  length l = 5 -> i < 3 ->
  genCaptured (setNth i v (setNth 3 (Some (String c "")) l)).
Proof.
  intros L Hi.
  destruct l as [|x0 [|x1 [|x2 [|x3 [|x4 [|]]]]]]; try discriminate.
  destruct i as [|[|[|]]]; try lia; split; try reflexivity; left; reflexivity.
Qed.

Lemma genCaptured_set4 (i : nat) (v : option string) (g : string) (l : jsmatch) :
  length l = 5 -> i < 3 ->
  genCaptured (setNth i v (setNth 4 (Some g) l)).
Proof.
  intros L Hi.
  destruct l as [|x0 [|x1 [|x2 [|x3 [|x4 [|]]]]]]; try discriminate.
  destruct i as [|[|[|]]]; try lia; split; try reflexivity; right; discriminate.
Qed.

Lemma genCaptured_set0 (v : option string) (l : jsmatch) :
  genCaptured l -> genCaptured (setNth 0 v l).
Proof.
  intros (L & H).
  destruct l as [|x0 [|x1 [|x2 [|x3 [|x4 [|]]]]]]; try discriminate.
  split; [reflexivity | exact H].
Qed.

Section GenRegex.

Variables (word sp token : regex).

(** One iteration of the starred group sets group 3 to one character or
    group 4 to a token. *)
Lemma genBody_captures (st st' : mstate) :
  length (caps st) = 5 ->
  In st' (run (genBody word sp token) st) -> genCaptured (caps st').
Proof.
  intros L H. unfold genBody in H.
  apply run_Grp_inv in H. destruct H as (s1 & H & ->). cbn [caps].
  apply run_Alt_inv in H. destruct H as [H|H].
  - apply run_Cat_inv in H. destruct H as (x1 & H1 & H).
    apply run_Cat_inv in H. destruct H as (x2 & H2 & H3).
    apply run_Grp_inv in H3. destruct H3 as (x3 & H3 & ->). cbn [caps].
    pose proof (run_caps_length _ _ _ H1) as L1.
    pose proof (run_caps_length _ _ _ H2) as L2.
    pose proof (run_caps_length _ _ _ H3) as L3.
    apply run_Chr_inv in H3. destruct H3 as (c & E & _ & _).
    rewrite (@consumed_suffix x2 x3 (String c "") E).
    apply genCaptured_set3; [congruence | lia].
  - apply run_Grp_inv in H. destruct H as (x1 & H1 & ->). cbn [caps].
    pose proof (run_caps_length _ _ _ H1) as L1.
    apply genCaptured_set4; [congruence | lia].
Qed.

Lemma genStar_captures (gs : list nat) :
  forall n st st',
    length (caps st) = 5 ->
    In st' (repeatUpto (run (genBody word sp token)) gs n st) ->
    st' = st \/ genCaptured (caps st').
Proof.
  induction n as [|n IH]; intros st st' L H; simpl in H.
  - destruct H as [<-|[]]. now left.
  - apply in_app_or in H. destruct H as [H|[<-|[]]]; [|now left].
    apply in_flat_map in H. destruct H as (s1 & H1 & H2).
    destruct (advanced st s1); [|destruct H2].
    apply genBody_captures in H1; [|now rewrite clearGroups_length].
    right. apply IH in H2; [|apply H1].
    destruct H2 as [->|H2]; assumption.
Qed.

End GenRegex.

Lemma run_Star_eq (r : regex) (st : mstate) :
  run (Star r) st = repeatUpto (run r) (groups r) (String.length (rest st)) st.
Proof. reflexivity. Qed.

Lemma substring_0_0 (s : string) : substring 0 0 s = ""%string.
Proof. destruct s; reflexivity. Qed.

Lemma execAt_genRegex_inv (p : option ascii) (s : string) (m : jsmatch) (len : nat) :
  execAt genRegex 4 p s = Some (m, len) ->
  at_ 0 m = Some ""%string \/ truthy (at_ 3 m) = true \/ at_ 4 m <> None.
Proof.
  unfold execAt.
  set (st0 := MState p s (repeat None 5)).
  destruct (run genRegex st0) as [|st' l] eqn:E; [discriminate|].
  intros H. injection H as <- _.
  assert (Hin : In st' (run genRegex st0)) by (rewrite E; now left).
  clear E. unfold genRegex in Hin.
  apply run_Cat_inv in Hin. destruct Hin as (s1 & H1 & Hin).
  apply run_Bound_inv in H1. subst s1.
  apply run_Cat_inv in Hin. destruct Hin as (s2 & H2 & H3).
  apply run_Bound_inv in H3. subst s2.
  rewrite run_Star_eq in H2.
  apply genStar_captures in H2; [|reflexivity].
  destruct H2 as [->|H2].
  - left. unfold consumed. rewrite Nat.sub_diag, substring_0_0. reflexivity.
  - right. apply (genCaptured_set0 (Some (consumed st0 st'))) in H2.
    destruct H2 as (L & H2).
    exact H2.
Qed.

Lemma jsMatch_genRegex_inv (s : string) (m : jsmatch) :
  jsMatch genRegex 4 s = Some m ->
  at_ 0 m = Some ""%string \/ truthy (at_ 3 m) = true \/ at_ 4 m <> None.
Proof.
  unfold jsMatch. intros H. apply searchFrom_inv in H.
  destruct H as (p & s' & len & H). eapply execAt_genRegex_inv; eauto.
Qed.

(** ** The later classifier never throws in a monitored section (claim C10) *)

Lemma bind_TypeError {A B : Type} (m : res A) (f : A -> res B) (p : string) :
  bind m f = TypeError p ->
  m = TypeError p \/ exists a, m = Ok a /\ f a = TypeError p.
Proof.
  destruct m as [a| |q]; cbn; intros H;
    [right; eauto | discriminate | left; congruence].
Qed.

Lemma existsb_filter_cons {A : Type} (f : A -> bool) (l : list A) :
  existsb f l = true -> exists x more, filter f l = x :: more /\ In x l.
Proof.
  induction l as [|y l IH]; cbn; [discriminate|].
  destruct (f y) eqn:E; cbn.
  - intros _. exists y, (filter f l). auto.
  - intros H. destruct (IH H) as (x & more & -> & Hin). eauto.
Qed.

Lemma filter_head_In {A : Type} (f : A -> bool) (l : list A) (x : A) (more : list A) :
  filter f l = x :: more -> In x l.
Proof.
  intros E. assert (In x (filter f l)) by (rewrite E; now left).
  now apply filter_In in H.
Qed.

Lemma progressOf_ok (ti : string) (m : jsmatch) :
  In m (Workers.progressions ti) -> exists p, Workers.progressOf m = Ok p.
Proof.
  intros H. destruct (progressions_shape _ _ H) as (g1 & g2 & a & b & Sh).
  rewrite (progressMatch_progressOf Sh). eauto.
Qed.

Lemma lookup_section (t : IXFStatusQuery) :
  monitored t \/ node_id t = 770%Z ->
  exists sub, lookup (toString (node_id t)) ccSubObj = Some sub.
Proof.
  intros [H| ->].
  - unfold monitored in H.
    destruct (lookup (toString (node_id t)) ccSubObj) as [sub|]; [eauto|now destruct H].
  - vm_compute. eauto.
Qed.

Section NoThrow.
Context {K : Constants}.

Lemma inferStage_no_throw (ti : string) (p : string) :
  Workers.inferStage ti <> TypeError p.
Proof.
  unfold Workers.inferStage.
  destruct (length (Workers.progressions ti) =? 0); [discriminate|].
  destruct (includes "done" (toLowerCase ti)); [discriminate|].
  destruct (2 <=? length (Workers.progressions ti)).
  - destruct (filter (Workers.tagged "gp") (Workers.progressions ti))
      as [|gp0 gl] eqn:Fg; cbn [length Nat.eqb orb hd]; [discriminate|].
    destruct (length gp0 <? 3); [discriminate|].
    cbn [nth_error defined bind].
    destruct (progressOf_ok _ _ (filter_head_In _ _ Fg)) as (pg & ->).
    cbn [bind].
    destruct (filter (Workers.tagged "qc") (Workers.progressions ti))
      as [|qc0 ql] eqn:Fq; cbn [length Nat.eqb orb hd]; [discriminate|].
    destruct (length qc0 <? 3); [discriminate|].
    cbn [nth_error defined bind].
    destruct (progressOf_ok _ _ (filter_head_In _ _ Fq)) as (pq & ->).
    cbn [bind].
    destruct (Workers.sidesDiffer (splitSlash pq)); [discriminate|].
    destruct (_ && _); discriminate.
  - destruct (existsb (Workers.tagged "gp") (Workers.progressions ti)) eqn:Eg.
    + destruct (existsb_filter_cons _ _ Eg) as (x & more & -> & Hin).
      cbn [nth_error defined bind].
      destruct (progressOf_ok _ _ Hin) as (pg & ->). cbn [bind].
      destruct (negb _); discriminate.
    + destruct (existsb (Workers.tagged "qc") (Workers.progressions ti)) eqn:Eq;
        [|discriminate].
      destruct (existsb_filter_cons _ _ Eq) as (x & more & -> & Hin).
      cbn [nth_error defined bind].
      destruct (progressOf_ok _ _ Hin) as (pq & ->). cbn [bind].
      destruct (negb _); discriminate.
Qed.

Lemma backfillProgress_no_throw (ti st : string) (p : string) :
  Workers.backfillProgress ti st <> TypeError p.
Proof.
  unfold Workers.backfillProgress. cbv zeta.
  destruct (_ || _); [|discriminate].
  destruct (filter (Workers.tagged (toLowerCase st)) (Workers.progressions ti))
    as [|s0 sl] eqn:F1.
  - cbn [length Nat.eqb negb andb].
    destruct (negb (length (Workers.progressions ti) =? 0)); [|discriminate].
    match goal with
    | |- context [filter ?f (Workers.progressions ti)] =>
        destruct (filter f (Workers.progressions ti)) as [|u0 ul] eqn:F2
    end;
      cbn [length Nat.eqb negb andb hd]; [discriminate|].
    destruct (3 <=? length u0); [|discriminate].
    cbn [nth_error defined bind].
    destruct (progressOf_ok _ _ (filter_head_In _ _ F2)) as (pu & ->). discriminate.
  - cbn [length Nat.eqb negb andb hd].
    destruct (3 <=? length s0).
    + cbn [nth_error defined bind].
      destruct (progressOf_ok _ _ (filter_head_In _ _ F1)) as (ps & ->). discriminate.
    + destruct (negb (length (Workers.progressions ti) =? 0)); [|discriminate].
      match goal with
    | |- context [filter ?f (Workers.progressions ti)] =>
        destruct (filter f (Workers.progressions ti)) as [|u0 ul] eqn:F2
    end;
        cbn [length Nat.eqb negb andb hd]; [discriminate|].
      destruct (3 <=? length u0); [|discriminate].
      cbn [nth_error defined bind].
      destruct (progressOf_ok _ _ (filter_head_In _ _ F2)) as (pu & ->). discriminate.
Qed.

Lemma parsePrefix_no_throw (phrase : option string) (p : string) :
  Workers.parsePrefix phrase <> TypeError p.
Proof.
  unfold Workers.parsePrefix.
  repeat match goal with
         | |- (if ?b then _ else _) <> _ => destruct b; try discriminate
         end.
  destruct (Workers.genOfTag phrase); discriminate.
Qed.

Lemma resolveGen_no_throw (t : IXFStatusQuery) (p : string) :
  monitored t \/ node_id t = 770%Z ->
  Workers.resolveGen t <> TypeError p.
Proof.
  intros Hsec. unfold Workers.resolveGen.
  destruct (Z.eqb (node_id t) 770).
  - destruct (jsMatch genRegex 4 (title t)) as [m|] eqn:Em; [|discriminate].
    destruct (optEqb (at_ 0 m) (Some ""%string)) eqn:E0; cbn [negb]; [discriminate|].
    destruct (jsMatch_genRegex_inv _ Em) as [H|[H|H]].
    + rewrite H in E0. discriminate.
    + rewrite H. unfold truthy in H.
      destruct (at_ 3 m); [discriminate|discriminate].
    + destruct (truthy (at_ 3 m)) eqn:T3.
      * unfold truthy in T3. destruct (at_ 3 m); discriminate.
      * destruct (at_ 4 m); [discriminate|now destruct H].
  - destruct (lookup_section Hsec) as (sub & ->). discriminate.
Qed.

Lemma resolveTier_no_throw (t : IXFStatusQuery) (p : string) :
  monitored t \/ node_id t = 770%Z ->
  Workers.resolveTier t <> TypeError p.
Proof.
  intros Hsec. unfold Workers.resolveTier.
  destruct (lookup_section Hsec) as (sub & ->). discriminate.
Qed.

Lemma parseThread_no_throw (t : IXFStatusQuery) (p : string) :
  monitored t \/ node_id t = 770%Z ->
  Workers.parseThread t <> TypeError p.
Proof.
  intros Hsec H. unfold Workers.parseThread in H.
  apply bind_TypeError in H. destruct H as [H|([[s0 g0] t0] & _ & H)];
    [now apply parsePrefix_no_throw in H|].
  apply bind_TypeError in H. destruct H as [H|([s1 p1] & _ & H)].
  { destruct (String.eqb s0 ""); [now apply inferStage_no_throw in H|discriminate]. }
  apply bind_TypeError in H. destruct H as [H|(p2 & _ & H)].
  { destruct (String.eqb p1 ""); [now apply backfillProgress_no_throw in H|discriminate]. }
  apply bind_TypeError in H. destruct H as [H|(g1 & _ & H)].
  { destruct (length g0 =? 0); [now apply resolveGen_no_throw in H|discriminate]. }
  apply bind_TypeError in H. destruct H as [H|(t1 & _ & H)].
  { destruct (length t0 =? 0); [now apply resolveTier_no_throw in H|discriminate]. }
  discriminate.
Qed.

End NoThrow.
(** ** The earliest form *)

Lemma sample_progressions :
  matchAll progressRE_cnc 2 Cnc.sample =
    [[Some "QC: 2/2"; Some "QC"; Some "2/2"];
     [Some "GP:0/1"; Some "GP"; Some "0/1"]]%string.
Proof. vm_compute. reflexivity. Qed.

(** In a monitored section the only error [Cnc.classify] can end in is
    the call of [toLowerCase] on an undefined generation token, in
    section 770; the reads of [gens] and [tiers] never fail. *)
Lemma Cnc_classify_throw (t : IXFStatusQuery) (p : string) :
  monitored t \/ node_id t = 770%Z ->
  Cnc.classify t = TypeError p ->
  p = "toLowerCase"%string /\ node_id t = 770%Z.
Proof.
  intros Hsec H. destruct (lookup_section Hsec) as (sub & El).
  unfold Cnc.classify in H. cbv zeta in H.
  rewrite !sample_progressions, !El in H.
  remember (includes "done" (toLowerCase (title t))) as dn.
  remember (jsMatch genRegex 4 (title t)) as gm.
  apply bind_TypeError in H. destruct H as [H|(x & _ & H)].
  { exfalso.
    repeat match type of H with
           | (if ?b then _ else _) = _ => destruct b; try discriminate H
           end.
    destruct (Workers.genOfTag _); discriminate. }
  destruct x as [[[st pr] g] ti]. cbv beta iota zeta in H.
  apply bind_TypeError in H. destruct H as [H|(pr2 & _ & H)].
  { exfalso.
    destruct (String.eqb pr ""); [|discriminate].
    destruct (String.eqb st "GP") eqn:Eg.
    - apply String.eqb_eq in Eg. subst st. vm_compute in H. discriminate.
    - destruct (String.eqb st "QC") eqn:Eq; [|discriminate].
      apply String.eqb_eq in Eq. subst st. vm_compute in H. discriminate. }
  apply bind_TypeError in H. destruct H as [H|(g2 & _ & H)].
  { destruct (optEqb g (Some ""%string)); [|discriminate].
    destruct (Z.eqb (node_id t) 770) eqn:E770; [|discriminate].
    apply Z.eqb_eq in E770.
    destruct gm as [m|]; [|discriminate].
    apply bind_TypeError in H. destruct H as [H|(gd & _ & H)]; [|discriminate].
    destruct (if truthy (at_ 3 m) then at_ 3 m else at_ 4 m); [discriminate|].
    cbn in H. injection H as <-. auto. }
  apply bind_TypeError in H. destruct H as [H|(t2 & _ & H)]; [|discriminate].
  destruct (optEqb ti (Some ""%string)); discriminate.
Qed.

(** When every thread of the batch sits in a section that is a key of
    [ccSubObj] (770 is one of them), [parseCCStage] returns: no
    iteration throws, whatever the titles and prefix tags.  In the
    earliest form the reads of [gens] and [tiers] on the looked-up
    entry never hit [undefined] either. *)
Lemma monitored_sections_never_throw {K : Constants} (threadData : list IXFStatusQuery) :
  Forall (fun t => monitored t \/ node_id t = 770%Z) threadData ->
  (exists parsed, Workers.parseCCStage threadData = Some parsed)
  /\ Forall (fun t =>
               (forall p, Workers.parseThread t <> TypeError p) /\
               (exists sub, lookup (toString (node_id t)) ccSubObj = Some sub) /\
               Cnc.classify t <> TypeError "gens" /\
               Cnc.classify t <> TypeError "tiers") threadData.
Proof.
  induction 1 as [|t ts Ht _ (IH1 & IH2)].
  - split; [now exists []|constructor].
  - split.
    + destruct IH1 as (parsed & E). cbn [Workers.parseCCStage].
      destruct (Workers.parseThread t) as [d| |p] eqn:Et.
      * rewrite E. cbn. eauto.
      * eauto.
      * now apply parseThread_no_throw in Et.
    + constructor; [|exact IH2].
      split; [intros p; now apply parseThread_no_throw|].
      split; [now apply lookup_section|].
      split; intros Hc; apply (Cnc_classify_throw Ht) in Hc;
        destruct Hc as (Hc & _); discriminate.
Qed.

(** C10 fails in [cnc.ts].  Thread 101 sits in section 770, a key of
    [ccSubObj], and has no tag; its title "Zapdos [QC 1/2]" starts with
    no generation word, so the generation pattern matches the empty
    string at index 0 and leaves groups 3 and 4 undefined.  The earliest
    form calls [toLowerCase] on that: [findNewThreads] throws, and
    thread 105 after it is never looked at.  The later classifier tests
    [matchArr[0] !== ''] first: it skips thread 101 and classifies
    thread 105. *)
Theorem C10_cnc_throws_in_section_770 :
  node_id thread_770_qc = 770%Z
  /\ (exists sub, lookup (toString (node_id thread_770_qc)) ccSubObj = Some sub)
  /\ jsMatch genRegex 4 (title thread_770_qc)
     = Some [Some ""%string; None; None; None; None]
  /\ Cnc.classify thread_770_qc = TypeError "toLowerCase"
  /\ Cnc.findNewThreads clientA dbA [thread_770_qc; thread_qc_tag]
     = ([], dbA, Cnc.Thrown)
  /\ @Workers.parseThread inlineConstants thread_770_qc = Continue
  /\ @Workers.parseCCStage inlineConstants [thread_770_qc; thread_qc_tag]
     = Some [{| thread := thread_qc_tag; gen := [Some "9"%string];
                tier := ["ou"%string]; stage := "QC"; progress := "" |}].
Proof.
  split; [reflexivity|].
  split; [vm_compute; eauto|].
  repeat split; vm_compute; reflexivity.
Qed.

(** ** Classification is a function of title, tag and section (claim C9) *)

(** The posts of the later variant do not change what is pushed. *)
Lemma Part005_parseCCStage_data {K : Constants}
      (client : Client) (threadData : list IXFStatusQuery) :
  snd (Part005.parseCCStage threadData client) = Workers.parseCCStage threadData.
Proof.
  induction threadData as [|t ts IH]; [reflexivity|].
  cbn [Part005.parseCCStage Workers.parseCCStage].
  destruct (Workers.parseThread t) as [d| |p]; [| |reflexivity];
    destruct (Part005.parseCCStage ts client) as [tr r]; cbn [snd] in *;
    now rewrite IH.
Qed.

(** C9.  Two rows with the same title, prefix tag and forum section are
    classified alike: the same stage, progress, generations and tiers,
    or the same skip or error; this holds across polls, since the data
    the later variant pushes do not depend on the client either. *)
Theorem C9_classification_is_a_function {K : Constants} (t1 t2 : IXFStatusQuery) :
  title t1 = title t2 ->
  phrase_text t1 = phrase_text t2 ->
  node_id t1 = node_id t2 ->
  outcomeOf t1 = outcomeOf t2
  /\ forall client1 client2 threadData,
       snd (Part005.parseCCStage threadData client1)
       = snd (Part005.parseCCStage threadData client2).
Proof.
  intros Ht Hp Hn. split.
  - destruct t1 as [i1 n1 ti1 p1], t2 as [i2 n2 ti2 p2].
    cbn [title phrase_text node_id] in Ht, Hp, Hn. subst ti2 p2 n2.
    unfold outcomeOf, Workers.parseThread, Workers.resolveGen, Workers.resolveTier.
    cbn [title phrase_text node_id].
    destruct (Workers.parsePrefix p1) as [[[s0 g0] t0]| |q]; cbn [bind];
      [|reflexivity|reflexivity].
    destruct (if String.eqb s0 "" then Workers.inferStage ti1 else Ok (s0, ""%string))
      as [[s1 pr1]| |q]; cbn [bind]; [|reflexivity|reflexivity].
    destruct (if String.eqb pr1 "" then Workers.backfillProgress ti1 s1 else Ok pr1)
      as [pr2| |q]; cbn [bind]; [|reflexivity|reflexivity].
    match goal with
    | |- bind (bind ?m _) _ = _ => destruct m as [g1| |q]
    end; cbn [bind]; [|reflexivity|reflexivity].
    match goal with
    | |- bind (bind ?m _) _ = _ => destruct m as [tr1| |q]
    end; cbn [bind]; reflexivity.
  - intros client1 client2 threadData.
    now rewrite !Part005_parseCCStage_data.
Qed.

Lemma C9_classification_is_a_function_witness :
  @outcomeOf inlineConstants thread_qc_1_2
  = @outcomeOf inlineConstants
      {| thread_id := 999; node_id := 758;
         title := "Zapdos [QC 1/2]"; phrase_text := None |}
  /\ forall client1 client2 threadData,
       snd (@Part005.parseCCStage inlineConstants threadData client1)
       = snd (@Part005.parseCCStage inlineConstants threadData client2).
Proof.
  apply (@C9_classification_is_a_function inlineConstants thread_qc_1_2
           {| thread_id := 999; node_id := 758;
              title := "Zapdos [QC 1/2]"; phrase_text := None |});
    reflexivity.
Defined.

(** Whatever the title of an untagged thread, the earliest form reads
    the fixed sample title: stage GP, progress "0/1". *)
Lemma Cnc_classify_untagged (t : IXFStatusQuery) :
  noRecognizedTag (phrase_text t) = true ->
  includes "done" (toLowerCase (title t)) = false ->
  monitored t -> node_id t <> 770%Z ->
  exists g tr, Cnc.classify t = Ok ("GP"%string, "0/1"%string, g, tr).
Proof.
  unfold noRecognizedTag, tagGivesNoStage. cbn [existsb].
  intros Htag Hdone Hmon Hnode.
  destruct (lookup_section (or_introl Hmon)) as (sub & El).
  repeat (apply andb_true_iff in Htag; destruct Htag as [Htag ?]).
  repeat match goal with
         | X : negb _ = true |- _ => apply negb_true_iff in X
         end.
  repeat (apply orb_false_iff in Htag; destruct Htag as [? Htag]).
  apply Z.eqb_neq in Hnode.
  unfold Cnc.classify. cbv zeta.
  repeat match goal with X : _ = false |- _ => rewrite X; clear X end.
  rewrite !sample_progressions, El. vm_compute. eauto.
Qed.

(** C4 fails in [cnc.ts].  Thread 104 has no tag, and its title
    "Landorus-T" holds neither a numeric pattern nor "done"; the later
    classifier gives WIP with empty progress, the earliest form GP with
    progress "0/1", read off the fixed sample title. *)
Theorem C4_cnc_scans_a_fixed_title :
  noRecognizedTag (phrase_text thread_plain) = true /\
  includes "done" (toLowerCase (title thread_plain)) = false /\
  matchAll progressRE 2 (title thread_plain) = [] /\
  matchAll progressRE_cnc 2 (title thread_plain) = [] /\
  Cnc.classify thread_plain = Ok ("GP"%string, "0/1"%string, Some "9"%string, Some "ou"%string) /\
  @Workers.parseThread inlineConstants thread_plain =
    Ok {| thread := thread_plain; gen := [Some "9"%string]; tier := ["ou"%string];
          stage := "WIP"; progress := "" |}.
Proof. repeat split; vm_compute; reflexivity. Qed.

(** ** An unchanged thread (claim C7) *)

(** In the later variant an unchanged thread produces nothing, and the
    loop goes on with the threads after it. *)
Lemma Part005_unchanged_thread_untouched
      (client : Client) (oldData : ICCData)
      (before after : list IXFParsedThreadData) (d : IXFParsedThreadData)
      (old : Status.t) (more : list Status.t) :
  filter (fun othread => Z.eqb (Status.thread_id othread) (thread_id (thread d)))
         (threads oldData) = old :: more ->
  stage d = Status.stage old ->
  progress d = Status.progress old ->
  Part005.threadStep client oldData d = []
  /\ flat_map (Part005.threadStep client oldData) (before ++ d :: after)
     = flat_map (Part005.threadStep client oldData) before
       ++ flat_map (Part005.threadStep client oldData) after.
Proof.
  intros Hold Hs Hp.
  assert (E : Part005.threadStep client oldData d = []).
  { unfold Part005.threadStep. rewrite Hold. unfold changed.
    rewrite Hs, Hp, !String.eqb_refl. reflexivity. }
  split; [exact E|].
  rewrite flat_map_app. cbn [flat_map]. now rewrite E.
Qed.

(** In the earliest form an unchanged thread ends the loop, whatever
    comes after it. *)
Lemma Cnc_unchanged_thread_returns
      (client : Client) (db : DB) (t : IXFStatusQuery) (more : list IXFStatusQuery)
      (s p : string) (g tr : option string) :
  Cnc.classify t = Ok (s, p, g, tr) ->
  changed s p (sqlSelect (thread_id t) (ccstatus db)) = false ->
  Cnc.threadLoop client db (t :: more) = ([], db, Cnc.Returned).
Proof.
  intros Hc Hch. cbn [Cnc.threadLoop]. now rewrite Hc, Hch.
Qed.

(** C7 fails in [cnc.ts].  Thread 100 is cached as WIP and still WIP;
    thread 105 is new.  With 100 first, [findNewThreads] returns at it:
    nothing is posted and the cache is as before, thread 105 is never
    looked at.  Alone, or in the later variant, thread 105 is
    announced and written to the cache. *)
Theorem C7_cnc_unchanged_thread_ends_the_cycle :
  Cnc.findNewThreads clientA dbA [thread_wip; thread_qc_tag]
    = ([], dbA, Cnc.Returned)
  /\ Cnc.findNewThreads clientA dbA [thread_qc_tag]
    = ([ChanSend chanA (threadUrl 105 ++ nl ++ nl ++ "Status: QC 2/2")],
       {| ccstatus := [rowWIP; {| Status.thread_id := 105; Status.stage := "QC";
                                  Status.progress := "2/2" |}];
          ccprefs := [subOU] |},
       Cnc.Finished)
  /\ @Part005.checkCCUpdates inlineConstants clientA dbA [thread_wip; thread_qc_tag]
    = ([ChanSend chanA (threadUrl 105 ++ nl ++ "Status: **QC **");
        CacheUpdate {| Status.thread_id := 105; Status.stage := "QC";
                       Status.progress := "" |} false],
       true).
Proof. repeat split; vm_compute; reflexivity. Qed.

(** ** Eviction and the cached thread ids (claim C2) *)

Lemma applyTrace_app (cache : list Status.t) (tr1 tr2 : list event) :
  applyTrace cache (tr1 ++ tr2) = applyTrace (applyTrace cache tr1) tr2.
Proof. unfold applyTrace. apply fold_left_app. Qed.

Lemma sqlUpsert_In (row r : Status.t) (cache : list Status.t) :
  In r (sqlUpsert row cache) -> In r cache \/ r = row.
Proof.
  unfold sqlUpsert. destruct (existsb _ cache).
  - intros H. apply in_map_iff in H. destruct H as (x & E & Hx).
    destruct (Z.eqb _ _); [right; now subst|left; now subst].
  - intros H. apply in_app_or in H. destruct H as [H|[<-|[]]]; auto.
Qed.

(** A row of the cache after a trace was there before or was written by
    an update of the trace that is not a deletion. *)
Lemma applyTrace_In (tr : list event) :
  forall cache r,
    In r (applyTrace cache tr) ->
    In r cache \/ In (CacheUpdate r false) tr.
Proof.
  induction tr as [|e tr IH]; intros cache r H; [now left|].
  cbn [applyTrace fold_left] in H. apply IH in H.
  destruct H as [H|H]; [|right; now right].
  destruct e as [c msg|d|row del]; cbn [applyEvent] in H; auto.
  unfold updateCCCache in H.
  destruct (del || String.eqb (Status.stage row) "Done") eqn:E.
  - left. unfold sqlDelete in H. now apply filter_In in H.
  - apply sqlUpsert_In in H. destruct H as [H| ->]; [now left|].
    right. left. apply orb_false_iff in E. destruct E as (-> & _). reflexivity.
Qed.

(** After the deletions of the rows [removed], only rows with other
    thread ids are left. *)
Lemma applyTrace_deletions (removed : list Status.t) :
  forall cache r,
    In r (applyTrace cache (map (fun old => CacheUpdate old true) removed)) ->
    In r cache /\ ~ In (Status.thread_id r) (map Status.thread_id removed).
Proof.
  induction removed as [|x removed IH]; intros cache r H; [now split|].
  cbn [map applyTrace fold_left applyEvent] in H.
  apply IH in H. destruct H as (H & Hn).
  unfold updateCCCache in H. cbn [orb] in H.
  unfold sqlDelete in H. apply filter_In in H. destruct H as (H & Hx).
  split; [exact H|].
  intros [E|E]; [|now apply Hn].
  apply negb_true_iff, Z.eqb_neq in Hx. now apply Hx.
Qed.

Lemma existsb_Zeqb_In (x : Z) (l : list Z) :
  existsb (Z.eqb x) l = true <-> In x l.
Proof.
  rewrite existsb_exists. split.
  - intros (y & Hy & E). apply Z.eqb_eq in E. now subst.
  - intros H. exists x. split; [exact H|apply Z.eqb_refl].
Qed.

(** [uncacheRemovedThreads] asks for the deletion of the cached rows
    whose thread id is not among the current ones, and for nothing
    else. *)
Lemma uncacheRemovedThreads_spec
      (currentData : list IXFStatusQuery) (cachedData : ICCData)
      (row : Status.t) (del : bool) :
  In (CacheUpdate row del) (Part005.uncacheRemovedThreads currentData cachedData)
  <-> del = true /\ In row (threads cachedData)
      /\ ~ In (Status.thread_id row) (map thread_id currentData).
Proof.
  unfold Part005.uncacheRemovedThreads. rewrite in_map_iff. split.
  - intros (old & E & H). injection E as -> <-.
    apply filter_In in H. destruct H as (H & Hn).
    apply negb_true_iff in Hn.
    repeat split; [exact H|].
    intros Hin. apply existsb_Zeqb_In in Hin. congruence.
  - intros (-> & H & Hn). exists row. split; [reflexivity|].
    apply filter_In. split; [exact H|].
    apply negb_true_iff. destruct (existsb _ _) eqn:E; [|reflexivity].
    apply existsb_Zeqb_In in E. now destruct Hn.
Qed.

Lemma alertLoop005_no_update (client : Client) (d : IXFParsedThreadData)
      (row : Status.t) (del : bool) :
  forall chans processed,
    ~ In (CacheUpdate row del) (Part005.alertLoop client d chans processed).
Proof.
  induction chans as [|ch chans IH]; intros processed H; [destruct H|].
  cbn [Part005.alertLoop] in H.
  destruct (arrIncludes _ processed); [now apply IH in H|].
  destruct (negb _); [destruct H|].
  destruct H as [H|H]; [discriminate|now apply IH in H].
Qed.

Lemma devSend_no_update (client : Client) (dg : diag) (row : Status.t) (del : bool) :
  ~ In (CacheUpdate row del) (Part005.devSend client dg).
Proof.
  unfold Part005.devSend. destruct (fetch client Part005.devChanId) as [[]|];
    intros H; try destruct H as [H|[]]; try discriminate; destruct H.
Qed.

Lemma alertCCStatus005_no_update (client : Client) (d : IXFParsedThreadData)
      (oldData : ICCData) (row : Status.t) (del : bool) :
  ~ In (CacheUpdate row del) (Part005.alertCCStatus d oldData client).
Proof.
  unfold Part005.alertCCStatus. intros H. apply in_app_or in H.
  destruct H as [H|H]; [now apply devSend_no_update in H|].
  destruct (length _ =? 0); [destruct H|]. now apply alertLoop005_no_update in H.
Qed.

(** The only cache update of one step of the thread loop is the write
    of the thread of that step. *)
Lemma threadStep005_update (client : Client) (oldData : ICCData)
      (d : IXFParsedThreadData) (row : Status.t) (del : bool) :
  In (CacheUpdate row del) (Part005.threadStep client oldData d) ->
  row = statusOf d /\ del = false.
Proof.
  unfold Part005.threadStep. destruct (changed _ _ _); [|intros []].
  intros H. apply in_app_or in H. destruct H as [H|[H|[]]].
  - now apply alertCCStatus005_no_update in H.
  - injection H as <- <-. auto.
Qed.

Section CycleFacts.
Context {K : Constants}.

Lemma parseThread_thread (t : IXFStatusQuery) (d : IXFParsedThreadData) :
  Workers.parseThread t = Ok d -> thread d = t.
Proof.
  unfold Workers.parseThread. intros H.
  repeat match type of H with
         | bind ?m _ = Ok _ =>
             destruct m as [?x| |?q]; cbn [bind] in H; try discriminate H
         | (let '(_, _) := ?x in _) = Ok _ => destruct x
         end.
  injection H as <-. reflexivity.
Qed.

Lemma parseCCStage_threads (threadData : list IXFStatusQuery)
      (parsed : list IXFParsedThreadData) (d : IXFParsedThreadData) :
  Workers.parseCCStage threadData = Some parsed ->
  In d parsed -> In (thread d) threadData.
Proof.
  revert parsed. induction threadData as [|t ts IH]; intros parsed H Hd.
  - injection H as <-. destruct Hd.
  - cbn [Workers.parseCCStage] in H.
    destruct (Workers.parseThread t) as [d0| |q] eqn:Et; [| |discriminate].
    + destruct (Workers.parseCCStage ts) as [l|]; [|discriminate].
      injection H as <-. destruct Hd as [<-|Hd].
      * left. symmetry. now apply parseThread_thread.
      * right. now apply (IH l).
    + right. now apply (IH parsed).
Qed.

Lemma parseThreadDiag_no_update (client : Client) (t : IXFStatusQuery)
      (row : Status.t) (del : bool) :
  ~ In (CacheUpdate row del) (Part005.parseThreadDiag client t).
Proof.
  unfold Part005.parseThreadDiag.
  destruct (bind _ _) as [[[[s1 p2] g0] t0]| |q]; [|intros []|intros []].
  intros H. apply in_app_or in H. destruct H as [H|H].
  - destruct (length g0 =? 0); [|destruct H].
    destruct (Z.eqb (node_id t) 770); [now apply devSend_no_update in H|].
    destruct (Z.eqb (node_id t) 763); [now apply devSend_no_update in H|destruct H].
  - destruct (Workers.parseThread t) as [d| |q]; try destruct H.
    destruct (Z.eqb (node_id t) 763); [now apply devSend_no_update in H|destruct H].
Qed.

Lemma parseCCStage005_no_update (client : Client) (threadData : list IXFStatusQuery)
      (row : Status.t) (del : bool) :
  ~ In (CacheUpdate row del) (fst (Part005.parseCCStage threadData client)).
Proof.
  induction threadData as [|t ts IH]; [intros []|].
  cbn [Part005.parseCCStage].
  destruct (Workers.parseThread t) as [d| |q];
    try (destruct (Part005.parseCCStage ts client) as [tr r]); cbn [fst] in *;
    intros H; try apply in_app_or in H; try destruct H as [H|H];
    try (now apply parseThreadDiag_no_update in H); try (now apply IH in H).
Qed.

End CycleFacts.

Lemma parseCCStage_returns {K : Constants} (threadData : list IXFStatusQuery) :
  Forall monitored threadData ->
  exists parsed, Workers.parseCCStage threadData = Some parsed.
Proof.
  induction 1 as [|t ts Ht _ (parsed & E)]; [now exists []|].
  cbn [Workers.parseCCStage].
  destruct (Workers.parseThread t) as [d| |p] eqn:Et.
  - rewrite E. cbn. eauto.
  - eauto.
  - apply parseThread_no_throw in Et; [destruct Et|now left].
Qed.

(** The cache after a trace that ends with the eviction for the ids
    [current]: when every write before the eviction concerns a current
    id, every row left has a current id. *)
Lemma evicted_cache_subset (cache : list Status.t) (current : list Z)
      (pre : list event) (row : Status.t) :
  (forall r, In (CacheUpdate r false) pre -> In (Status.thread_id r) current) ->
  In row (applyTrace cache
            (pre ++ map (fun old => CacheUpdate old true)
                        (filter (fun othread =>
                                   negb (existsb (Z.eqb (Status.thread_id othread)) current))
                                cache))) ->
  In (Status.thread_id row) current.
Proof.
  intros Hpre H. rewrite applyTrace_app in H.
  apply applyTrace_deletions in H. destruct H as (H & Hn).
  apply applyTrace_In in H. destruct H as [H|H]; [|now apply Hpre].
  destruct (existsb (Z.eqb (Status.thread_id row)) current) eqn:E.
  - now apply existsb_Zeqb_In in E.
  - exfalso. apply Hn. apply in_map. apply filter_In. split; [exact H|].
    now rewrite E.
Qed.

(** C2.  The eviction step asks for the deletion of exactly the cached
    rows whose thread id is absent from the snapshot, and of no row
    whose thread id is present.  A cycle that runs to its end finishes
    with that step; every cache update before it is the write of a
    thread of the snapshot; and the cache it leaves has only thread ids
    of the snapshot.  A cycle over monitored sections does run to its
    end. *)
Theorem C2_eviction_keeps_cache_within_snapshot {K : Constants}
        (client : Client) (db : DB) (threadData : list IXFStatusQuery) :
  (forall row del,
     In (CacheUpdate row del)
        (Part005.uncacheRemovedThreads threadData (loadCCData db))
     <-> del = true /\ In row (ccstatus db)
         /\ ~ In (Status.thread_id row) (map thread_id threadData))
  /\ (forall tr,
        Part005.checkCCUpdates client db threadData = (tr, true) ->
        (exists pre,
           tr = pre ++ Part005.uncacheRemovedThreads threadData (loadCCData db)
           /\ forall row del,
                In (CacheUpdate row del) pre ->
                del = false
                /\ In (Status.thread_id row) (map thread_id threadData))
        /\ forall row,
             In row (applyTrace (ccstatus db) tr) ->
             In (Status.thread_id row) (map thread_id threadData))
  /\ (Forall monitored threadData ->
      exists tr, Part005.checkCCUpdates client db threadData = (tr, true)).
Proof.
  split; [intros row del; apply uncacheRemovedThreads_spec|].
  split.
  - intros tr H. unfold Part005.checkCCUpdates in H.
    destruct (length threadData =? 0) eqn:E0.
    + injection H as <-. split.
      * eexists. split; [reflexivity|].
        intros row del Hin. now apply devSend_no_update in Hin.
      * intros row Hin. apply evicted_cache_subset in Hin; [exact Hin|].
        intros r Hr. now apply devSend_no_update in Hr.
    + pose proof (Part005_parseCCStage_data client threadData) as Edata.
      destruct (Part005.parseCCStage threadData client) as [tr0 [parsed|]] eqn:Ep;
        [|discriminate].
      cbn [snd] in Edata. symmetry in Edata.
      assert (Htr0 : forall row del, ~ In (CacheUpdate row del) tr0).
      { intros row del Hin.
        apply (@parseCCStage005_no_update K client threadData row del).
        now rewrite Ep. }
      injection H as <-.
      set (pre := tr0 ++ (if length parsed =? 0
                          then Part005.devSend client ParseEmpty else [])
                      ++ flat_map (Part005.threadStep client (loadCCData db)) parsed).
      assert (Hpre : forall row del, In (CacheUpdate row del) pre ->
                                     del = false /\
                                     In (Status.thread_id row) (map thread_id threadData)).
      { intros row del Hin. unfold pre in Hin.
        apply in_app_or in Hin. destruct Hin as [Hin|Hin]; [now apply Htr0 in Hin|].
        apply in_app_or in Hin. destruct Hin as [Hin|Hin].
        - destruct (length parsed =? 0); [now apply devSend_no_update in Hin|destruct Hin].
        - apply in_flat_map in Hin. destruct Hin as (d & Hd & Hin).
          apply threadStep005_update in Hin. destruct Hin as (-> & ->).
          split; [reflexivity|]. cbn [statusOf Status.thread_id].
          apply in_map. exact (@parseCCStage_threads K threadData parsed d Edata Hd). }
      assert (Etr : (tr0 ++ (if length parsed =? 0
                             then Part005.devSend client ParseEmpty else [])
                         ++ flat_map (Part005.threadStep client (loadCCData db)) parsed
                         ++ Part005.uncacheRemovedThreads threadData (loadCCData db))
                    = pre ++ Part005.uncacheRemovedThreads threadData (loadCCData db)).
      { unfold pre. now rewrite <- !app_assoc. }
      rewrite Etr. split.
      * exists pre. split; [reflexivity|exact Hpre].
      * intros row Hin. apply evicted_cache_subset in Hin; [exact Hin|].
        intros r Hr. now apply Hpre in Hr.
  - intros Hmon. unfold Part005.checkCCUpdates.
    destruct (length threadData =? 0); [eauto|].
    pose proof (Part005_parseCCStage_data client threadData) as Edata.
    destruct (parseCCStage_returns Hmon) as (parsed & Ep).
    destruct (Part005.parseCCStage threadData client) as [tr0 r].
    cbn [snd] in Edata. rewrite Edata, Ep. eauto.
Qed.

Lemma C2_eviction_keeps_cache_within_snapshot_witness :
  (forall row,
     In row (applyTrace (ccstatus dbA)
               (fst (@Part005.checkCCUpdates inlineConstants clientA dbA
                       [thread_qc_tag]))) ->
     In (Status.thread_id row) (map thread_id [thread_qc_tag]))
  /\ exists tr,
       @Part005.checkCCUpdates inlineConstants clientA dbA [thread_qc_tag] = (tr, true).
Proof.
  destruct (@C2_eviction_keeps_cache_within_snapshot inlineConstants clientA dbA
              [thread_qc_tag]) as (_ & H2 & H3).
  split.
  - apply (H2 (fst (@Part005.checkCCUpdates inlineConstants clientA dbA
                      [thread_qc_tag]))).
    vm_compute. reflexivity.
  - apply H3. repeat constructor. vm_compute. discriminate.
Defined.

(** ** Notifications (claims C6 and C8) *)

Lemma arrIncludes_In (x : string) (l : list string) :
  arrIncludes x l = true <-> In x l.
Proof.
  unfold arrIncludes. rewrite existsb_exists. split.
  - intros (y & Hy & E). apply String.eqb_eq in E. now subst.
  - intros H. exists x. split; [exact H|apply String.eqb_refl].
Qed.

Lemma sentTo_cons (c h msg : string) (tr : list event) :
  sentTo c (ChanSend h msg :: tr)
  = (if String.eqb h c then 1 else 0) + sentTo c tr.
Proof. unfold sentTo. cbn [filter]. now destruct (String.eqb h c). Qed.

Lemma sentTo_app (c : string) (tr1 tr2 : list event) :
  sentTo c (tr1 ++ tr2) = sentTo c tr1 + sentTo c tr2.
Proof. unfold sentTo. now rewrite filter_app, length_app. Qed.

(** The loop never posts to a channel it has processed, and posts at
    most once to any other. *)
Lemma alertLoop005_sentTo (client : Client) (d : IXFParsedThreadData) (c : string) :
  forall chans processed,
    (In c processed -> sentTo c (Part005.alertLoop client d chans processed) = 0)
    /\ sentTo c (Part005.alertLoop client d chans processed) <= 1.
Proof.
  induction chans as [|ch chans IH]; intros processed.
  - split; [reflexivity|cbn; lia].
  - cbn [Part005.alertLoop].
    destruct (arrIncludes (AlertChan.channelid ch) processed) eqn:Einc; [apply IH|].
    destruct (negb _); [split; [reflexivity|cbn; lia]|].
    cbv zeta. rewrite sentTo_cons.
    destruct (IH (processed ++ [AlertChan.channelid ch])) as (IH0 & IH1).
    destruct (String.eqb (AlertChan.channelid ch) c) eqn:Ec.
    + apply String.eqb_eq in Ec. subst c.
      assert (Hin : In (AlertChan.channelid ch) (processed ++ [AlertChan.channelid ch]))
        by (apply in_or_app; right; now left).
      rewrite (IH0 Hin). split; [|lia].
      intros Hp. apply arrIncludes_In in Hp. congruence.
    + split; [|exact IH1].
      intros Hp. apply IH0. apply in_or_app. now left.
Qed.

Lemma devSend_sentTo (client : Client) (dg : diag) (c : string) :
  sentTo c (Part005.devSend client dg) = 0.
Proof.
  unfold Part005.devSend. now destruct (fetch client Part005.devChanId) as [[]|].
Qed.

(** C8.  Within one cycle, the step of the thread loop for one thread
    posts at most one notification to any channel id, whatever the
    subscriptions are, several rows naming the same channel included.
    (Diagnostic posts to the developer channel are not
    notifications.) *)
Theorem C8_one_notification_per_channel
        (client : Client) (oldData : ICCData) (newThreadData : IXFParsedThreadData)
        (c : string) :
  sentTo c (Part005.threadStep client oldData newThreadData) <= 1.
Proof.
  unfold Part005.threadStep.
  destruct (changed _ _ _); [|cbn; lia].
  rewrite sentTo_app. unfold Part005.alertCCStatus.
  rewrite sentTo_app, devSend_sentTo.
  replace (sentTo c [CacheUpdate (statusOf newThreadData) false]) with 0
    by reflexivity.
  destruct (length _ =? 0); [cbn; lia|].
  pose proof (alertLoop005_sentTo client newThreadData c
                (matchingChans newThreadData oldData) []) as (_ & H).
  lia.
Qed.

(** Two subscriptions of one channel, both matching: one post. *)
Lemma one_post_for_two_rows :
  matchingChans parsed_qc_0_2 dataA = [subOU; subUU]
  /\ Part005.threadStep clientA dataA parsed_qc_0_2
     = [ChanSend chanA (threadUrl 100 ++ nl ++ "Status: **Ready for QC**");
        CacheUpdate {| Status.thread_id := 100; Status.stage := "QC";
                       Status.progress := "0/2" |} false].
Proof. split; vm_compute; reflexivity. Qed.









Lemma chanSends_devSend (client : Client) (dg : diag) :
  chanSends (Part005.devSend client dg) = [].
Proof.
  unfold Part005.devSend. now destruct (fetch client Part005.devChanId) as [[]|].
Qed.




(** ** The examples of the specification *)

(** "QC 2/2" with "GP 0/1" is GP at "0/1"; "QC 1/2" with "GP 0/1" is QC
    at "1/2". *)
Lemma example_two_matches :
  @outcomeOf inlineConstants thread_qc_gp
  = Ok ("GP"%string, "0/1"%string, [Some "9"%string], ["ou"%string])
  /\ @outcomeOf inlineConstants thread_qc_1_2_gp_0_1
     = Ok ("QC"%string, "1/2"%string, [Some "9"%string], ["ou"%string]).
Proof. split; vm_compute; reflexivity. Qed.

(** A tag "Resource" skips the thread whatever the title. *)
Lemma example_resource_skipped {K : Constants} (t : IXFStatusQuery) :
  phrase_text t = Some "Resource"%string -> Workers.parseThread t = Continue.
Proof.
  intros E. unfold Workers.parseThread, Workers.parsePrefix. now rewrite E.
Qed.

(** Thread 100 at "QC 0/2" with no cache entry: one "Ready for QC" post
    to the subscribed channel and the write of (100, QC, "0/2").  The
    same thread in the next cycle: no post, no write.  Another snapshot
    without thread 100: its cache entry is deleted and nothing is
    posted about it. *)
Lemma example_end_to_end :
  @Part005.checkCCUpdates inlineConstants clientA dbEmpty [thread_qc_0_2]
  = ([ChanSend chanA (threadUrl 100 ++ nl ++ "Status: **Ready for QC**");
      CacheUpdate rowQC02 false], true)
  /\ applyTrace (ccstatus dbEmpty)
       (fst (@Part005.checkCCUpdates inlineConstants clientA dbEmpty [thread_qc_0_2]))
     = [rowQC02]
  /\ @Part005.checkCCUpdates inlineConstants clientA dbCached [thread_qc_0_2]
     = ([], true)
  /\ @Part005.checkCCUpdates inlineConstants clientA dbCached []
     = ([CacheUpdate rowQC02 true], true)
  /\ applyTrace (ccstatus dbCached)
       (fst (@Part005.checkCCUpdates inlineConstants clientA dbCached []))
     = [].
Proof. repeat split; vm_compute; reflexivity. Qed.

(** * Further properties *)

(** ** What every classified thread satisfies *)

Lemma existsb_false_filter {A : Type} (f : A -> bool) (l : list A) :
  existsb f l = false -> filter f l = [].
Proof.
  induction l as [|x l IH]; cbn; [reflexivity|].
  destruct (f x); cbn; [discriminate|exact IH].
Qed.

Lemma lookup_In {A : Type} (key : string) (obj : list (string * A)) (v : A) :
  lookup key obj = Some v -> In (key, v) obj.
Proof.
  induction obj as [|[k x] obj IH]; cbn; [discriminate|].
  destruct (String.eqb key k) eqn:E.
  - intros H. injection H as ->. apply String.eqb_eq in E. subst. now left.
  - intros H. right. now apply IH.
Qed.

(** Every entry of the section table lists a generation and a tier. *)
Lemma ccSubObj_nonempty (key : string) (sub : Sub.t) :
  lookup key ccSubObj = Some sub -> Sub.gens sub <> [] /\ Sub.tiers sub <> [].
Proof.
  intros H. apply lookup_In in H.
  assert (F : forallb (fun e => negb (length (Sub.gens (snd e)) =? 0)
                                && negb (length (Sub.tiers (snd e)) =? 0))
                      ccSubObj = true) by (vm_compute; reflexivity).
  rewrite forallb_forall in F. specialize (F _ H). cbn [snd] in F.
  apply andb_true_iff in F. destruct F as (F1 & F2).
  split; intros E; rewrite E in *; discriminate.
Qed.

(** ** The generation pattern: what a non-empty match reads *)

Lemma foldsAlike_spec (c x : ascii) :
  foldsAlike c = true -> ci c x = true -> lowerChar x = lowerChar c.
Proof.
  unfold foldsAlike. rewrite forallb_forall. intros H Hx.
  specialize (H (nat_of_ascii x)). cbv zeta in H.
  rewrite ascii_nat_embedding, Hx in H. cbn [implb] in H.
  apply Ascii.eqb_eq. apply H. apply in_seq.
  pose proof (nat_ascii_bounded x). lia.
Qed.

Lemma run_lit_inv (s : string) :
  forall st st',
    forallb foldsAlike (list_ascii_of_string s) = true ->
    In st' (run (lit s) st) ->
    exists w, rest st = (w ++ rest st')%string /\ caps st' = caps st
              /\ toLowerCase w = toLowerCase s.
Proof.
  induction s as [|c s IH]; intros st st' Hf H.
  - cbn in H. destruct H as [<-|[]]. exists ""%string. auto.
  - cbn [list_ascii_of_string forallb] in Hf.
    apply andb_true_iff in Hf. destruct Hf as (Hc & Hs).
    destruct s as [|c' s'].
    + cbn [lit] in H. apply run_Chr_inv in H. destruct H as (x & E & P & C).
      exists (String x ""). cbn. rewrite (foldsAlike_spec _ _ Hc P). auto.
    + change (lit (String c (String c' s')))
        with (Cat (Chr (ci c)) (lit (String c' s'))) in H.
      apply run_Cat_inv in H. destruct H as (s1 & H1 & H2).
      apply run_Chr_inv in H1. destruct H1 as (x & E & P & C).
      destruct (IH s1 st' Hs H2) as (w & Ew & Cw & Lw).
      exists (String x w). cbn [append toLowerCase].
      rewrite E, Ew, (foldsAlike_spec _ _ Hc P), Lw. split; [reflexivity|].
      split; [congruence|reflexivity].
Qed.

Lemma run_alts_inv (l : list regex) (st st' : mstate) :
  In st' (run (alts l) st) -> exists r, In r l /\ In st' (run r st).
Proof.
  induction l as [|r l IH]; cbn [alts].
  - intros H. apply run_Chr_inv in H. destruct H as (c & _ & P & _). discriminate.
  - destruct l as [|r' l'].
    + intros H. exists r. split; [now left|exact H].
    + intros H. apply run_Alt_inv in H. destruct H as [H|H].
      * exists r. split; [now left|exact H].
      * destruct (IH H) as (r0 & Hin & Hr). exists r0. split; [now right|exact Hr].
Qed.

Lemma genWords_fold :
  forallb (fun w => forallb foldsAlike (list_ascii_of_string w)) genWords = true.
Proof. vm_compute. reflexivity. Qed.

Lemma run_genWords_inv (st st' : mstate) :
  In st' (run (alts (map lit genWords)) st) ->
  caps st' = caps st /\ In (toLowerCase (consumed st st')) (map toLowerCase genWords).
Proof.
  intros H. apply run_alts_inv in H. destruct H as (r & Hr & H).
  apply in_map_iff in Hr. destruct Hr as (word & <- & Hw).
  pose proof genWords_fold as F. rewrite forallb_forall in F.
  destruct (@run_lit_inv word st st' (F _ Hw) H) as (w & E & C & L).
  split; [exact C|].
  rewrite (@consumed_suffix st st' w E), L. now apply in_map.
Qed.

Lemma digit_token (c : ascii) :
  inRange 49 57 c = true -> In (toLowerCase (String c "")) genTokens.
Proof.
  intros H. destruct c as [[] [] [] [] [] [] [] []]; try discriminate H;
    cbn; tauto.
Qed.

Lemma genCapturedIn_set3 (i : nat) (v : option string) (c : ascii) (l : jsmatch) :
  length l = 5 -> i < 3 -> inRange 49 57 c = true ->
  genCapturedIn (setNth i v (setNth 3 (Some (String c "")) l)).
Proof.
  intros L Hi Hc.
  destruct l as [|x0 [|x1 [|x2 [|x3 [|x4 [|]]]]]]; try discriminate.
  destruct i as [|[|[|]]]; try lia; (split; [reflexivity|]);
    exists (String c ""); (split; [reflexivity|now apply digit_token]).
Qed.

Lemma genCapturedIn_set4 (i : nat) (v : option string) (g : string) (l : jsmatch) :
  length l = 5 -> i < 3 -> at_ 3 l = None ->
  In (toLowerCase g) (map toLowerCase genWords) ->
  genCapturedIn (setNth i v (setNth 4 (Some g) l)).
Proof.
  intros L Hi H3 Hg.
  destruct l as [|x0 [|x1 [|x2 [|x3 [|x4 [|]]]]]]; try discriminate.
  cbn in H3. subst x3.
  destruct i as [|[|[|]]]; try lia; (split; [reflexivity|]);
    exists g; (split; [reflexivity|]); unfold genTokens; apply in_or_app; now right.
Qed.

Lemma genCapturedIn_set0 (v : option string) (l : jsmatch) :
  genCapturedIn l -> genCapturedIn (setNth 0 v l).
Proof.
  intros (L & H).
  destruct l as [|x0 [|x1 [|x2 [|x3 [|x4 [|]]]]]]; try discriminate.
  split; [reflexivity | exact H].
Qed.

Lemma clearGroups_at_3 (gs : list nat) (st : mstate) :
  In 3 gs -> length (caps st) = 5 -> at_ 3 (caps (clearGroups gs st)) = None.
Proof.
  unfold clearGroups. cbn [caps]. intros Hin L.
  induction gs as [|g gs IH]; [destruct Hin|]. cbn [fold_right].
  assert (L' : length (fold_right (fun i c => setNth i None c) (caps st) gs) = 5).
  { clear IH Hin. induction gs as [|g' gs IH]; cbn [fold_right]; [exact L|].
    now rewrite setNth_length. }
  destruct (fold_right (fun i c => setNth i None c) (caps st) gs)
    as [|x0 [|x1 [|x2 [|x3 [|x4 [|]]]]]] eqn:E; try discriminate L'.
  destruct Hin as [->|Hin]; [reflexivity|].
  specialize (IH Hin). cbn in IH. subst x3.
  destruct g as [|[|[|[|[|]]]]]; reflexivity.
Qed.

Section GenTokens.

Variables (word sp : regex).

Lemma genBody_token (st st' : mstate) :
  length (caps st) = 5 -> at_ 3 (caps st) = None ->
  In st' (run (genBody word sp (alts (map lit genWords))) st) ->
  genCapturedIn (caps st').
Proof.
  intros L N3 H. unfold genBody in H.
  apply run_Grp_inv in H. destruct H as (s1 & H & ->). cbn [caps].
  apply run_Alt_inv in H. destruct H as [H|H].
  - apply run_Cat_inv in H. destruct H as (x1 & H1 & H).
    apply run_Cat_inv in H. destruct H as (x2 & H2 & H3).
    apply run_Grp_inv in H3. destruct H3 as (x3 & H3 & ->). cbn [caps].
    pose proof (run_caps_length _ _ _ H1) as L1.
    pose proof (run_caps_length _ _ _ H2) as L2.
    pose proof (run_caps_length _ _ _ H3) as L3.
    apply run_Chr_inv in H3. destruct H3 as (c & E & P & _).
    rewrite (@consumed_suffix x2 x3 (String c "") E).
    apply genCapturedIn_set3; [congruence | lia | exact P].
  - apply run_Grp_inv in H. destruct H as (x1 & H1 & ->). cbn [caps].
    apply run_genWords_inv in H1. destruct H1 as (C & Hw).
    apply genCapturedIn_set4; [congruence | lia | congruence | exact Hw].
Qed.

Lemma genStar_token (gs : list nat) :
  In 3 gs ->
  forall n st st',
    length (caps st) = 5 ->
    In st' (repeatUpto (run (genBody word sp (alts (map lit genWords)))) gs n st) ->
    st' = st \/ genCapturedIn (caps st').
Proof.
  intros Hgs.
  induction n as [|n IH]; intros st st' L H; simpl in H.
  - destruct H as [<-|[]]. now left.
  - apply in_app_or in H. destruct H as [H|[<-|[]]]; [|now left].
    apply in_flat_map in H. destruct H as (s1 & H1 & H2).
    destruct (advanced st s1); [|destruct H2].
    apply genBody_token in H1;
      [|now rewrite clearGroups_length|now apply clearGroups_at_3].
    right. apply IH in H2; [|apply H1].
    destruct H2 as [->|H2]; assumption.
Qed.

End GenTokens.

Lemma execAt_genRegex_token (p : option ascii) (s : string) (m : jsmatch) (len : nat) :
  execAt genRegex 4 p s = Some (m, len) ->
  at_ 0 m = Some ""%string
  \/ exists w, genToken m = Some w /\ In (toLowerCase w) genTokens.
Proof.
  unfold execAt.
  set (st0 := MState p s (repeat None 5)).
  destruct (run genRegex st0) as [|st' l] eqn:E; [discriminate|].
  intros H. injection H as <- _.
  assert (Hin : In st' (run genRegex st0)) by (rewrite E; now left).
  clear E. unfold genRegex in Hin.
  apply run_Cat_inv in Hin. destruct Hin as (s1 & H1 & Hin).
  apply run_Bound_inv in H1. subst s1.
  apply run_Cat_inv in Hin. destruct Hin as (s2 & H2 & H3).
  apply run_Bound_inv in H3. subst s2.
  rewrite run_Star_eq in H2.
  apply (@genStar_token (alts [lit "Gen"; lit "G"; lit "Generation"])
           (Star (Chr isSpace))) in H2; [|cbn; tauto|reflexivity].
  destruct H2 as [->|H2].
  - left. unfold consumed. rewrite Nat.sub_diag, substring_0_0. reflexivity.
  - right. apply (genCapturedIn_set0 (Some (consumed st0 st'))) in H2.
    now destruct H2 as (L & H2).
Qed.

Lemma jsMatch_genRegex_token (s : string) (m : jsmatch) :
  jsMatch genRegex 4 s = Some m ->
  at_ 0 m = Some ""%string
  \/ exists w, genToken m = Some w /\ In (toLowerCase w) genTokens.
Proof.
  unfold jsMatch. intros H. apply searchFrom_inv in H.
  destruct H as (p & s' & len & H). eapply execAt_genRegex_token; eauto.
Qed.

Section ClassifierInvariants.
Context {K : Constants}.

Lemma parsePrefix_stage (phrase : option string) (s : string)
      (g : list (option string)) (tr : list string) :
  Workers.parsePrefix phrase = Ok (s, g, tr) ->
  In s [""; "WIP"; "QC"; "GP"; "HTML"; "Done"]%string.
Proof.
  unfold Workers.parsePrefix.
  repeat match goal with
         | |- (if ?b then _ else _) = _ -> _ => destruct b
         | |- match ?x with Some _ => _ | None => _ end = _ -> _ => destruct x
         end;
    intros H; try discriminate H; injection H as <- <- <-; cbn; auto 7.
Qed.

(** The tag gives a generation or a tier, never both. *)
Lemma parsePrefix_gen_or_tier (phrase : option string) (s : string)
      (g : list (option string)) (tr : list string) :
  Workers.parsePrefix phrase = Ok (s, g, tr) -> g = [] \/ tr = [].
Proof.
  unfold Workers.parsePrefix.
  repeat match goal with
         | |- (if ?b then _ else _) = _ -> _ => destruct b
         | |- match ?x with Some _ => _ | None => _ end = _ -> _ => destruct x
         end;
    intros H; try discriminate H; injection H as <- <- <-; auto.
Qed.

Lemma inferStage_vocabulary (ti s p : string) :
  Workers.inferStage ti = Ok (s, p) ->
  (s = "WIP" /\ p = "")%string \/ (s = "Done" /\ p = "")%string
  \/ s = "QC"%string \/ s = "GP"%string.
Proof.
  unfold Workers.inferStage. cbv zeta.
  repeat match goal with
         | |- (if ?b then _ else _) = _ -> _ => destruct b
         | |- bind ?m _ = _ -> _ => destruct m; cbn [bind]
         end;
    intros H; try discriminate H; injection H as <- <-; auto.
Qed.

Lemma backfillProgress_stage (ti st p : string) :
  Workers.backfillProgress ti st = Ok p ->
  p = ""%string \/ st = "GP"%string \/ st = "QC"%string.
Proof.
  unfold Workers.backfillProgress. cbv zeta.
  destruct (String.eqb st "GP") eqn:Eg;
    [apply String.eqb_eq in Eg; auto|].
  destruct (String.eqb st "QC") eqn:Eq;
    [apply String.eqb_eq in Eq; auto|].
  cbn [orb]. intros H. injection H as <-. now left.
Qed.

(** X1.  The stage of a classified thread is one of the five stage labels,
    and its progress is empty unless the stage is QC or GP. *)
Theorem parseThread_stage_vocabulary (t : IXFStatusQuery) (d : IXFParsedThreadData) :
  Workers.parseThread t = Ok d ->
  In (stage d) ["WIP"; "QC"; "GP"; "HTML"; "Done"]%string
  /\ (progress d <> ""%string -> stage d = "QC"%string \/ stage d = "GP"%string).
Proof.
  unfold Workers.parseThread. intros H.
  destruct (Workers.parsePrefix (phrase_text t)) as [[[s0 g0] t0]| |q] eqn:Ep;
    cbn [bind] in H; try discriminate H.
  apply parsePrefix_stage in Ep.
  assert (S1 : forall s1 p1,
             (if String.eqb s0 "" then Workers.inferStage (title t)
              else Ok (s0, ""%string)) = Ok (s1, p1) ->
             In s1 ["WIP"; "QC"; "GP"; "HTML"; "Done"]%string
             /\ (p1 <> ""%string -> s1 = "QC"%string \/ s1 = "GP"%string)).
  { intros s1 p1. destruct (String.eqb s0 "") eqn:E0.
    - intros Hi. apply inferStage_vocabulary in Hi.
      destruct Hi as [(-> & ->)|[(-> & ->)|[->| ->]]]; cbn; intuition congruence.
    - intros Hi. injection Hi as <- <-.
      split; [|intros X; now destruct X].
      cbn in Ep. destruct Ep as [<-|Ep]; [discriminate E0|exact Ep]. }
  destruct (if String.eqb s0 "" then Workers.inferStage (title t)
            else Ok (s0, ""%string)) as [[s1 p1]| |q]; cbn [bind] in H;
    try discriminate H.
  destruct (S1 s1 p1 eq_refl) as (V1 & V2).
  destruct (if String.eqb p1 "" then Workers.backfillProgress (title t) s1
            else Ok p1) as [p2| |q] eqn:Eb; cbn [bind] in H; try discriminate H.
  destruct (if length g0 =? 0 then Workers.resolveGen t else Ok g0)
    as [g1| |q]; cbn [bind] in H; try discriminate H.
  destruct (if length t0 =? 0 then Workers.resolveTier t else Ok t0)
    as [t1| |q]; cbn [bind] in H; try discriminate H.
  injection H as <-. cbn [stage progress]. split; [exact V1|].
  intros Hp. destruct (String.eqb p1 "") eqn:E1.
  - apply backfillProgress_stage in Eb.
    destruct Eb as [->|[->| ->]]; auto; now destruct Hp.
  - injection Eb as <-. auto.
Qed.

Lemma resolveGen_defined (t : IXFStatusQuery) (g : list (option string)) :
  definesGenerations K ->
  Workers.resolveGen t = Ok g -> g <> [] /\ Forall (fun x => x <> None) g.
Proof.
  intros Hgens. unfold Workers.resolveGen.
  destruct (Z.eqb (node_id t) 770).
  - destruct (jsMatch genRegex 4 (title t)) as [m|] eqn:Em; [|discriminate].
    destruct (optEqb (at_ 0 m) (Some ""%string)) eqn:E0; cbn [negb]; [discriminate|].
    destruct (jsMatch_genRegex_token _ Em) as [H|(w & Hw & Hin)].
    + rewrite H in E0. discriminate.
    + unfold genToken in Hw. rewrite Hw. cbn [defined bind].
      intros H. injection H as <-. split; [discriminate|].
      constructor; [|constructor].
      unfold definesGenerations in Hgens. rewrite Forall_forall in Hgens.
      now apply Hgens.
  - destruct (lookup (toString (node_id t)) ccSubObj) as [sub|] eqn:El;
      cbn [defined bind]; [|discriminate].
    intros H. injection H as <-.
    destruct (ccSubObj_nonempty _ El) as (Hg & _).
    split; [destruct (Sub.gens sub); [now destruct Hg|discriminate]|].
    apply Forall_forall. intros x Hx. apply in_map_iff in Hx.
    destruct Hx as (y & <- & _). discriminate.
Qed.

Lemma resolveTier_nonempty (t : IXFStatusQuery) (tr : list string) :
  Workers.resolveTier t = Ok tr -> tr <> [].
Proof.
  unfold Workers.resolveTier.
  destruct (lookup (toString (node_id t)) ccSubObj) as [sub|] eqn:El;
    cbn [defined bind]; [|discriminate].
  intros H. injection H as <-. now destruct (ccSubObj_nonempty _ El).
Qed.

(** A generation that the tag gives is a digit, never [undefined]. *)
Lemma parsePrefix_gen_defined (phrase : option string) (s : string)
      (g : list (option string)) (tr : list string) :
  Workers.parsePrefix phrase = Ok (s, g, tr) -> Forall (fun x => x <> None) g.
Proof.
  unfold Workers.parsePrefix.
  repeat match goal with
         | |- (if ?b then _ else _) = _ -> _ => destruct b
         | |- match ?x with Some _ => _ | None => _ end = _ -> _ => destruct x
         end;
    intros H; try discriminate H; injection H as <- <- <-;
    repeat constructor; discriminate.
Qed.

(** X2.  When the [gens] table has an entry for every token the title
    pattern can read (the nine digits and the twenty-one words, in lower
    case), a classified thread has at least one generation, none of its
    generations is [undefined], and it has at least one tier. *)
Theorem parseThread_gen_tier_nonempty (t : IXFStatusQuery) (d : IXFParsedThreadData) :
  definesGenerations K ->
  Workers.parseThread t = Ok d ->
  gen d <> [] /\ Forall (fun g => g <> None) (gen d) /\ tier d <> [].
Proof.
  intros Hgens. unfold Workers.parseThread. intros H.
  destruct (Workers.parsePrefix (phrase_text t)) as [[[s0 g0] t0]| |q] eqn:Ep;
    cbn [bind] in H; try discriminate H.
  apply parsePrefix_gen_defined in Ep.
  destruct (if String.eqb s0 "" then Workers.inferStage (title t)
            else Ok (s0, ""%string)) as [[s1 p1]| |q]; cbn [bind] in H;
    try discriminate H.
  destruct (if String.eqb p1 "" then Workers.backfillProgress (title t) s1
            else Ok p1) as [p2| |q]; cbn [bind] in H; try discriminate H.
  destruct (if length g0 =? 0 then Workers.resolveGen t else Ok g0)
    as [g1| |q] eqn:Eg; cbn [bind] in H; try discriminate H.
  destruct (if length t0 =? 0 then Workers.resolveTier t else Ok t0)
    as [t1| |q] eqn:Et; cbn [bind] in H; try discriminate H.
  injection H as <-. cbn [gen tier].
  assert (Hg : g1 <> [] /\ Forall (fun g => g <> None) g1).
  { destruct g0 as [|a0 g0]; cbn [length Nat.eqb] in Eg.
    - now apply resolveGen_defined in Eg.
    - injection Eg as <-. split; [discriminate|exact Ep]. }
  assert (Ht : t1 <> []).
  { destruct t0 as [|b0 t0]; cbn [length Nat.eqb] in Et.
    - now apply resolveTier_nonempty in Et.
    - injection Et as <-. discriminate. }
  tauto.
Qed.

(** X3.  A thread of a section that is not in the table is never
    classified: its iteration skips it or throws. *)
Theorem parseThread_unmonitored (t : IXFStatusQuery) (d : IXFParsedThreadData) :
  ~ monitored t -> Workers.parseThread t <> Ok d.
Proof.
  intros Hm H. unfold monitored in Hm.
  assert (El : lookup (toString (node_id t)) ccSubObj = None).
  { destruct (lookup (toString (node_id t)) ccSubObj); [|reflexivity].
    exfalso. apply Hm. discriminate. }
  assert (Hn : Z.eqb (node_id t) 770 = false).
  { destruct (Z.eqb (node_id t) 770) eqn:E; [|reflexivity].
    apply Z.eqb_eq in E. rewrite E in El. vm_compute in El. discriminate. }
  unfold Workers.parseThread in H.
  destruct (Workers.parsePrefix (phrase_text t)) as [[[s0 g0] t0]| |q] eqn:Ep;
    cbn [bind] in H; try discriminate H.
  apply parsePrefix_gen_or_tier in Ep.
  destruct (if String.eqb s0 "" then Workers.inferStage (title t)
            else Ok (s0, ""%string)) as [[s1 p1]| |q]; cbn [bind] in H;
    try discriminate H.
  destruct (if String.eqb p1 "" then Workers.backfillProgress (title t) s1
            else Ok p1) as [p2| |q]; cbn [bind] in H; try discriminate H.
  destruct Ep as [-> | ->]; cbn [length Nat.eqb] in H.
  - unfold Workers.resolveGen in H. rewrite Hn, El in H. discriminate H.
  - destruct (if length g0 =? 0 then Workers.resolveGen t else Ok g0)
      as [g1| |q]; cbn [bind] in H; try discriminate H.
    unfold Workers.resolveTier in H. rewrite El in H. discriminate H.
Qed.

(** ** The title heuristic: one GP match, or several of one kind *)

Lemma inferStage_single_gp (ti : string) (m : jsmatch) (a b : ascii) :
  includes "done" (toLowerCase ti) = false ->
  Workers.progressions ti = [m] ->
  Workers.tagged "gp" m = true ->
  digitsOf m = Some (a, b) ->
  plainSpaces m = true ->
  Workers.inferStage ti =
    Ok (if Ascii.eqb a b then ("Done", "") else ("GP", frac a b))%string.
Proof.
  intros Hdone Hprog Hgp Hdig Hplain.
  assert (Hin : In m (Workers.progressions ti)) by (rewrite Hprog; now left).
  destruct (progressions_shape _ _ Hin) as (g1 & g2 & a' & b' & Sh).
  rewrite (progressMatch_digitsOf Sh) in Hdig. injection Hdig as -> ->.
  destruct (progressMatch_plain Sh Hplain) as (Erm & Da & Db).
  unfold Workers.inferStage. rewrite Hprog, Hdone.
  cbn [length Nat.eqb Nat.leb existsb filter]. rewrite Hgp.
  cbn [orb nth_error defined bind].
  rewrite (progressMatch_progressOf Sh). cbn [bind]. rewrite Erm.
  rewrite sidesDiffer_frac by assumption. rewrite negb_involutive.
  now destruct (Ascii.eqb a b).
Qed.

(** X4.  A thread whose tag leaves the stage open, whose title does not
    contain "done" and has exactly one match, tagged GP, with digits
    [a] and [b] and no white space but spaces in its numeric group:
    whenever the classifier pushes the thread, the stage is Done with
    empty progress if [a = b], and GP with progress [a/b] otherwise;
    and it does push it in every monitored section other than 770. *)
Theorem parseThread_single_gp_match
        (t : IXFStatusQuery) (m : jsmatch) (a b : ascii) :
  tagGivesNoStage (phrase_text t) = true ->
  includes "done" (toLowerCase (title t)) = false ->
  Workers.progressions (title t) = [m] ->
  Workers.tagged "gp" m = true ->
  digitsOf m = Some (a, b) ->
  plainSpaces m = true ->
  (forall d, Workers.parseThread t = Ok d ->
             (stage d, progress d)
             = (if Ascii.eqb a b then ("Done", "") else ("GP", frac a b))%string)
  /\ (monitored t -> node_id t <> 770%Z -> exists d, Workers.parseThread t = Ok d).
Proof.
  intros Htag Hdone Hprog Hgp Hdig Hplain.
  pose proof (inferStage_single_gp _ Hdone Hprog Hgp Hdig Hplain) as Hst.
  destruct (Ascii.eqb a b).
  - destruct (@parseThread_stage_from_title K t "Done" "" Htag Hst) as (H1 & H2);
      [now right|].
    split; [|exact H2]. intros d Hd. destruct (H1 d Hd) as (-> & ->). reflexivity.
  - destruct (@parseThread_stage_from_title K t "GP" (frac a b) Htag Hst) as (H1 & H2);
      [left; discriminate|].
    split; [|exact H2]. intros d Hd. destruct (H1 d Hd) as (-> & ->). reflexivity.
Qed.

(** X5.  A thread whose tag leaves the stage open and whose title, without
    "done", has two or more matches that lack a GP match or lack a QC
    match is skipped. *)
Theorem parseThread_matches_of_one_kind (t : IXFStatusQuery) :
  tagGivesNoStage (phrase_text t) = true ->
  includes "done" (toLowerCase (title t)) = false ->
  2 <= length (Workers.progressions (title t)) ->
  existsb (Workers.tagged "gp") (Workers.progressions (title t)) = false
  \/ existsb (Workers.tagged "qc") (Workers.progressions (title t)) = false ->
  Workers.parseThread t = Continue.
Proof.
  intros Htag Hdone Hlen Hkind.
  destruct (parsePrefix_no_stage _ Htag) as (g0 & t0 & Epre).
  unfold Workers.parseThread. rewrite Epre. cbn [bind String.eqb].
  assert (E : Workers.inferStage (title t) = Continue).
  { unfold Workers.inferStage. cbv zeta.
    destruct (length (Workers.progressions (title t)) =? 0) eqn:E0;
      [apply Nat.eqb_eq in E0; lia|].
    rewrite Hdone.
    destruct (2 <=? length (Workers.progressions (title t))) eqn:E2;
      [|apply Nat.leb_gt in E2; lia].
    destruct (filter (Workers.tagged "gp") (Workers.progressions (title t)))
      as [|gp0 gl] eqn:Fg; cbn [length Nat.eqb orb hd]; [reflexivity|].
    destruct Hkind as [Hk|Hk];
      [apply existsb_false_filter in Hk; rewrite Hk in Fg; discriminate Fg|].
    destruct (length gp0 <? 3); [reflexivity|].
    cbn [nth_error defined bind].
    destruct (progressOf_ok _ _ (filter_head_In _ _ Fg)) as (pg & ->).
    cbn [bind]. now rewrite (existsb_false_filter _ _ Hk). }
  now rewrite E.
Qed.

(** ** The stage taken from the tag *)

(** No match of the progress pattern is without its stage name: the
    filter for untagged matches selects nothing. *)
Lemma untagged_matches_none (ti : string) :
  filter (fun prog => optEqb (at_ 1 prog) None && truthy (at_ 2 prog))
         (Workers.progressions ti) = [].
Proof.
  apply existsb_false_filter.
  destruct (existsb _ _) eqn:E; [|reflexivity].
  apply existsb_exists in E. destruct E as (m & Hin & Hm).
  destruct (progressions_shape _ _ Hin) as (g1 & g2 & a & b & (full & -> & _)).
  discriminate Hm.
Qed.

Lemma backfillProgress_tagged (ti st : string) :
  st = "QC"%string \/ st = "GP"%string ->
  Workers.backfillProgress ti st = Ok (firstProgress (toLowerCase st) ti).
Proof.
  intros Hst. unfold Workers.backfillProgress, firstProgress. cbv zeta.
  assert (E : String.eqb st "GP" || String.eqb st "QC" = true)
    by (destruct Hst as [-> | ->]; reflexivity).
  rewrite E.
  destruct (filter (Workers.tagged (toLowerCase st)) (Workers.progressions ti))
    as [|m ml] eqn:F.
  - cbn [length Nat.eqb negb andb]. rewrite untagged_matches_none.
    cbn [length Nat.eqb negb andb]. now destruct (negb _).
  - destruct (progressions_shape _ _ (filter_head_In _ _ F))
      as (g1 & g2 & a & b & (full & -> & _)).
    reflexivity.
Qed.

(** X6.  A thread tagged "Quality Control" is classified QC, one tagged
    "Copyediting" GP, whatever its title says; the progress is that of
    the first match of the title that names the stage, and empty when
    there is none (a match that names the other stage is not used).
    In every monitored section other than 770 the thread is pushed. *)
Theorem parseThread_stage_from_tag (t : IXFStatusQuery) (label st : string) :
  (label = "Quality Control" /\ st = "QC")%string
  \/ (label = "Copyediting" /\ st = "GP")%string ->
  phrase_text t = Some label ->
  (forall d, Workers.parseThread t = Ok d ->
             stage d = st
             /\ progress d = firstProgress (toLowerCase st) (title t))
  /\ (monitored t -> node_id t <> 770%Z -> exists d, Workers.parseThread t = Ok d).
Proof.
  intros Hl Hp.
  assert (Epre : Workers.parsePrefix (phrase_text t) = Ok (st, [], [])).
  { unfold Workers.parsePrefix. rewrite Hp.
    destruct Hl as [(-> & ->)|(-> & ->)]; reflexivity. }
  assert (Est : String.eqb st "" = false)
    by (destruct Hl as [(_ & ->)|(_ & ->)]; reflexivity).
  assert (Eback : Workers.backfillProgress (title t) st
                  = Ok (firstProgress (toLowerCase st) (title t))).
  { apply backfillProgress_tagged. destruct Hl as [(_ & ->)|(_ & ->)]; auto. }
  unfold Workers.parseThread. rewrite Epre. cbn [bind]. rewrite Est.
  cbn [bind String.eqb]. rewrite Eback. cbn [bind length Nat.eqb].
  split.
  - intros d H.
    destruct (Workers.resolveGen t) as [g1| |]; cbn [bind] in H; try discriminate.
    destruct (Workers.resolveTier t) as [t1| |]; cbn [bind] in H; try discriminate.
    injection H as <-. auto.
  - intros Hmon Hnode. unfold monitored in Hmon.
    destruct (lookup (toString (node_id t)) ccSubObj) as [sub|] eqn:El;
      [|now destruct Hmon].
    unfold Workers.resolveGen, Workers.resolveTier.
    apply Z.eqb_neq in Hnode. rewrite Hnode, El. cbn. eauto.
Qed.

(** ** Resources and announcements *)

Lemma parseCCStage_In_inv (threadData : list IXFStatusQuery)
      (parsed : list IXFParsedThreadData) (d : IXFParsedThreadData) :
  Workers.parseCCStage threadData = Some parsed ->
  In d parsed ->
  exists t, In t threadData /\ Workers.parseThread t = Ok d.
Proof.
  revert parsed. induction threadData as [|t ts IH]; intros parsed H Hd.
  - injection H as <-. destruct Hd.
  - cbn [Workers.parseCCStage] in H.
    destruct (Workers.parseThread t) as [d0| |q] eqn:Et; [| |discriminate].
    + destruct (Workers.parseCCStage ts) as [l|]; [|discriminate].
      injection H as <-. destruct Hd as [<-|Hd].
      * exists t. split; [now left|exact Et].
      * destruct (IH l eq_refl Hd) as (t' & Hin & E). exists t'. split; [now right|exact E].
    + destruct (IH parsed H Hd) as (t' & Hin & E). exists t'. split; [now right|exact E].
Qed.

(** X7.  No thread tagged "Resource" or "Announcement" is among the threads
    [parseCCStage] returns, whatever its title and section. *)
Theorem parseCCStage_leaves_out_resources
        (threadData : list IXFStatusQuery) (parsed : list IXFParsedThreadData)
        (d : IXFParsedThreadData) :
  Workers.parseCCStage threadData = Some parsed ->
  In d parsed ->
  phrase_text (thread d) <> Some "Resource"%string
  /\ phrase_text (thread d) <> Some "Announcement"%string.
Proof.
  intros H Hd. destruct (@parseCCStage_In_inv _ _ _ H Hd) as (t & _ & Et).
  rewrite (@parseThread_thread _ _ _ Et).
  split; intros E; unfold Workers.parseThread, Workers.parsePrefix in Et;
    rewrite E in Et; discriminate Et.
Qed.

End ClassifierInvariants.

Lemma parseThread_stage_vocabulary_witness :
  In "QC"%string ["WIP"; "QC"; "GP"; "HTML"; "Done"]%string
  /\ ("1/2"%string <> ""%string -> "QC"%string = "QC"%string \/ "QC"%string = "GP"%string).
Proof.
  apply (@parseThread_stage_vocabulary inlineConstants thread_qc_1_2
           {| thread := thread_qc_1_2; gen := [Some "9"%string];
              tier := ["ou"%string]; stage := "QC"; progress := "1/2" |}).
  vm_compute. reflexivity.
Defined.

Lemma parseThread_gen_tier_nonempty_witness :
  definesGenerations inlineConstants
  /\ ([Some "9"%string] <> [] /\ Forall (fun g => g <> None) [Some "9"%string]
      /\ omTiers <> []).
Proof.
  assert (H : definesGenerations inlineConstants)
    by (unfold definesGenerations; repeat constructor; vm_compute; discriminate).
  split; [exact H|].
  apply (@parseThread_gen_tier_nonempty inlineConstants thread_770_sv
           {| thread := thread_770_sv; gen := [Some "9"%string];
              tier := omTiers; stage := "QC"; progress := "1/2" |} H).
  vm_compute. reflexivity.
Defined.

Lemma parseThread_unmonitored_witness :
  ~ monitored thread_elsewhere
  /\ @Workers.parseThread inlineConstants thread_elsewhere
     <> Ok {| thread := thread_elsewhere; gen := []; tier := [];
              stage := "QC"; progress := "1/2" |}.
Proof.
  assert (H : ~ monitored thread_elsewhere)
    by (unfold monitored; vm_compute; intros X; now apply X).
  split; [exact H|]. now apply parseThread_unmonitored.
Defined.

Lemma parseThread_single_gp_match_witness :
  (forall d, @Workers.parseThread inlineConstants thread_gp_1_2 = Ok d ->
             (stage d, progress d) = ("GP", "1/2")%string)
  /\ exists d, @Workers.parseThread inlineConstants thread_gp_1_2 = Ok d.
Proof.
  destruct (@parseThread_single_gp_match inlineConstants thread_gp_1_2
              [Some "GP 1/2"; Some "GP"; Some "1/2"]%string "1"%char "2"%char)
    as (H1 & H2); try (vm_compute; reflexivity).
  split; [exact H1|].
  apply H2; [unfold monitored|]; vm_compute; discriminate.
Defined.

Lemma parseThread_matches_of_one_kind_witness :
  @Workers.parseThread inlineConstants thread_two_qc = Continue.
Proof.
  apply parseThread_matches_of_one_kind;
    try (vm_compute; reflexivity).
  left. vm_compute. reflexivity.
Defined.

Lemma parseThread_stage_from_tag_witness :
  (forall d, @Workers.parseThread inlineConstants thread_qc_tag_gp_title = Ok d ->
             stage d = "QC"%string /\ progress d = ""%string)
  /\ exists d, @Workers.parseThread inlineConstants thread_qc_tag_gp_title = Ok d.
Proof.
  destruct (@parseThread_stage_from_tag inlineConstants thread_qc_tag_gp_title
              "Quality Control" "QC") as (H1 & H2);
    [left; split; reflexivity|reflexivity|].
  split; [exact H1|].
  apply H2; [unfold monitored|]; vm_compute; discriminate.
Defined.

Lemma parseCCStage_leaves_out_resources_witness :
  phrase_text thread_qc_1_2 <> Some "Resource"%string
  /\ phrase_text thread_qc_1_2 <> Some "Announcement"%string.
Proof.
  apply (@parseCCStage_leaves_out_resources inlineConstants
           [{| thread_id := 111; node_id := 758; title := "Speed tiers";
               phrase_text := Some "Resource"%string |}; thread_qc_1_2]
           [{| thread := thread_qc_1_2; gen := [Some "9"%string];
               tier := ["ou"%string]; stage := "QC"; progress := "1/2" |}]
           {| thread := thread_qc_1_2; gen := [Some "9"%string];
              tier := ["ou"%string]; stage := "QC"; progress := "1/2" |}).
  - vm_compute. reflexivity.
  - now left.
Defined.

(** ** The section of past-generation other metagames *)

(** At the start of a title whose first character is a word character
    that begins none of the words of the generation pattern, the
    pattern matches the empty string. *)
Lemma genRegex_at_other_word (c : ascii) (s : string) :
  isWord c = true -> startsGeneration c = false ->
  run genRegex (MState None (String c s) (repeat None 5))
  = [MState None (String c s) (repeat None 5)].
Proof.
  intros Hw Hg.
  destruct c as [[] [] [] [] [] [] [] []];
    try discriminate Hw; try discriminate Hg; vm_compute; reflexivity.
Qed.

(** In the earliest form the same title is an error: the pattern matches
    the empty string, and [toLowerCase] is called on the undefined
    groups. *)
Lemma Cnc_classify_770_other_word (t : IXFStatusQuery) (c : ascii) (s : string) :
  node_id t = 770%Z ->
  Workers.tagIs (phrase_text t) "Resource" = false ->
  Workers.tagIs (phrase_text t) "Announcement" = false ->
  Workers.genOfTag (phrase_text t) = None ->
  title t = String c s ->
  isWord c = true -> startsGeneration c = false ->
  Cnc.classify t = TypeError "toLowerCase".
Proof.
  intros Hn Hr Ha Htag Ht Hw Hg.
  assert (Em : jsMatch genRegex 4 (title t)
               = Some [Some ""%string; None; None; None; None]).
  { rewrite Ht. unfold jsMatch. cbn [searchFrom]. unfold execAt.
    change (repeat None 5) with (@repeat (option string) None 5).
    rewrite (@genRegex_at_other_word c s Hw Hg).
    unfold consumed. cbn [rest caps]. rewrite Nat.sub_diag, substring_0_0.
    reflexivity. }
  unfold Cnc.classify. cbv zeta.
  rewrite !sample_progressions, Em, Hn, Hr, Ha, Htag.
  remember (includes "done" (toLowerCase (title t))) as dn.
  remember (phrase_text t) as ph.
  repeat match goal with
         | |- context [if ?b then _ else _] =>
             match b with
             | context [ph] => destruct b
             | dn => destruct b
             end
         end; vm_compute; reflexivity.
Qed.

Section PastGenSection.
Context {K : Constants}.

Lemma resolveGen_other_word (t : IXFStatusQuery) (c : ascii) (s : string) :
  node_id t = 770%Z ->
  title t = String c s ->
  isWord c = true -> startsGeneration c = false ->
  Workers.resolveGen t = Continue.
Proof.
  intros Hn Ht Hw Hg. unfold Workers.resolveGen. rewrite Hn, Ht.
  cbn [Z.eqb Pos.eqb]. unfold jsMatch. cbn [searchFrom]. unfold execAt.
  change (repeat None 5) with (@repeat (option string) None 5).
  rewrite (@genRegex_at_other_word c s Hw Hg).
  unfold consumed. cbn [rest caps]. rewrite Nat.sub_diag, substring_0_0.
  reflexivity.
Qed.

(** X8.  In section 770 the generation is read at the first word of the
    title only: a thread whose tag carries no generation and whose
    title begins with a word character that starts none of the
    generation words (any letter but G, S, U, O, X, B, H, D, R and A,
    a digit, an underscore) is never classified, whatever follows in
    the title. *)
Theorem parseThread_770_first_word
        (t : IXFStatusQuery) (c : ascii) (s : string) (d : IXFParsedThreadData) :
  node_id t = 770%Z ->
  Workers.genOfTag (phrase_text t) = None ->
  title t = String c s ->
  isWord c = true -> startsGeneration c = false ->
  Workers.parseThread t <> Ok d.
Proof.
  intros Hn Htag Ht Hw Hg H.
  pose proof (@resolveGen_other_word t c s Hn Ht Hw Hg) as Eg.
  unfold Workers.parseThread in H.
  destruct (Workers.parsePrefix (phrase_text t)) as [[[s0 g0] t0]| |q] eqn:Ep;
    cbn [bind] in H; try discriminate H.
  assert (E0 : g0 = []).
  { unfold Workers.parsePrefix in Ep. rewrite Htag in Ep.
    repeat match type of Ep with
           | (if ?b then _ else _) = _ => destruct b
           | match ?x with Some _ => _ | None => _ end = _ => destruct x
           end;
      try discriminate Ep; now injection Ep as _ <- _. }
  subst g0.
  destruct (if String.eqb s0 "" then Workers.inferStage (title t)
            else Ok (s0, ""%string)) as [[s1 p1]| |q]; cbn [bind] in H;
    try discriminate H.
  destruct (if String.eqb p1 "" then Workers.backfillProgress (title t) s1
            else Ok p1) as [p2| |q]; cbn [bind] in H; try discriminate H.
  cbn [length Nat.eqb] in H. rewrite Eg in H. discriminate H.
Qed.

End PastGenSection.

Lemma parseThread_770_first_word_witness :
  @Workers.parseThread inlineConstants thread_770_qc
  <> Ok {| thread := thread_770_qc; gen := [Some "8"%string]; tier := omTiers;
           stage := "QC"; progress := "1/2" |}
  /\ @Workers.parseThread inlineConstants thread_770_qc = Continue.
Proof.
  split; [|vm_compute; reflexivity].
  apply (@parseThread_770_first_word inlineConstants thread_770_qc
           "Z"%char "apdos [QC 1/2]"); reflexivity.
Defined.

(** ** Subscriptions and letter case *)

Lemma lowerChar_idem (c : ascii) : lowerChar (lowerChar c) = lowerChar c.
Proof. destruct c as [[] [] [] [] [] [] [] []]; vm_compute; reflexivity. Qed.

Lemma toLowerCase_idem (s : string) : toLowerCase (toLowerCase s) = toLowerCase s.
Proof.
  induction s as [|c s IH]; cbn [toLowerCase]; [reflexivity|].
  now rewrite lowerChar_idem, IH.
Qed.

(** The loop posts to channels of the subscriptions it is given
    only. *)
Lemma alertLoop004_sentTo_other (client : Client) (d : IXFParsedThreadData)
      (c : string) :
  forall chans processed,
    ~ In c (map AlertChan.channelid chans) ->
    sentTo c (Part004.alertLoop client d chans processed) = 0.
Proof.
  induction chans as [|ch chans IH]; intros processed Hn; [reflexivity|].
  cbn [map] in Hn. cbn [Part004.alertLoop].
  assert (Hc : String.eqb (AlertChan.channelid ch) c = false)
    by (apply String.eqb_neq; intros E; apply Hn; now left).
  assert (Hn' : ~ In c (map AlertChan.channelid chans))
    by (intros X; apply Hn; now right).
  destruct (arrIncludes _ processed); [now apply IH|].
  destruct (negb (isTextChannel _)); [reflexivity|].
  destruct (_ && _); [rewrite sentTo_cons, Hc; now apply IH|].
  destruct (_ && _); [rewrite sentTo_cons, Hc; now apply IH|].
  destruct (negb _); [reflexivity|].
  rewrite sentTo_cons, Hc. now apply IH.
Qed.

Lemma alertLoop005_sentTo_other (client : Client) (d : IXFParsedThreadData)
      (c : string) :
  forall chans processed,
    ~ In c (map AlertChan.channelid chans) ->
    sentTo c (Part005.alertLoop client d chans processed) = 0.
Proof.
  induction chans as [|ch chans IH]; intros processed Hn; [reflexivity|].
  cbn [map] in Hn. cbn [Part005.alertLoop].
  assert (Hc : String.eqb (AlertChan.channelid ch) c = false)
    by (apply String.eqb_neq; intros E; apply Hn; now left).
  assert (Hn' : ~ In c (map AlertChan.channelid chans))
    by (intros X; apply Hn; now right).
  destruct (arrIncludes _ processed); [now apply IH|].
  destruct (negb (isTextChannel _)); [reflexivity|].
  cbv zeta. rewrite sentTo_cons, Hc. now apply IH.
Qed.

(** A subscription matches only with its tier in lower case. *)
Lemma matchingChans_lower (newData : IXFParsedThreadData) (oldData : ICCData)
      (ch : AlertChan.t) :
  In ch (matchingChans newData oldData) ->
  In ch (alertchans oldData)
  /\ toLowerCase (AlertChan.tier ch) = AlertChan.tier ch.
Proof.
  unfold matchingChans. intros H. apply filter_In in H. destruct H as (H & Hm).
  split; [exact H|].
  apply andb_true_iff in Hm. destruct Hm as (Hm & _).
  apply arrIncludes_In in Hm. apply in_map_iff in Hm.
  destruct Hm as (x & <- & _). apply toLowerCase_idem.
Qed.

(** X9.  The tiers of a thread are put in lower case before they are
    compared, the tier of a subscription is not: a channel whose
    subscriptions all spell their tier with an upper-case letter is
    never notified, in either variant of [alertCCStatus]. *)
Theorem alertCCStatus_tier_in_lower_case
        (client : Client) (oldData : ICCData) (newData : IXFParsedThreadData)
        (c : string) :
  (forall ch, In ch (alertchans oldData) -> AlertChan.channelid ch = c ->
              toLowerCase (AlertChan.tier ch) <> AlertChan.tier ch) ->
  sentTo c (Part004.alertCCStatus newData oldData client) = 0
  /\ sentTo c (Part005.alertCCStatus newData oldData client) = 0.
Proof.
  intros Hup.
  assert (Hn : ~ In c (map AlertChan.channelid (matchingChans newData oldData))).
  { intros H. apply in_map_iff in H. destruct H as (ch & Ec & Hch).
    apply matchingChans_lower in Hch. destruct Hch as (Hin & Hlow).
    exact (Hup ch Hin Ec Hlow). }
  unfold Part004.alertCCStatus, Part005.alertCCStatus. cbv zeta.
  rewrite sentTo_app, devSend_sentTo.
  destruct (length (matchingChans newData oldData) =? 0); [split; reflexivity|].
  split.
  - now apply alertLoop004_sentTo_other.
  - cbn [Nat.add]. now apply alertLoop005_sentTo_other.
Qed.

Lemma alertCCStatus_tier_in_lower_case_witness :
  sentTo chanA (Part004.alertCCStatus parsed_qc_0_2
                  {| threads := []; alertchans := [subOUupper] |} clientA) = 0
  /\ sentTo chanA (Part005.alertCCStatus parsed_qc_0_2
                     {| threads := []; alertchans := [subOUupper] |} clientA) = 0.
Proof.
  apply alertCCStatus_tier_in_lower_case.
  intros ch [<-|[]] _. vm_compute. discriminate.
Defined.

(** ** The cycle of the later variant: its edge cases *)

Lemma applyTrace_no_update (tr : list event) :
  forall cache,
    (forall row del, ~ In (CacheUpdate row del) tr) ->
    applyTrace cache tr = cache.
Proof.
  induction tr as [|e tr IH]; intros cache H; [reflexivity|].
  cbn [applyTrace fold_left].
  destruct e as [c msg|dg|row del].
  - apply IH. intros row del X. apply (H row del). now right.
  - apply IH. intros row del X. apply (H row del). now right.
  - exfalso. apply (H row del). now left.
Qed.

Lemma onlyDiag_app (tr1 tr2 : list event) :
  onlyDiag (tr1 ++ tr2) = onlyDiag tr1 && onlyDiag tr2.
Proof. unfold onlyDiag. apply forallb_app. Qed.

Lemma onlyDiag_devSend (client : Client) (dg : diag) :
  onlyDiag (Part005.devSend client dg) = true.
Proof.
  unfold Part005.devSend. now destruct (fetch client Part005.devChanId) as [[]|].
Qed.

Lemma onlyDiag_no_update (tr : list event) (row : Status.t) (del : bool) :
  onlyDiag tr = true -> ~ In (CacheUpdate row del) tr.
Proof.
  unfold onlyDiag. rewrite forallb_forall. intros H Hin.
  specialize (H _ Hin). discriminate H.
Qed.

Lemma onlyDiag_chanSends (tr : list event) :
  onlyDiag tr = true -> chanSends tr = [].
Proof.
  induction tr as [|e tr IH]; [reflexivity|].
  cbn [onlyDiag forallb chanSends filter].
  destruct e; try discriminate. cbn [andb]. exact IH.
Qed.

Lemma onlyDiag_applyTrace (tr : list event) (cache : list Status.t) :
  onlyDiag tr = true -> applyTrace cache tr = cache.
Proof.
  intros H. apply applyTrace_no_update.
  intros row del. now apply onlyDiag_no_update.
Qed.

Lemma chanSends_deletions (rows : list Status.t) :
  chanSends (map (fun old => CacheUpdate old true) rows) = [].
Proof. induction rows as [|r l IH]; [reflexivity|exact IH]. Qed.

(** X10.  With an empty poll result every cached row is evicted and nothing
    is announced: the cycle asks for the deletion of each row of the
    cache, posts no notification, and leaves the cache empty. *)
Theorem Part005_empty_snapshot_clears_cache {K : Constants}
        (client : Client) (db : DB) :
  exists tr,
    Part005.checkCCUpdates client db [] = (tr, true)
    /\ chanSends tr = []
    /\ (forall row del,
          In (CacheUpdate row del) tr <-> del = true /\ In row (ccstatus db))
    /\ applyTrace (ccstatus db) tr = [].
Proof.
  eexists. split; [reflexivity|].
  assert (Eu : Part005.uncacheRemovedThreads [] (loadCCData db)
               = map (fun old => CacheUpdate old true) (ccstatus db)).
  { unfold Part005.uncacheRemovedThreads. cbn [map existsb negb loadCCData threads].
    f_equal. induction (ccstatus db) as [|r l IH]; [reflexivity|].
    cbn [filter]. now rewrite IH. }
  rewrite Eu. split; [|split].
  - unfold chanSends. rewrite filter_app.
    fold (chanSends (Part005.devSend client QueryFailed)).
    fold (chanSends (map (fun old => CacheUpdate old true) (ccstatus db))).
    now rewrite chanSends_devSend, chanSends_deletions.
  - intros row del. split.
    + intros H. apply in_app_or in H. destruct H as [H|H];
        [now apply devSend_no_update in H|].
      apply in_map_iff in H. destruct H as (old & E & Hin).
      injection E as <- <-. auto.
    + intros (-> & Hin). apply in_or_app. right.
      apply in_map_iff. exists row. auto.
  - rewrite applyTrace_app.
    rewrite (onlyDiag_applyTrace _ _ (onlyDiag_devSend client QueryFailed)).
    destruct (applyTrace (ccstatus db)
                (map (fun old => CacheUpdate old true) (ccstatus db)))
      as [|r l] eqn:E; [reflexivity|].
    assert (Hr : In r (applyTrace (ccstatus db)
                         (map (fun old => CacheUpdate old true) (ccstatus db))))
      by (rewrite E; now left).
    apply applyTrace_deletions in Hr. destruct Hr as (Hin & Hn).
    exfalso. apply Hn. now apply in_map.
Qed.

Section CycleEdges.
Context {K : Constants}.

Lemma parseCCStage_throws (threadData : list IXFStatusQuery)
      (t : IXFStatusQuery) (p : string) :
  In t threadData -> Workers.parseThread t = TypeError p ->
  Workers.parseCCStage threadData = None.
Proof.
  intros Hin Ht. induction threadData as [|t0 ts IH]; [destruct Hin|].
  cbn [Workers.parseCCStage].
  destruct Hin as [->|Hin]; [now rewrite Ht|].
  destruct (Workers.parseThread t0); [|auto|reflexivity].
  now rewrite (IH Hin).
Qed.

Lemma onlyDiag_parseThreadDiag (client : Client) (t : IXFStatusQuery) :
  onlyDiag (Part005.parseThreadDiag client t) = true.
Proof.
  unfold Part005.parseThreadDiag.
  destruct (bind _ _) as [[[[s1 p2] g0] t0]| |q]; [|reflexivity|reflexivity].
  rewrite onlyDiag_app. apply andb_true_iff. split.
  - destruct (length g0 =? 0); [|reflexivity].
    destruct (Z.eqb (node_id t) 770); [apply onlyDiag_devSend|].
    destruct (Z.eqb (node_id t) 763); [apply onlyDiag_devSend|reflexivity].
  - destruct (Workers.parseThread t) as [d| |q]; try reflexivity.
    destruct (Z.eqb (node_id t) 763); [apply onlyDiag_devSend|reflexivity].
Qed.

Lemma onlyDiag_parseCCStage (client : Client) (threadData : list IXFStatusQuery) :
  onlyDiag (fst (Part005.parseCCStage threadData client)) = true.
Proof.
  induction threadData as [|t ts IH]; [reflexivity|].
  cbn [Part005.parseCCStage].
  destruct (Workers.parseThread t) as [d| |q];
    try (destruct (Part005.parseCCStage ts client) as [tr r]); cbn [fst] in *;
    try rewrite onlyDiag_app, IH, andb_true_r; apply onlyDiag_parseThreadDiag.
Qed.

(** X11.  When the iteration of one thread of the poll result throws, the
    cycle ends there: nothing but diagnostic posts has happened, no
    notification is sent for any thread, the cache is not written and
    the eviction step is not reached. *)
Theorem Part005_throw_ends_cycle
        (client : Client) (db : DB) (threadData : list IXFStatusQuery)
        (t : IXFStatusQuery) (p : string) :
  In t threadData ->
  Workers.parseThread t = TypeError p ->
  exists tr,
    Part005.checkCCUpdates client db threadData = (tr, false)
    /\ onlyDiag tr = true
    /\ chanSends tr = []
    /\ applyTrace (ccstatus db) tr = ccstatus db.
Proof.
  intros Hin Ht. unfold Part005.checkCCUpdates. cbv zeta.
  destruct threadData as [|t0 ts]; [destruct Hin|].
  cbn [length Nat.eqb].
  pose proof (Part005_parseCCStage_data client (t0 :: ts)) as Edata.
  pose proof (onlyDiag_parseCCStage client (t0 :: ts)) as Hd.
  rewrite (@parseCCStage_throws _ _ _ Hin Ht) in Edata.
  destruct (Part005.parseCCStage (t0 :: ts) client) as [tr r].
  cbn [fst snd] in *. subst r.
  exists tr. repeat split; auto using onlyDiag_chanSends, onlyDiag_applyTrace.
Qed.

End CycleEdges.

Lemma Part005_throw_ends_cycle_witness :
  exists tr,
    @Part005.checkCCUpdates inlineConstants clientA dbA [thread_qc_tag; thread_elsewhere]
    = (tr, false)
    /\ onlyDiag tr = true
    /\ chanSends tr = []
    /\ applyTrace (ccstatus dbA) tr = ccstatus dbA.
Proof.
  apply (@Part005_throw_ends_cycle inlineConstants clientA dbA
           [thread_qc_tag; thread_elsewhere] thread_elsewhere "gens").
  - right. now left.
  - vm_compute. reflexivity.
Defined.

(** ** The cache between two cycles *)

Lemma sqlSelect_sqlDelete_other (id rid : Z) (cache : list Status.t) :
  rid <> id -> sqlSelect id (sqlDelete rid cache) = sqlSelect id cache.
Proof.
  intros Hne. unfold sqlSelect, sqlDelete.
  induction cache as [|r cache IH]; [reflexivity|].
  cbn [filter].
  destruct (Z.eqb (Status.thread_id r) rid) eqn:Er; cbn [negb filter].
  - apply Z.eqb_eq in Er.
    destruct (Z.eqb (Status.thread_id r) id) eqn:Ei; [|exact IH].
    apply Z.eqb_eq in Ei. congruence.
  - now rewrite IH.
Qed.

Lemma sqlSelect_sqlUpsert_other (id : Z) (row : Status.t) (cache : list Status.t) :
  Status.thread_id row <> id ->
  sqlSelect id (sqlUpsert row cache) = sqlSelect id cache.
Proof.
  intros Hne. unfold sqlSelect, sqlUpsert.
  assert (Er : Z.eqb (Status.thread_id row) id = false) by now apply Z.eqb_neq.
  destruct (existsb _ cache).
  - induction cache as [|r cache IH]; [reflexivity|].
    cbn [map filter].
    destruct (Z.eqb (Status.thread_id r) (Status.thread_id row)) eqn:E.
    + apply Z.eqb_eq in E. rewrite Er, E, Er. exact IH.
    + now rewrite IH.
  - rewrite filter_app. cbn [filter]. rewrite Er. apply app_nil_r.
Qed.

Lemma sqlSelect_sqlUpsert_same (row : Status.t) (cache : list Status.t) :
  exists rest,
    sqlSelect (Status.thread_id row) (sqlUpsert row cache) = row :: rest.
Proof.
  unfold sqlSelect, sqlUpsert.
  destruct (existsb _ cache) eqn:Ex.
  - induction cache as [|r cache IH]; [discriminate Ex|].
    cbn [existsb] in Ex. cbn [map filter].
    destruct (Z.eqb (Status.thread_id r) (Status.thread_id row)) eqn:E.
    + rewrite Z.eqb_refl. eauto.
    + rewrite E. cbn [orb] in Ex. exact (IH Ex).
  - rewrite filter_app. cbn [filter]. rewrite Z.eqb_refl.
    rewrite existsb_false_filter by exact Ex. cbn [app]. eauto.
Qed.

Lemma sqlSelect_updateCCCache_other (id : Z) (row : Status.t) (del : bool)
      (cache : list Status.t) :
  Status.thread_id row <> id ->
  sqlSelect id (updateCCCache row del cache) = sqlSelect id cache.
Proof.
  intros Hne. unfold updateCCCache.
  destruct (del || String.eqb (Status.stage row) "Done").
  - now apply sqlSelect_sqlDelete_other.
  - now apply sqlSelect_sqlUpsert_other.
Qed.

(** The cached rows of a thread are not touched by updates for other
    threads. *)
Lemma sqlSelect_applyTrace_other (id : Z) (tr : list event) :
  forall cache,
    (forall row del, In (CacheUpdate row del) tr -> Status.thread_id row <> id) ->
    sqlSelect id (applyTrace cache tr) = sqlSelect id cache.
Proof.
  induction tr as [|e tr IH]; intros cache H; [reflexivity|].
  cbn [applyTrace fold_left]. change (fold_left applyEvent tr) with (fun c => applyTrace c tr).
  cbv beta. rewrite IH by (intros row del X; apply (H row del); now right).
  destruct e as [c msg|dg|row del]; cbn [applyEvent]; try reflexivity.
  apply sqlSelect_updateCCCache_other. apply (H row del). now left.
Qed.

(** After the step of a thread whose stage is not Done, the first
    cached row of the thread carries its stage and progress. *)
Lemma threadStep005_cached (client : Client) (oldData : ICCData)
      (d : IXFParsedThreadData) (cache : list Status.t) :
  stage d <> "Done"%string ->
  sqlSelect (idOf d) cache = sqlSelect (idOf d) (threads oldData) ->
  changed (stage d) (progress d)
          (sqlSelect (idOf d) (applyTrace cache (Part005.threadStep client oldData d)))
  = false.
Proof.
  intros Hnd Hsel. unfold Part005.threadStep.
  fold (idOf d). fold (sqlSelect (idOf d) (threads oldData)).
  destruct (changed (stage d) (progress d) (sqlSelect (idOf d) (threads oldData)))
    eqn:Ech.
  - rewrite applyTrace_app.
    rewrite (@applyTrace_no_update (Part005.alertCCStatus d oldData client))
      by (intros row del; apply alertCCStatus005_no_update).
    cbn [applyTrace fold_left applyEvent]. unfold updateCCCache.
    cbn [orb statusOf Status.stage].
    assert (E : String.eqb (stage d) "Done" = false) by now apply String.eqb_neq.
    rewrite E.
    destruct (sqlSelect_sqlUpsert_same (statusOf d) cache) as (rest & Er).
    change (Status.thread_id (statusOf d)) with (idOf d) in Er. rewrite Er.
    unfold changed. cbn [statusOf Status.stage Status.progress].
    now rewrite !String.eqb_refl.
  - cbn [applyTrace fold_left]. now rewrite Hsel.
Qed.

Lemma flat_map_nil {A B : Type} (f : A -> list B) (l : list A) :
  (forall x, In x l -> f x = []) -> flat_map f l = [].
Proof.
  induction l as [|x l IH]; intros H; [reflexivity|].
  cbn [flat_map]. rewrite (H x) by now left.
  apply IH. intros y Hy. apply H. now right.
Qed.

Lemma threadLoop005_cached (client : Client) (oldData : ICCData)
      (parsed : list IXFParsedThreadData) (d : IXFParsedThreadData) :
  NoDup (map idOf parsed) ->
  In d parsed ->
  stage d <> "Done"%string ->
  changed (stage d) (progress d)
          (sqlSelect (idOf d)
             (applyTrace (threads oldData)
                (flat_map (Part005.threadStep client oldData) parsed)))
  = false.
Proof.
  intros Hnd Hin Hst.
  apply in_split in Hin. destruct Hin as (l1 & l2 & ->).
  rewrite map_app in Hnd. cbn [map] in Hnd.
  apply NoDup_remove_2 in Hnd.
  assert (Hother : forall l row del,
             (forall x, In x l -> In (idOf x) (map idOf l1 ++ map idOf l2)) ->
             In (CacheUpdate row del) (flat_map (Part005.threadStep client oldData) l) ->
             Status.thread_id row <> idOf d).
  { intros l row del Hl H. apply in_flat_map in H. destruct H as (x & Hx & H).
    apply threadStep005_update in H. destruct H as (-> & _).
    cbn [statusOf Status.thread_id]. intros E. apply Hnd.
    rewrite <- E. apply (Hl x Hx). }
  rewrite flat_map_app. cbn [flat_map]. rewrite !applyTrace_app.
  rewrite sqlSelect_applyTrace_other.
  - apply threadStep005_cached; [exact Hst|].
    apply sqlSelect_applyTrace_other. intros row del H.
    apply (Hother l1 row del); [|exact H].
    intros x Hx. apply in_or_app. left. now apply in_map.
  - intros row del H. apply (Hother l2 row del); [|exact H].
    intros x Hx. apply in_or_app. right. now apply in_map.
Qed.

Section SecondCycle.
Context {K : Constants}.

Lemma parseCCStage_NoDup (threadData : list IXFStatusQuery) :
  forall parsed,
    NoDup (map thread_id threadData) ->
    Workers.parseCCStage threadData = Some parsed ->
    NoDup (map idOf parsed).
Proof.
  induction threadData as [|t ts IH]; intros parsed Hnd H.
  - injection H as <-. constructor.
  - cbn [map] in Hnd. inversion Hnd as [|x l Hx Hl]; subst.
    cbn [Workers.parseCCStage] in H.
    destruct (Workers.parseThread t) as [d0| |q] eqn:Et; [| |discriminate].
    + destruct (Workers.parseCCStage ts) as [l|] eqn:El; [|discriminate].
      injection H as <-. cbn [map]. constructor; [|now apply IH].
      intros Hin. apply in_map_iff in Hin. destruct Hin as (d' & E & Hd').
      apply Hx. unfold idOf in E.
      rewrite (@parseThread_thread _ _ _ Et) in E. rewrite <- E.
      apply in_map. exact (@parseCCStage_threads K ts l d' El Hd').
    + now apply IH.
Qed.

(** X12.  The second of two cycles over the same poll result is silent.
    When the thread ids of the poll result are distinct and no thread
    is classified Done, a cycle that ran to its end is followed, on
    the cache it left, by a cycle that sends no notification and asks
    for no cache update: only diagnostic posts, if any. *)
Theorem Part005_second_cycle_is_silent
        (client : Client) (db : DB) (threadData : list IXFStatusQuery)
        (tr : list event) :
  NoDup (map thread_id threadData) ->
  (forall t d, In t threadData -> Workers.parseThread t = Ok d ->
               stage d <> "Done"%string) ->
  Part005.checkCCUpdates client db threadData = (tr, true) ->
  exists tr',
    Part005.checkCCUpdates client (dbAfter db tr) threadData = (tr', true)
    /\ onlyDiag tr' = true
    /\ chanSends tr' = []
    /\ applyTrace (ccstatus (dbAfter db tr)) tr' = ccstatus (dbAfter db tr).
Proof.
  intros Hnd Hdone H.
  (* the shape of the first trace *)
  assert (Hshape : exists pre parsed,
             tr = pre ++ Part005.uncacheRemovedThreads threadData (loadCCData db)
             /\ (forall row del,
                   In (CacheUpdate row del) pre ->
                   del = false
                   /\ In (Status.thread_id row) (map thread_id threadData))
             /\ (if length threadData =? 0 then True
                 else Part005.parseCCStage threadData client
                      = (fst (Part005.parseCCStage threadData client), Some parsed)
                      /\ Workers.parseCCStage threadData = Some parsed
                      /\ forall d,
                           In d parsed ->
                           changed (stage d) (progress d)
                                   (sqlSelect (idOf d)
                                      (applyTrace (ccstatus db) pre))
                           = false)).
  { unfold Part005.checkCCUpdates in H. cbv zeta in H.
    destruct (length threadData =? 0) eqn:E0.
    - injection H as <-. exists (Part005.devSend client QueryFailed), [].
      split; [reflexivity|]. split; [|exact I].
      intros row del X. now apply devSend_no_update in X.
    - pose proof (Part005_parseCCStage_data client threadData) as Edata.
      pose proof (onlyDiag_parseCCStage client threadData) as Hd0.
      destruct (Part005.parseCCStage threadData client) as [tr0 [parsed|]] eqn:Ep;
        [|discriminate].
      cbn [fst snd] in *. symmetry in Edata. injection H as <-.
      exists (tr0 ++ (if length parsed =? 0
                      then Part005.devSend client ParseEmpty else [])
                  ++ flat_map (Part005.threadStep client (loadCCData db)) parsed),
             parsed.
      split; [now rewrite <- !app_assoc|].
      assert (Hdg : onlyDiag (if length parsed =? 0
                              then Part005.devSend client ParseEmpty else []) = true)
        by (destruct (length parsed =? 0); [apply onlyDiag_devSend|reflexivity]).
      split; [|split; [reflexivity|split; [exact Edata|]]].
      + intros row del X. apply in_app_or in X.
        destruct X as [X|X]; [now apply onlyDiag_no_update in X|].
        apply in_app_or in X.
        destruct X as [X|X]; [now apply onlyDiag_no_update in X|].
        apply in_flat_map in X. destruct X as (d & Hd & X).
        apply threadStep005_update in X. destruct X as (-> & ->).
        split; [reflexivity|]. cbn [statusOf Status.thread_id].
        apply in_map. exact (@parseCCStage_threads K threadData parsed d Edata Hd).
      + intros d Hd. rewrite !applyTrace_app.
        rewrite (onlyDiag_applyTrace _ _ Hd0), (onlyDiag_applyTrace _ _ Hdg).
        change (ccstatus db) with (threads (loadCCData db)).
        apply threadLoop005_cached;
          [exact (@parseCCStage_NoDup threadData parsed Hnd Edata)|exact Hd|].
        destruct (@parseCCStage_In_inv K _ _ _ Edata Hd) as (t & Ht & Et).
        exact (Hdone t d Ht Et). }
  destruct Hshape as (pre & parsed & -> & Hpre & Hparsed).
  (* the cache it leaves holds ids of the poll result only *)
  set (evict := Part005.uncacheRemovedThreads threadData (loadCCData db)).
  assert (Hsub : forall row,
             In row (applyTrace (ccstatus db) (pre ++ evict)) ->
             In (Status.thread_id row) (map thread_id threadData)).
  { intros row Hin. apply evicted_cache_subset in Hin; [exact Hin|].
    intros r Hr. now apply Hpre in Hr. }
  assert (Evict : Part005.uncacheRemovedThreads threadData
                    (loadCCData (dbAfter db (pre ++ evict)))
                  = []).
  { unfold Part005.uncacheRemovedThreads.
    cbn [loadCCData threads dbAfter ccstatus].
    rewrite existsb_false_filter; [reflexivity|].
    destruct (existsb _ _) eqn:Ex; [|reflexivity].
    apply existsb_exists in Ex. destruct Ex as (row & Hin & Hrow).
    apply Hsub in Hin. apply existsb_Zeqb_In in Hin.
    apply negb_true_iff in Hrow. congruence. }
  unfold Part005.checkCCUpdates. cbv zeta. rewrite Evict.
  destruct (length threadData =? 0).
  - eexists. split; [reflexivity|]. rewrite app_nil_r.
    pose proof (onlyDiag_devSend client QueryFailed) as Hd.
    auto using onlyDiag_chanSends, onlyDiag_applyTrace.
  - destruct Hparsed as (Ep & Edata & Hcached).
    rewrite Ep.
    pose proof (onlyDiag_parseCCStage client threadData) as Hd0.
    assert (Hdg : onlyDiag (if length parsed =? 0
                            then Part005.devSend client ParseEmpty else []) = true)
      by (destruct (length parsed =? 0); [apply onlyDiag_devSend|reflexivity]).
    rewrite flat_map_nil.
    + eexists. split; [reflexivity|]. rewrite !app_nil_r.
      assert (Hd : onlyDiag (fst (Part005.parseCCStage threadData client)
                             ++ (if length parsed =? 0
                                 then Part005.devSend client ParseEmpty else [])) = true)
        by now rewrite onlyDiag_app, Hd0, Hdg.
      auto using onlyDiag_chanSends, onlyDiag_applyTrace.
    + intros d Hd. unfold Part005.threadStep.
      cbn [loadCCData threads dbAfter ccstatus].
      fold (idOf d).
      fold (sqlSelect (idOf d) (applyTrace (ccstatus db) (pre ++ evict))).
      rewrite applyTrace_app, sqlSelect_applyTrace_other.
      * now rewrite (Hcached d Hd).
      * intros row del X. apply uncacheRemovedThreads_spec in X.
        destruct X as (_ & _ & Hn). intros E. apply Hn. rewrite E.
        unfold idOf. apply in_map.
        exact (@parseCCStage_threads K threadData parsed d Edata Hd).
Qed.

End SecondCycle.

Lemma Part005_second_cycle_is_silent_witness :
  exists tr',
    @Part005.checkCCUpdates inlineConstants clientA
       (dbAfter dbEmpty
          [ChanSend chanA (threadUrl 100 ++ nl ++ "Status: **Ready for QC**");
           CacheUpdate rowQC02 false])
       [thread_qc_0_2] = (tr', true)
    /\ onlyDiag tr' = true
    /\ chanSends tr' = []
    /\ applyTrace (ccstatus (dbAfter dbEmpty
          [ChanSend chanA (threadUrl 100 ++ nl ++ "Status: **Ready for QC**");
           CacheUpdate rowQC02 false])) tr'
       = ccstatus (dbAfter dbEmpty
          [ChanSend chanA (threadUrl 100 ++ nl ++ "Status: **Ready for QC**");
           CacheUpdate rowQC02 false]).
Proof.
  apply (@Part005_second_cycle_is_silent inlineConstants clientA dbEmpty
           [thread_qc_0_2]).
  - repeat constructor. intros [].
  - intros t d [<-|[]] E. vm_compute in E. injection E as <-. discriminate.
  - vm_compute. reflexivity.
Defined.

(** ** The variant with the last-check window never evicts *)

Lemma alertLoop004_no_update (client : Client) (d : IXFParsedThreadData)
      (row : Status.t) (del : bool) :
  forall chans processed,
    ~ In (CacheUpdate row del) (Part004.alertLoop client d chans processed).
Proof.
  induction chans as [|ch chans IH]; intros processed H; [destruct H|].
  cbn [Part004.alertLoop] in H.
  destruct (arrIncludes _ processed); [now apply IH in H|].
  destruct (negb (isTextChannel _)); [destruct H|].
  destruct (_ && _);
    [destruct H as [H|H]; [discriminate|now apply IH in H]|].
  destruct (_ && _);
    [destruct H as [H|H]; [discriminate|now apply IH in H]|].
  destruct (negb _); [destruct H|].
  destruct H as [H|H]; [discriminate|now apply IH in H].
Qed.

Lemma threadStep004_update (client : Client) (oldData : ICCData)
      (d : IXFParsedThreadData) (row : Status.t) (del : bool) :
  In (CacheUpdate row del) (Part004.threadStep client oldData d) ->
  row = statusOf d /\ del = false.
Proof.
  unfold Part004.threadStep. destruct (changed _ _ _); [|intros []].
  intros H. apply in_app_or in H. destruct H as [H|[H|[]]].
  - unfold Part004.alertCCStatus in H.
    destruct (length _ =? 0); [destruct H|].
    now apply alertLoop004_no_update in H.
  - injection H as <- <-. auto.
Qed.

(** X13.  The thread loop of the variant with the last-check window asks for
    no deletion and writes rows of the threads it was given only; the
    cached rows of every other thread, gone from the forum or not, are
    still cached after it. *)
Theorem Part004_cycle_keeps_other_rows
        (client : Client) (oldData : ICCData) (parsed : list IXFParsedThreadData)
        (cache : list Status.t) :
  (forall row del,
     In (CacheUpdate row del) (Part004.threadLoop client oldData parsed) ->
     del = false /\ exists d, In d parsed /\ row = statusOf d)
  /\ (forall id,
        ~ In id (map idOf parsed) ->
        sqlSelect id (applyTrace cache (Part004.threadLoop client oldData parsed))
        = sqlSelect id cache).
Proof.
  assert (Hup : forall row del,
             In (CacheUpdate row del) (Part004.threadLoop client oldData parsed) ->
             del = false /\ exists d, In d parsed /\ row = statusOf d).
  { intros row del H. unfold Part004.threadLoop in H.
    apply in_flat_map in H. destruct H as (d & Hd & H).
    apply threadStep004_update in H. destruct H as (-> & ->). eauto. }
  split; [exact Hup|].
  intros id Hid. apply sqlSelect_applyTrace_other.
  intros row del H. apply Hup in H. destruct H as (_ & d & Hd & ->).
  cbn [statusOf Status.thread_id]. intros E. apply Hid. rewrite <- E.
  now apply (in_map idOf).
Qed.

(** ** The earliest form: a second run, and threads that are Done *)

Lemma Cnc_threadLoop_other (client : Client) (id : Z) :
  forall threadData db tr db' e,
    Cnc.threadLoop client db threadData = (tr, db', e) ->
    ~ In id (map thread_id threadData) ->
    sqlSelect id (ccstatus db') = sqlSelect id (ccstatus db).
Proof.
  induction threadData as [|t more IH]; intros db tr db' e H Hn.
  - injection H as <- <- <-. reflexivity.
  - cbn [map] in Hn. cbn [Cnc.threadLoop] in H.
    assert (Ht : thread_id t <> id) by (intros E; apply Hn; now left).
    assert (Hm : ~ In id (map thread_id more)) by (intros X; apply Hn; now right).
    destruct (Cnc.classify t) as [[[[s p] g] ti]| |q].
    + destruct (changed s p _);
        [|injection H as <- <- <-; reflexivity].
      destruct (Cnc.threadLoop client _ more) as [[tr2 db2] e2] eqn:E2.
      injection H as <- <- <-.
      rewrite (IH _ _ _ _ E2 Hm). cbn [ccstatus].
      destruct (String.eqb s "Done");
        [now apply sqlSelect_sqlDelete_other|now apply sqlSelect_sqlUpsert_other].
    + exact (IH _ _ _ _ H Hm).
    + injection H as <- <- <-. reflexivity.
Qed.

(** X14.  A run of [findNewThreads] that visited every row, over rows with
    distinct thread ids none of which is classified Done, is followed,
    on the cache it left and the same rows, by a run that posts nothing
    and leaves the cache as it is. *)
Theorem Cnc_second_run_is_silent
        (client : Client) (threadData : list IXFStatusQuery) :
  forall (db db' : DB) (tr : list event),
    NoDup (map thread_id threadData) ->
    (forall t s p g ti, In t threadData -> Cnc.classify t = Ok (s, p, g, ti) ->
                        s <> "Done"%string) ->
    Cnc.findNewThreads client db threadData = (tr, db', Cnc.Finished) ->
    exists e, Cnc.findNewThreads client db' threadData = ([], db', e)
              /\ e <> Cnc.Thrown.
Proof.
  intros db db' tr Hnd Hdone H. unfold Cnc.findNewThreads in *.
  destruct (length threadData =? 0); [discriminate H|].
  revert db db' tr Hnd Hdone H.
  induction threadData as [|t more IH]; intros db db' tr Hnd Hdone H.
  - exists Cnc.Finished. split; [reflexivity|discriminate].
  - cbn [map] in Hnd. inversion Hnd as [|x l Hx Hl]; subst.
    cbn [Cnc.threadLoop] in *.
    destruct (Cnc.classify t) as [[[[s p] g] ti]| |q] eqn:Ec.
    + destruct (changed s p (sqlSelect (thread_id t) (ccstatus db))); [|discriminate H].
      destruct (Cnc.threadLoop client _ more) as [[tr2 db2] e2] eqn:E2.
      injection H as <- <- ->.
      assert (Es : String.eqb s "Done" = false).
      { apply String.eqb_neq. apply (Hdone t s p g ti); [now left|exact Ec]. }
      rewrite Es in E2.
      rewrite (@Cnc_threadLoop_other client (thread_id t) more _ _ _ _ E2 Hx).
      cbn [ccstatus].
      destruct (sqlSelect_sqlUpsert_same
                  {| Status.thread_id := thread_id t; Status.stage := s;
                     Status.progress := p |} (ccstatus db)) as (rest & Er).
      cbn [Status.thread_id] in Er. rewrite Er.
      unfold changed. cbn [Status.stage Status.progress].
      rewrite !String.eqb_refl. cbn [negb orb].
      exists Cnc.Returned. split; [reflexivity|discriminate].
    + apply (IH db db' tr Hl); [|exact H].
      intros t' s p g ti Ht'. apply Hdone. now right.
    + discriminate H.
Qed.

Lemma Cnc_second_run_is_silent_witness :
  exists e,
    Cnc.findNewThreads clientA
      {| ccstatus := [rowWIP; {| Status.thread_id := 105; Status.stage := "QC";
                                 Status.progress := "2/2" |}];
         ccprefs := [subOU] |}
      [thread_qc_tag]
    = ([], {| ccstatus := [rowWIP; {| Status.thread_id := 105; Status.stage := "QC";
                                      Status.progress := "2/2" |}];
              ccprefs := [subOU] |}, e)
    /\ e <> Cnc.Thrown.
Proof.
  apply (@Cnc_second_run_is_silent clientA [thread_qc_tag] dbA _
           [ChanSend chanA (threadUrl 105 ++ nl ++ nl ++ "Status: QC 2/2")]).
  - repeat constructor. intros [].
  - intros t s p g ti [<-|[]] E. vm_compute in E. injection E as <- _ _ _.
    discriminate.
  - vm_compute. reflexivity.
Defined.

Lemma sqlDelete_absent (id : Z) (cache : list Status.t) :
  sqlSelect id cache = [] -> sqlDelete id cache = cache.
Proof.
  unfold sqlSelect, sqlDelete. induction cache as [|r cache IH]; [reflexivity|].
  cbn [filter]. destruct (Z.eqb (Status.thread_id r) id); cbn [negb];
    [discriminate|]. intros H. now rewrite IH.
Qed.

(** X15.  A thread classified Done is never cached by [findNewThreads]: on a
    cache without a row for it, the run posts its notification and
    leaves the cache as it was, so that every later run over the same
    row posts the notification again. *)
Theorem Cnc_done_is_announced_again
        (client : Client) (db : DB) (t : IXFStatusQuery)
        (p : string) (g ti : option string) :
  Cnc.classify t = Ok ("Done"%string, p, g, ti) ->
  sqlSelect (thread_id t) (ccstatus db) = [] ->
  Cnc.findNewThreads client db [t]
  = (Cnc.alertCCStatus (thread_id t) "Done" p g ti client db, db, Cnc.Finished).
Proof.
  intros Ec Hsel. unfold Cnc.findNewThreads. cbn [length Nat.eqb Cnc.threadLoop].
  rewrite Ec, Hsel. cbn [changed String.eqb Ascii.eqb Bool.eqb].
  rewrite (sqlDelete_absent _ _ Hsel), app_nil_r.
  now destruct db.
Qed.

Lemma Cnc_done_is_announced_again_witness :
  Cnc.findNewThreads clientA dbA [thread_done_tag]
  = (Cnc.alertCCStatus 110 "Done" "" (Some "9"%string) (Some "ou"%string) clientA dbA,
     dbA, Cnc.Finished).
Proof.
  apply (@Cnc_done_is_announced_again clientA dbA thread_done_tag);
    vm_compute; reflexivity.
Defined.

(** ** The earliest form: one post for a thread *)

Lemma Cnc_alertCCStatus_posts (threadid : Z) (stage progress : string)
      (gen tier : option string) (client : Client) (db : DB) (ev : event) :
  In ev (Cnc.alertCCStatus threadid stage progress gen tier client db) ->
  Cnc.alertCCStatus threadid stage progress gen tier client db = [ev]
  /\ exists row msg,
       ev = ChanSend (AlertChan.channelid row) msg
       /\ In row (ccprefs db)
       /\ optEqb (Some (AlertChan.tier row)) tier = true
       /\ optEqb (Some (AlertChan.gen row)) gen = true.
Proof.
  unfold Cnc.alertCCStatus. cbv zeta.
  destruct (filter _ (ccprefs db)) as [|row rows] eqn:F; [intros []|].
  destruct (negb (isTextChannel _)); [intros []|].
  intros [<-|[]]. split; [reflexivity|].
  assert (Hrow : In row (filter (fun row0 =>
                                   optEqb (Some (AlertChan.tier row0)) tier
                                   && optEqb (Some (AlertChan.gen row0)) gen)
                                (ccprefs db))) by (rewrite F; now left).
  apply filter_In in Hrow. destruct Hrow as (Hin & Hm).
  apply andb_true_iff in Hm. destruct Hm as (Ht & Hg).
  exists row. eexists. repeat split; auto.
Qed.

(** X16.  [findNewThreads] posts at most one notification for a thread,
    however many channels subscribe to its tier and generation: the
    trace of a run has at most as many events as rows were polled, and
    each is a post to the channel of a subscription with the tier and
    the generation of a polled thread; the subscriptions are not
    changed. *)
Theorem Cnc_one_post_for_a_thread
        (client : Client) (threadData : list IXFStatusQuery) :
  forall (db db' : DB) (tr : list event) (e : Cnc.ending),
    Cnc.findNewThreads client db threadData = (tr, db', e) ->
    length tr <= length threadData
    /\ ccprefs db' = ccprefs db
    /\ forall ev, In ev tr ->
         exists row msg, ev = ChanSend (AlertChan.channelid row) msg
                         /\ In row (ccprefs db).
Proof.
  intros db db' tr e H. unfold Cnc.findNewThreads in H.
  destruct (length threadData =? 0).
  { injection H as <- <- <-. cbn. repeat split; [lia|intros ev []]. }
  revert db db' tr e H.
  induction threadData as [|t more IH]; intros db db' tr e H.
  - injection H as <- <- <-. cbn. repeat split; [lia|intros ev []].
  - cbn [Cnc.threadLoop] in H.
    destruct (Cnc.classify t) as [[[[s p] g] ti]| |q].
    + destruct (changed s p _).
      * destruct (Cnc.threadLoop client _ more) as [[tr2 db2] e2] eqn:E2.
        injection H as <- <- <-.
        destruct (IH _ _ _ _ E2) as (I1 & I2 & I3). cbn [ccprefs] in I2, I3.
        assert (Hlen : length (Cnc.alertCCStatus (thread_id t) s p g ti client db) <= 1).
        { destruct (Cnc.alertCCStatus (thread_id t) s p g ti client db)
            as [|ev l] eqn:Ea; [cbn; lia|].
          assert (X : In ev (Cnc.alertCCStatus (thread_id t) s p g ti client db))
            by (rewrite Ea; now left).
          apply Cnc_alertCCStatus_posts in X. destruct X as (X & _).
          rewrite Ea in X. injection X as ->. cbn. lia. }
        rewrite length_app. cbn [length]. repeat split; [lia|exact I2|].
        intros ev Hev. apply in_app_or in Hev. destruct Hev as [Hev|Hev].
        -- apply Cnc_alertCCStatus_posts in Hev.
           destruct Hev as (_ & row & msg & -> & Hin & _). eauto.
        -- now apply I3.
      * injection H as <- <- <-. cbn. repeat split; [lia|intros ev []].
    + destruct (IH _ _ _ _ H) as (I1 & I2 & I3).
      cbn [length]. repeat split; [lia|exact I2|exact I3].
    + injection H as <- <- <-. cbn. repeat split; [lia|intros ev []].
Qed.

Lemma Cnc_one_post_for_a_thread_witness :
  length [ChanSend chanA (threadUrl 105 ++ nl ++ nl ++ "Status: QC 2/2")] <= 1
  /\ ccprefs {| ccstatus := [rowWIP; {| Status.thread_id := 105; Status.stage := "QC";
                                        Status.progress := "2/2" |}];
                ccprefs := [subOU; subOU] |}
     = [subOU; subOU]
  /\ forall ev,
       In ev [ChanSend chanA (threadUrl 105 ++ nl ++ nl ++ "Status: QC 2/2")] ->
       exists row msg, ev = ChanSend (AlertChan.channelid row) msg
                       /\ In row [subOU; subOU].
Proof.
  apply (@Cnc_one_post_for_a_thread clientA [thread_qc_tag]
           {| ccstatus := [rowWIP]; ccprefs := [subOU; subOU] |} _ _ Cnc.Finished).
  vm_compute. reflexivity.
Defined.

(** ** The tier check of the earliest form *)

(** X17.  [validateCCTier] does not look at the letter case of the tier it is
    given, whatever the table of tiers is. *)
Theorem validateCCTier_ignores_case (ccMetaObj : list (string * string))
        (tier : string) :
  CncTier.validateCCTier ccMetaObj (toLowerCase tier)
  = CncTier.validateCCTier ccMetaObj tier.
Proof.
  unfold CncTier.validateCCTier. now rewrite toLowerCase_idem.
Qed.

(** ** The migration command *)

(** X18.  [genConversion] is its own inverse: an abbreviation goes to its
    number and back, a number to its abbreviation and back, and any
    other string is returned as it is. *)
Theorem genConversion_involutive (gen : string) :
  Migrate.genConversion (Migrate.genConversion gen) = gen.
Proof.
  assert (R : Migrate.genConversion gen = gen
              \/ In gen ["SV"; "9"; "SS"; "8"; "SM"; "7"; "XY"; "6"; "BW"; "5";
                         "DP"; "4"; "RS"; "3"; "GS"; "2"; "RB"; "1"]%string).
  { unfold Migrate.genConversion, Migrate.genTable.
    cbn [Migrate.genConversionFrom].
    repeat match goal with
           | |- (if String.eqb gen ?k then _ else _) = _ \/ _ =>
               let E := fresh "E" in
               destruct (String.eqb gen k) eqn:E;
               [apply String.eqb_eq in E; right; rewrite E; cbn; auto 20|]
           end.
    now left. }
  destruct R as [R|R]; [now rewrite !R|].
  cbn [In] in R.
  repeat (destruct R as [<-|R]; [vm_compute; reflexivity|]). destruct R.
Qed.

Lemma remapTier_None (tier : string) :
  Migrate.remapTier tier = None <-> tier = "Ubers"%string.
Proof.
  split; [|intros ->; reflexivity].
  unfold Migrate.remapTier.
  repeat match goal with
         | |- (if String.eqb tier ?k then _ else _) = None -> _ =>
             let E := fresh "E" in
             destruct (String.eqb tier k) eqn:E;
             [try discriminate; intros _; now apply String.eqb_eq in E|]
         end.
  discriminate.
Qed.

Section MigrateLoop.
Variable numberBelow9 : string -> bool.

Lemma ccLoop_from (cc : list Migrate.ICCPrefDump) :
  forall acc,
    let a := fold_left (Migrate.ccStep numberBelow9) cc acc in
    let kept := Migrate.sqlDeleteUbers cc in
    Migrate.servers a = Migrate.servers acc ++ map Migrate.serverid kept
    /\ Migrate.channels a = Migrate.channels acc ++ map Migrate.channelid kept
    /\ Migrate.roles a = Migrate.roles acc ++ map Migrate.role kept
    /\ Migrate.stages a = Migrate.stages acc ++ map Migrate.stage kept
    /\ Migrate.cooldowns a = Migrate.cooldowns acc ++ map Migrate.cooldown kept
    /\ map Some (Migrate.tiers a)
       = map Some (Migrate.tiers acc)
         ++ map (fun row => Migrate.remapTier (Migrate.tier row)) kept
    /\ Migrate.prefixes a
       = Migrate.prefixes acc ++ map (Migrate.remapPrefix numberBelow9) kept
    /\ Migrate.gens a
       = Migrate.gens acc
         ++ map (fun row => toLowerCase (Migrate.genConversion (Migrate.gen row))) kept.
Proof.
  induction cc as [|row cc IH]; intros acc; cbv zeta.
  - cbn [fold_left Migrate.sqlDeleteUbers filter map].
    rewrite !app_nil_r. repeat split; reflexivity.
  - cbn [fold_left Migrate.sqlDeleteUbers filter].
    fold (Migrate.sqlDeleteUbers cc).
    specialize (IH (Migrate.ccStep numberBelow9 acc row)). cbv zeta in IH.
    destruct IH as (I1 & I2 & I3 & I4 & I5 & I6 & I7 & I8).
    rewrite I1, I2, I3, I4, I5, I6, I7, I8. clear I1 I2 I3 I4 I5 I6 I7 I8.
    unfold Migrate.ccStep.
    destruct (Migrate.remapTier (Migrate.tier row)) as [newTier|] eqn:Et.
    + assert (Eu : String.eqb (Migrate.tier row) "Ubers" = false).
      { apply String.eqb_neq. intros E. apply remapTier_None in E. congruence. }
      rewrite Eu. cbn [negb map Migrate.servers Migrate.channels Migrate.roles
                         Migrate.stages Migrate.cooldowns Migrate.tiers
                         Migrate.prefixes Migrate.gens].
      rewrite Et, map_app. cbn [map].
      rewrite <- !app_assoc. repeat split; reflexivity.
    + apply remapTier_None in Et. rewrite Et. cbn [String.eqb Ascii.eqb Bool.eqb negb].
      repeat split; reflexivity.
Qed.

(** X19.  The eight arrays that the loop over the old subscriptions fills
    stay aligned: the rows it leaves out are those with tier "Ubers",
    the very rows the transaction deletes, and for every other row, in
    order, each array receives the entry of that row. *)
Theorem ccLoop_arrays_aligned (cc : list Migrate.ICCPrefDump) :
  let a := Migrate.ccLoop numberBelow9 cc in
  let kept := Migrate.sqlDeleteUbers cc in
  Migrate.servers a = map Migrate.serverid kept
  /\ Migrate.channels a = map Migrate.channelid kept
  /\ Migrate.roles a = map Migrate.role kept
  /\ Migrate.stages a = map Migrate.stage kept
  /\ Migrate.cooldowns a = map Migrate.cooldown kept
  /\ map Some (Migrate.tiers a)
     = map (fun row => Migrate.remapTier (Migrate.tier row)) kept
  /\ Migrate.prefixes a = map (Migrate.remapPrefix numberBelow9) kept
  /\ Migrate.gens a
     = map (fun row => toLowerCase (Migrate.genConversion (Migrate.gen row))) kept.
Proof.
  exact (ccLoop_from cc Migrate.noArrays).
Qed.

End MigrateLoop.

Lemma sqlRename_tier_cases (tier : string) :
  lookup tier Migrate.tierRenames = None
  \/ In tier (map fst Migrate.tierRenames).
Proof.
  destruct (lookup tier Migrate.tierRenames) as [v|] eqn:E; [right|now left].
  apply lookup_In in E. now apply (in_map fst) in E.
Qed.

(** X20.  The row the loop pushes for an old subscription meets the row the
    [UPDATE] statements make of it: when the old generation has no
    upper-case letter and the old tier is one the transaction renames,
    or is already written in lower case without spaces, both carry the
    same primary key, so that the insertion updates that row and adds
    none. *)
Theorem migrate_insert_meets_renamed_row (row : Migrate.ICCPrefDump) :
  Migrate.tier row <> "Ubers"%string ->
  lookup (Migrate.tier row) Migrate.tierRenames <> None
  \/ toLowerCase (Migrate.dashSpaces (Migrate.tier row)) = Migrate.tier row ->
  toLowerCase (Migrate.gen row) = Migrate.gen row ->
  Migrate.insertedKey row = Some (Migrate.renamedKey row).
Proof.
  intros Hub Htier Hgen.
  assert (Eg : toLowerCase (Migrate.genConversion (Migrate.gen row))
               = Migrate.sqlRename Migrate.genRenames (Migrate.gen row)).
  { remember (Migrate.gen row) as g eqn:Eqg. clear Eqg.
    assert (R : (Migrate.genConversion g = g
                 /\ lookup g Migrate.genRenames = None)
                \/ In g ["SV"; "9"; "SS"; "8"; "SM"; "7"; "XY"; "6"; "BW"; "5";
                         "DP"; "4"; "RS"; "3"; "GS"; "2"; "RB"; "1"]%string).
    { unfold Migrate.genConversion, Migrate.genTable, Migrate.genRenames.
      cbn [Migrate.genConversionFrom lookup].
      repeat match goal with
             | |- ((if String.eqb g ?k then _ else _) = _ /\ _) \/ _ =>
                 let E := fresh "E" in
                 destruct (String.eqb g k) eqn:E;
                 [apply String.eqb_eq in E; right; rewrite E; cbn; auto 20|]
             end.
      left. split; [reflexivity|].
      repeat match goal with
             | X : String.eqb g _ = false |- _ => rewrite X; clear X
             end.
      reflexivity. }
    destruct R as [(R1 & R2)|R].
    - unfold Migrate.sqlRename. now rewrite R1, R2.
    - cbn [In] in R.
      repeat (destruct R as [<-|R];
              [first [vm_compute; reflexivity | vm_compute in Hgen; discriminate Hgen]|]).
      destruct R. }
  assert (Et : Migrate.remapTier (Migrate.tier row)
               = Some (Migrate.sqlRename Migrate.tierRenames (Migrate.tier row))).
  { remember (Migrate.tier row) as t eqn:Eqt. clear Eqt.
    destruct (sqlRename_tier_cases t) as [Hn|Hin].
    - destruct Htier as [Htier|Htier]; [now destruct Htier|].
      unfold Migrate.sqlRename. rewrite Hn.
      assert (Hk : forall k, In k (map fst Migrate.tierRenames) ->
                             String.eqb t k = false).
      { intros k Hk. apply String.eqb_neq. intros ->.
        apply in_map_iff in Hk. destruct Hk as ([k' v] & E & Hkv).
        cbn [fst] in E. subst k'. clear - Hn Hkv.
        unfold Migrate.tierRenames in *. cbn [In] in Hkv.
        repeat (destruct Hkv as [Hkv|Hkv];
                [injection Hkv as <- <-; vm_compute in Hn; discriminate Hn|]).
        destruct Hkv. }
      unfold Migrate.remapTier.
      repeat match goal with
             | |- (if String.eqb t ?k then _ else _) = _ =>
                 first [ rewrite (Hk k) by (vm_compute; auto 30)
                       | let E := fresh "E" in
                         destruct (String.eqb t k) eqn:E;
                         [apply String.eqb_eq in E; now destruct Hub|] ]
             end.
      now rewrite Htier.
    - unfold Migrate.tierRenames in Hin. cbn [map fst In] in Hin.
      repeat (destruct Hin as [<-|Hin]; [vm_compute; reflexivity|]).
      destruct Hin. }
  unfold Migrate.insertedKey, Migrate.renamedKey. now rewrite Et, Eg.
Qed.

Lemma migrate_insert_meets_renamed_row_witness :
  Migrate.insertedKey
    {| Migrate.serverid := "192713314399289344";
       Migrate.channelid := "1059653209678950460";
       Migrate.tier := "natdex ou"; Migrate.role := "";
       Migrate.gen := "9"; Migrate.stage := "all";
       Migrate.cooldown := 0; Migrate.prefix := "" |}
  = Some ("192713314399289344", "1059653209678950460", "national-dex",
          "sv", "all")%string.
Proof.
  apply (@migrate_insert_meets_renamed_row
           {| Migrate.serverid := "192713314399289344";
              Migrate.channelid := "1059653209678950460";
              Migrate.tier := "natdex ou"; Migrate.role := "";
              Migrate.gen := "9"; Migrate.stage := "all";
              Migrate.cooldown := 0; Migrate.prefix := "" |}).
  - vm_compute. discriminate.
  - left. vm_compute. discriminate.
  - vm_compute. reflexivity.
Defined.

(** ** The logging helpers *)

(** The filter selects the rows whose type the comment above it
    documents as receiving the event. *)
Lemma targetChans_as_documented
        (event : Logging.loggedEventTypes) (logchan : list Logging.ILogChan)
        (row : Logging.ILogChan) :
  In row (Logging.targetChans event logchan)
  <-> In row logchan /\ In event (Logging.documented (Logging.logtype row)).
Proof.
  assert (H : forall l, arrIncludes (Logging.logtype row) l = true
                        <-> In (Logging.logtype row) l)
    by (intros l; apply arrIncludes_In).
  unfold Logging.documented.
  destruct event; unfold Logging.targetChans; rewrite filter_In, H;
    (split; intros (Hin & Hm); (split; [exact Hin|]));
    try (cbn [In] in Hm;
         repeat (destruct Hm as [<-|Hm]; [cbn; auto 10|]); now destruct Hm);
    repeat match type of Hm with
           | In _ (if String.eqb ?x ?k then _ else _) =>
               let E := fresh "E" in
               destruct (String.eqb x k) eqn:E;
               [apply String.eqb_eq in E; rewrite E; cbn; cbn in Hm;
                intuition discriminate|]
           end;
    destruct Hm.
Qed.

Lemma skipn_all_app {A : Type} (l1 l2 : list A) (n : nat) :
  n <= length l1 -> skipn n (l1 ++ l2) = skipn n l1 ++ l2.
Proof.
  intros H. rewrite skipn_app.
  replace (n - length l1) with 0 by lia. reflexivity.
Qed.

Lemma addFields_Some (e e' : Logging.Embed) (fs : list Logging.embedField) :
  Logging.addFields e fs = Some e' -> e' = Logging.withFields e fs.
Proof.
  unfold Logging.addFields. destruct (_ && _); [|discriminate]. now intros [= <-].
Qed.

Lemma addToEach_Some (f : Logging.embedField) (holder post : list Logging.Embed) :
  Logging.addToEach holder f = Some post ->
  post = map (fun e => Logging.withFields e [f]) holder.
Proof.
  revert post. induction holder as [|e holder IH]; intros post; cbn [Logging.addToEach map].
  - now intros [= <-].
  - destruct (Logging.addFields e [f]) as [e'|] eqn:Ee; [|discriminate].
    destruct (Logging.addToEach holder f) as [post'|]; [|discriminate].
    cbn [option_map]. intros [= <-].
    now rewrite (addFields_Some _ _ Ee), (IH post' eq_refl).
Qed.

Lemma addToEach_previews (embed : Logging.Embed) (f : Logging.embedField) (urls : list string) :
  length (Logging.embedFields embed) < 25 -> Logging.fieldAccepted f = true ->
  Logging.addToEach (map (Logging.previewOf embed) urls) f
  = Some (map (fun e => Logging.withFields e [f]) (map (Logging.previewOf embed) urls)).
Proof.
  intros Hn Hf. induction urls as [|u urls IH]; [reflexivity|].
  cbn [map Logging.addToEach]. rewrite IH. unfold Logging.addFields.
  cbn [Logging.previewOf Logging.withURLImage Logging.embedFields length forallb]. rewrite Hf.
  replace (length (Logging.embedFields embed) + 1 <=? 25) with true
    by (symmetry; apply Nat.leb_le; lia).
  reflexivity.
Qed.

Lemma addToEach_rejected (f : Logging.embedField) (holder : list Logging.Embed) :
  holder <> [] -> Logging.fieldAccepted f = false -> Logging.addToEach holder f = None.
Proof.
  intros Hh Hf. destruct holder as [|e holder]; [now destruct Hh|].
  cbn [Logging.addToEach]. unfold Logging.addFields. cbn [forallb]. rewrite Hf.
  now rewrite !andb_false_r.
Qed.

Section AttachmentLoop.
Variable w : Logging.World.
Variable send : nat -> bool.
Variable embed : Logging.Embed.
Variable attachmentArr : list string.

Lemma images_previews (f : Logging.embedField) (urls : list string) :
  map Logging.embedImage (map (fun e => Logging.withFields e [f]) (map (Logging.previewOf embed) urls))
  = map Some urls.
Proof. induction urls as [|u urls IH]; [reflexivity|]. cbn [map]. now rewrite IH. Qed.

Lemma imagesOf_previews (f : Logging.embedField) (urls : list string) :
  Logging.imagesOf (map (fun e => Logging.withFields e [f]) (map (Logging.previewOf embed) urls)) = urls.
Proof.
  induction urls as [|u urls IH]; [reflexivity|].
  cbn [map Logging.imagesOf flat_map]. unfold Logging.imagesOf in IH.
  rewrite IH. reflexivity.
Qed.

Lemma listsItsImages_previews (urls : list string) :
  Logging.listsItsImages embed
    (map (fun e => Logging.withFields e [Logging.attachmentsField (Logging.joinSpace urls)])
         (map (Logging.previewOf embed) urls)).
Proof.
  unfold Logging.listsItsImages. rewrite imagesOf_previews.
  apply Forall_forall. intros e He.
  apply in_map_iff in He. destruct He as (e0 & <- & He0).
  apply in_map_iff in He0. destruct He0 as (u & <- & _). reflexivity.
Qed.

(** What the loop computes for the post in preparation. *)
Lemma slice_pending (done : list string) (a : string) (more : list string)
      (attCnt postCnt : nat) :
  attachmentArr = done ++ a :: more ->
  length done = 4 * postCnt + attCnt ->
  attCnt + 1 = 4 ->
  Logging.slice attachmentArr (4 * postCnt) (4 * (postCnt + 1))
  = skipn (4 * postCnt) done ++ [a].
Proof.
  intros Hfull Hlen E4.
  assert (Hp : length (skipn (4 * postCnt) done) = attCnt)
    by (rewrite length_skipn; lia).
  unfold Logging.slice. rewrite Hfull.
  replace (4 * (postCnt + 1) - 4 * postCnt) with 4 by lia.
  rewrite skipn_all_app by lia.
  change (a :: more) with ([a] ++ more). rewrite app_assoc.
  rewrite firstn_app.
  rewrite firstn_all2 by (rewrite length_app, Hp; cbn [length]; lia).
  replace (4 - length (skipn (4 * postCnt) done ++ [a])) with 0
    by (rewrite length_app, Hp; cbn [length]; lia).
  cbn [firstn]. apply app_nil_r.
Qed.

Lemma firstn_past (A : Type) (l1 l2 : list A) (k : nat) :
  l1 ++ firstn k l2 = firstn (length l1 + k) (l1 ++ l2).
Proof.
  rewrite firstn_app. replace (length l1 + k - length l1) with k by lia.
  now rewrite (@firstn_all2 _ (length l1 + k) l1) by lia.
Qed.

(** The invariant of the loop: [done] is what has been visited, the
    holder previews what has been visited since the last post. *)
Lemma attachmentLoop_inv (rest : list string) :
  forall (done : list string) (attCnt postCnt : nat),
    attachmentArr = done ++ rest ->
    length done = Logging.maxImages * postCnt + attCnt ->
    attCnt < Logging.maxImages ->
    let pending := skipn (Logging.maxImages * postCnt) done in
    let r := Logging.attachmentLoop w send embed attachmentArr rest
               (map (Logging.previewOf embed) pending) attCnt postCnt in
    (exists k, concat (map (map Logging.embedImage) (fst r))
               = map Some (firstn k (pending ++ rest)))
    /\ Forall (fun post => 1 <= length post <= Logging.maxImages) (fst r)
    /\ Forall (Logging.listsItsImages embed) (fst r)
    /\ (snd r = true ->
        concat (map (map Logging.embedImage) (fst r)) = map Some (pending ++ rest)
        /\ attCnt + length rest <= Logging.maxImages * length (fst r)
           < attCnt + length rest + Logging.maxImages).
Proof.
  unfold Logging.maxImages.
  induction rest as [|a more IH]; intros done attCnt postCnt Hfull Hlen Hcnt;
    cbv zeta.
  - rewrite app_nil_r in Hfull. subst done.
    assert (Hp : length (skipn (4 * postCnt) attachmentArr) = attCnt)
      by (rewrite length_skipn; lia).
    cbn [Logging.attachmentLoop]. rewrite length_map, Hp, app_nil_r.
    unfold Logging.sliceFrom, Logging.maxImages.
    destruct attCnt as [|n].
    + cbn [Nat.eqb negb fst snd]. destruct (skipn (4 * postCnt) attachmentArr);
        [|discriminate Hp].
      cbn. repeat split; auto; try lia. now exists 0.
    + cbn [Nat.eqb negb].
      destruct (Logging.addToEach _ _) as [embeds|] eqn:Ea; [|thrown].
      apply addToEach_Some in Ea. subst embeds.
      destruct (send postCnt); [|thrown].
      cbn [fst snd concat map length].
      rewrite app_nil_r, images_previews.
      split; [|split; [|split]].
      * exists (S n). now rewrite <- Hp, firstn_all.
      * constructor; [|constructor]. rewrite !length_map, Hp. lia.
      * constructor; [|constructor]. apply listsItsImages_previews.
      * intros _. split; [reflexivity|lia].
  - cbn [Logging.attachmentLoop]. cbv zeta. unfold Logging.maxImages, Logging.setURLImage.
    destruct (Logging.validURL w Logging.previewURL && Logging.validImageURL w a); [|thrown].
    fold (Logging.previewOf embed a).
    assert (Hp : length (skipn (4 * postCnt) done) = attCnt)
      by (rewrite length_skipn; lia).
    assert (Hfull' : attachmentArr = (done ++ [a]) ++ more)
      by (now rewrite <- app_assoc).
    assert (Hpend : skipn (4 * postCnt) (done ++ [a])
                    = skipn (4 * postCnt) done ++ [a])
      by (apply skipn_all_app; lia).
    destruct (attCnt + 1 =? 4) eqn:E4.
    + apply Nat.eqb_eq in E4.
      rewrite (@slice_pending done a more attCnt postCnt Hfull Hlen E4).
      replace (map (Logging.previewOf embed) (skipn (4 * postCnt) done) ++ [Logging.previewOf embed a])
        with (map (Logging.previewOf embed) (skipn (4 * postCnt) done ++ [a]))
        by (now rewrite map_app).
      destruct (Logging.addToEach _ _) as [embeds|] eqn:Ea; [|thrown].
      apply addToEach_Some in Ea. subst embeds.
      destruct (send postCnt); [|thrown].
      assert (Hnext : skipn (4 * (postCnt + 1)) (done ++ [a]) = []).
      { apply skipn_all2. rewrite length_app. cbn [length]. lia. }
      specialize (IH (done ++ [a]) 0 (postCnt + 1) Hfull').
      cbv zeta in IH. rewrite Hnext in IH. cbn [map app] in IH.
      destruct IH as ((k & I0) & I2 & I3 & I4);
        [rewrite length_app; cbn [length]; lia|lia|].
      destruct (Logging.attachmentLoop w send embed attachmentArr more [] 0 (postCnt + 1))
        as [posts ended].
      cbn [fst snd] in *. cbn [map concat length]. rewrite images_previews.
      split; [|split; [|split]].
      * exists (length (skipn (4 * postCnt) done ++ [a]) + k).
        rewrite I0, <- map_app. f_equal.
        replace (skipn (4 * postCnt) done ++ a :: more)
          with ((skipn (4 * postCnt) done ++ [a]) ++ more)
          by (now rewrite <- app_assoc).
        apply firstn_past.
      * constructor; [|exact I2].
        rewrite !length_map, length_app, Hp. cbn [length]. lia.
      * constructor; [|exact I3]. apply listsItsImages_previews.
      * intros He. destruct (I4 He) as (I1 & I5). split; [|lia].
        rewrite I1, <- map_app, <- app_assoc. reflexivity.
    + apply Nat.eqb_neq in E4.
      specialize (IH (done ++ [a]) (attCnt + 1) postCnt Hfull').
      cbv zeta in IH. rewrite Hpend, map_app in IH. cbn [map] in IH.
      destruct IH as (I0 & I2 & I3 & I4);
        [rewrite length_app; cbn [length]; lia|lia|].
      rewrite <- app_assoc in I0, I4. cbn [app] in I0, I4.
      split; [exact I0|]. split; [exact I2|]. split; [exact I3|].
      intros He. destruct (I4 He) as (I1 & I5). split; [exact I1|].
      cbn [length]. lia.
Qed.

Lemma sliceFrom_pending (attCnt postCnt : nat) :
  length attachmentArr = 4 * postCnt + attCnt -> attCnt < 4 ->
  Logging.sliceFrom attachmentArr (4 * postCnt)
  = Logging.slice attachmentArr (4 * postCnt) (4 * (postCnt + 1)).
Proof.
  intros Hlen Hcnt. unfold Logging.sliceFrom, Logging.slice.
  symmetry. apply firstn_all2. rewrite length_skipn. lia.
Qed.

(** When every check passes and every post is Logging.delivered, the loop runs
    to its end. *)
Lemma attachmentLoop_ends (rest : list string) :
  Logging.attachmentsPass w embed attachmentArr ->
  (forall p, send p = true) ->
  forall (done : list string) (attCnt postCnt : nat),
    attachmentArr = done ++ rest ->
    length done = Logging.maxImages * postCnt + attCnt ->
    attCnt < Logging.maxImages ->
    snd (Logging.attachmentLoop w send embed attachmentArr rest
           (map (Logging.previewOf embed) (skipn (Logging.maxImages * postCnt) done))
           attCnt postCnt) = true.
Proof.
  unfold Logging.maxImages. intros (Hurl & Himg & Hn & Hval) Hsend.
  unfold Logging.maxImages in Hval.
  assert (Hacc : forall p, 4 * p < length attachmentArr ->
                 Logging.fieldAccepted
                   (Logging.attachmentsField
                      (Logging.joinSpace (Logging.slice attachmentArr (4 * p) (4 * (p + 1))))) = true).
  { intros p Hp. specialize (Hval p Hp). unfold Logging.fieldAccepted.
    cbn [Logging.name Logging.value Logging.attachmentsField String.length].
    destruct Hval as (V1 & V2).
    apply Nat.leb_le in V1, V2. now rewrite V1, V2. }
  induction rest as [|a more IH]; intros done attCnt postCnt Hfull Hlen Hcnt.
  - rewrite app_nil_r in Hfull. subst done.
    assert (Hp : length (skipn (4 * postCnt) attachmentArr) = attCnt)
      by (rewrite length_skipn; lia).
    cbn [Logging.attachmentLoop]. rewrite length_map, Hp.
    destruct attCnt as [|n]; [reflexivity|].
    cbn [Nat.eqb negb]. unfold Logging.maxImages.
    rewrite (@sliceFrom_pending (S n) postCnt Hlen Hcnt).
    rewrite addToEach_previews; [|exact Hn|apply Hacc; lia].
    now rewrite Hsend.
  - cbn [Logging.attachmentLoop]. cbv zeta. unfold Logging.maxImages, Logging.setURLImage.
    assert (Ha : Logging.validImageURL w a = true).
    { rewrite Forall_forall in Himg. apply Himg. rewrite Hfull.
      apply in_or_app. right. now left. }
    rewrite Hurl, Ha. cbn [andb]. fold (Logging.previewOf embed a).
    assert (Hp : length (skipn (4 * postCnt) done) = attCnt)
      by (rewrite length_skipn; lia).
    assert (Hfull' : attachmentArr = (done ++ [a]) ++ more)
      by (now rewrite <- app_assoc).
    assert (Hpend : skipn (4 * postCnt) (done ++ [a])
                    = skipn (4 * postCnt) done ++ [a])
      by (apply skipn_all_app; lia).
    replace (map (Logging.previewOf embed) (skipn (4 * postCnt) done) ++ [Logging.previewOf embed a])
      with (map (Logging.previewOf embed) (skipn (4 * postCnt) done ++ [a]))
      by (now rewrite map_app).
    destruct (attCnt + 1 =? 4) eqn:E4.
    + apply Nat.eqb_eq in E4.
      rewrite addToEach_previews;
        [|exact Hn|apply Hacc; rewrite Hfull, length_app; cbn [length]; lia].
      rewrite Hsend.
      assert (Hnext : skipn (4 * (postCnt + 1)) (done ++ [a]) = []).
      { apply skipn_all2. rewrite length_app. cbn [length]. lia. }
      specialize (IH (done ++ [a]) 0 (postCnt + 1) Hfull').
      rewrite Hnext in IH. cbn [map] in IH.
      destruct (Logging.attachmentLoop w send embed attachmentArr more [] 0 (postCnt + 1))
        as [posts ended].
      cbn [snd] in *. apply IH; [rewrite length_app; cbn [length]; lia|lia].
    + apply Nat.eqb_neq in E4.
      specialize (IH (done ++ [a]) (attCnt + 1) postCnt Hfull').
      rewrite Hpend in IH. apply IH; [rewrite length_app; cbn [length]; lia|lia].
Qed.

(** When the URLs of the post in preparation make a Logging.value the library
    rejects, nothing more is posted. *)
Lemma attachmentLoop_rejected (rest : list string) :
  forall (done : list string) (attCnt postCnt : nat),
    attachmentArr = done ++ rest ->
    length done = Logging.maxImages * postCnt + attCnt ->
    attCnt < Logging.maxImages ->
    Logging.fieldAccepted
      (Logging.attachmentsField
         (Logging.joinSpace (Logging.slice attachmentArr (Logging.maxImages * postCnt)
                           (Logging.maxImages * (postCnt + 1))))) = false ->
    fst (Logging.attachmentLoop w send embed attachmentArr rest
           (map (Logging.previewOf embed) (skipn (Logging.maxImages * postCnt) done))
           attCnt postCnt) = [].
Proof.
  unfold Logging.maxImages.
  induction rest as [|a more IH]; intros done attCnt postCnt Hfull Hlen Hcnt Hrej.
  - rewrite app_nil_r in Hfull. subst done.
    assert (Hp : length (skipn (4 * postCnt) attachmentArr) = attCnt)
      by (rewrite length_skipn; lia).
    cbn [Logging.attachmentLoop]. rewrite length_map, Hp.
    destruct attCnt as [|n]; [reflexivity|].
    cbn [Nat.eqb negb]. unfold Logging.maxImages.
    rewrite (@sliceFrom_pending (S n) postCnt Hlen Hcnt).
    rewrite addToEach_rejected; [reflexivity| |exact Hrej].
    intros X. apply (f_equal (@length _)) in X. rewrite length_map, Hp in X.
    discriminate X.
  - cbn [Logging.attachmentLoop]. cbv zeta. unfold Logging.maxImages, Logging.setURLImage.
    destruct (Logging.validURL w Logging.previewURL && Logging.validImageURL w a); [|reflexivity].
    fold (Logging.previewOf embed a).
    assert (Hp : length (skipn (4 * postCnt) done) = attCnt)
      by (rewrite length_skipn; lia).
    assert (Hfull' : attachmentArr = (done ++ [a]) ++ more)
      by (now rewrite <- app_assoc).
    assert (Hpend : skipn (4 * postCnt) (done ++ [a])
                    = skipn (4 * postCnt) done ++ [a])
      by (apply skipn_all_app; lia).
    destruct (attCnt + 1 =? 4) eqn:E4.
    + rewrite addToEach_rejected; [reflexivity| |exact Hrej].
      intros X. now apply app_eq_nil in X.
    + apply Nat.eqb_neq in E4.
      specialize (IH (done ++ [a]) (attCnt + 1) postCnt Hfull').
      rewrite Hpend, map_app in IH. cbn [map] in IH.
      apply IH; [rewrite length_app; cbn [length]; lia|lia|exact Hrej].
Qed.

(** X21.  The attachments of a deleted message are previewed in posts of at
    most four embeds.  Whatever throws on the way, the posts delivered
    show an initial part of the attachments, each as the image of one
    embed and in the order of the message, no post is empty, and the
    "Attachments" field of every embed of a post lists the images of
    that post.  When the loop runs to its end every attachment is
    shown, in as many posts as the number of attachments divided by
    four, rounded up.  It does so when every check of the library
    passes and every post is delivered; and when the URLs of the first
    post, joined, are longer than the 1024 characters the library
    allows in a field, nothing is posted at all. *)
Theorem attachmentLoop_posts :
  let r := Logging.attachmentLoop w send embed attachmentArr attachmentArr [] 0 0 in
  (exists k, concat (map (map Logging.embedImage) (fst r))
             = map Some (firstn k attachmentArr))
  /\ Forall (fun post => 1 <= length post <= Logging.maxImages) (fst r)
  /\ Forall (Logging.listsItsImages embed) (fst r)
  /\ (snd r = true ->
      concat (map (map Logging.embedImage) (fst r)) = map Some attachmentArr
      /\ length attachmentArr <= Logging.maxImages * length (fst r)
         < length attachmentArr + Logging.maxImages)
  /\ (1024 < String.length (Logging.joinSpace (firstn Logging.maxImages attachmentArr)) ->
      fst r = [])
  /\ (Logging.attachmentsPass w embed attachmentArr -> (forall p, send p = true) ->
      snd r = true).
Proof.
  cbv zeta.
  pose proof (@attachmentLoop_inv attachmentArr [] 0 0 eq_refl eq_refl
                ltac:(unfold Logging.maxImages; lia)) as H.
  cbv zeta in H. unfold Logging.maxImages in H. cbn [skipn map Nat.mul Nat.add app] in H.
  destruct H as (H1 & H2 & H3 & H4).
  split; [exact H1|]. split; [exact H2|]. split; [exact H3|].
  split; [exact H4|]. split.
  - intros Hlong.
    apply (@attachmentLoop_rejected attachmentArr [] 0 0 eq_refl eq_refl
             ltac:(unfold Logging.maxImages; lia)).
    unfold Logging.fieldAccepted, Logging.slice. unfold Logging.maxImages in *.
    cbn [Logging.name Logging.value Logging.attachmentsField Nat.mul Nat.add Nat.sub skipn].
    replace (String.length (Logging.joinSpace (firstn 4 attachmentArr)) <=? 1024)
      with false by (symmetry; apply Nat.leb_gt; exact Hlong).
    now rewrite andb_false_r.
  - intros Hpass Hsend.
    exact (@attachmentLoop_ends attachmentArr Hpass Hsend [] 0 0 eq_refl eq_refl
             ltac:(unfold Logging.maxImages; lia)).
Qed.

End AttachmentLoop.

Section ChannelLoop.
Variable w : Logging.World.
Variable ogEmbed : Logging.Embed.
Variable client : Client.
Variable message : option Logging.Message.

(** When the checks pass and the posts are Logging.delivered, the body of the
    [try] runs to its end and posts at least once. *)
Lemma postsOf_complete (send : nat -> bool) :
  Logging.messagePasses w ogEmbed message -> (forall p, send p = true) ->
  snd (Logging.postsOf w send ogEmbed message) = true
  /\ fst (Logging.postsOf w send ogEmbed message) <> [].
Proof.
  intros Hpass Hsend. unfold Logging.postsOf.
  destruct message as [m|]; [|rewrite Hsend; split; [reflexivity|discriminate]].
  cbn [Logging.messagePasses] in Hpass.
  destruct (0 <? length (Logging.attachments m)) eqn:E.
  - apply Nat.ltb_lt in E.
    pose proof (@attachmentLoop_ends w send ogEmbed (Logging.attachments m)
                  (Logging.attachments m) Hpass Hsend [] 0 0 eq_refl eq_refl
                  ltac:(unfold Logging.maxImages; lia)) as H6.
    pose proof (@attachmentLoop_inv w send ogEmbed (Logging.attachments m)
                  (Logging.attachments m) [] 0 0 eq_refl eq_refl
                  ltac:(unfold Logging.maxImages; lia)) as H.
    cbv zeta in H. unfold Logging.maxImages in H, H6.
    cbn [skipn map Nat.mul Nat.add app] in H, H6.
    destruct H as (_ & _ & _ & H4).
    split; [exact H6|].
    destruct (H4 H6) as (_ & Hc & _).
    intros X. rewrite X in Hc. cbn [length] in Hc. lia.
  - destruct Hpass as (_ & _ & Hn & _).
    unfold Logging.addFields. cbn [length forallb].
    replace (length (Logging.embedFields ogEmbed) + 1 <=? 25) with true
      by (symmetry; apply Nat.leb_le; lia).
    cbn. rewrite Hsend. split; [reflexivity|discriminate].
Qed.

Lemma chanLoop_sound (chans : list Logging.ILogChan) :
  forall i c embeds,
    In (c, embeds) (Logging.chanLoop w ogEmbed client message i chans) ->
    exists row, In row chans /\ Logging.channelid row = c
                /\ isTextChannel (fetch client c) = true.
Proof.
  induction chans as [|chan more IH]; intros i c embeds H; cbn [Logging.chanLoop] in H;
    [destruct H|].
  assert (Hmore : forall j, In (c, embeds) (Logging.chanLoop w ogEmbed client message j more) ->
                  exists row, In row (chan :: more) /\ Logging.channelid row = c
                              /\ isTextChannel (fetch client c) = true).
  { intros j Hj. destruct (IH _ _ _ Hj) as (row & Hin & Hrow).
    exists row. split; [now right|exact Hrow]. }
  destruct (isTextChannel (fetch client (Logging.channelid chan))) eqn:Et; cbn [negb] in H;
    [|now apply Hmore in H].
  destruct (Logging.postsOf w (Logging.delivered w i) ogEmbed message) as [posts ended].
  apply in_app_or in H. destruct H as [H|H].
  - apply in_map_iff in H. destruct H as (e & E & _). injection E as <- _.
    exists chan. split; [now left|auto].
  - destruct (ended || Logging.handlerReturns w i); [now apply Hmore in H|destruct H].
Qed.

Lemma chanLoop_complete (chans : list Logging.ILogChan) :
  Logging.messagePasses w ogEmbed message ->
  (forall i p, Logging.delivered w i p = true) ->
  forall i row,
    In row chans -> isTextChannel (fetch client (Logging.channelid row)) = true ->
    In (Logging.channelid row) (map fst (Logging.chanLoop w ogEmbed client message i chans)).
Proof.
  intros Hpass Hsend.
  induction chans as [|chan more IH]; intros i row Hin Ht; [destruct Hin|].
  cbn [Logging.chanLoop].
  destruct (isTextChannel (fetch client (Logging.channelid chan))) eqn:Et; cbn [negb].
  - destruct (postsOf_complete (Logging.delivered w i) Hpass (Hsend i)) as (He & Hne).
    destruct (Logging.postsOf w (Logging.delivered w i) ogEmbed message) as [posts ended].
    cbn [fst snd] in He, Hne. subst ended. cbn [orb].
    rewrite map_app. apply in_or_app.
    destruct Hin as [->|Hin]; [left|right; now apply IH].
    destruct posts as [|post posts]; [now destruct Hne|]. now left.
  - destruct Hin as [->|Hin]; [congruence|now apply IH].
Qed.

End ChannelLoop.

(** X22.  An event is posted only to channels of the server whose type the
    comment above the filter documents as receiving it ("all" every
    event, "edits" the edits, "nonedits" everything else, and so on for
    the four other types) and that resolve to a text channel or thread,
    whatever is thrown on the way.  When the checks of the library pass
    on what the message makes the loop build and every post is
    delivered, each of these channels gets at least one post. *)
Theorem postLogEvent_channels
        (w : Logging.World) (ogEmbed : Logging.Embed) (client : Client)
        (logchan : list Logging.ILogChan) (event : Logging.loggedEventTypes)
        (message : option Logging.Message) :
  let posts := Logging.postLogEvent w ogEmbed client logchan event message in
  (forall c, In c (map fst posts) ->
     exists row,
       In row logchan /\ Logging.channelid row = c
       /\ In event (Logging.documented (Logging.logtype row))
       /\ isTextChannel (fetch client c) = true)
  /\ (Logging.messagePasses w ogEmbed message ->
      (forall i p, Logging.delivered w i p = true) ->
      forall row,
        In row logchan ->
        In event (Logging.documented (Logging.logtype row)) ->
        isTextChannel (fetch client (Logging.channelid row)) = true ->
        In (Logging.channelid row) (map fst posts)).
Proof.
  cbv zeta. unfold Logging.postLogEvent.
  destruct logchan as [|r0 l0] eqn:El.
  - cbn. split; [intros c []|intros _ _ row []].
  - cbn [length Nat.eqb negb]. rewrite <- El. clear El r0 l0. split.
    + intros c H. apply in_map_iff in H. destruct H as ([c' embeds] & <- & H).
      cbn [fst]. apply chanLoop_sound in H. destruct H as (row & Hrow & <- & Ht).
      apply targetChans_as_documented in Hrow. destruct Hrow as (Hin & Hdoc).
      exists row. auto.
    + intros Hpass Hsend row Hin Hdoc Ht.
      apply chanLoop_complete; auto.
      apply targetChans_as_documented. auto.
Qed.

Lemma attachmentLoop_posts_witness :
  Logging.attachmentsPass worldOK embedDeleted fiveImages
  /\ snd (Logging.attachmentLoop worldOK (fun _ => true) embedDeleted
            fiveImages fiveImages [] 0 0) = true
  /\ map Logging.imagesOf
         (fst (Logging.attachmentLoop worldOK (fun _ => true) embedDeleted
                 fiveImages fiveImages [] 0 0))
     = [firstn 4 fiveImages; skipn 4 fiveImages].
Proof.
  assert (Hpass : Logging.attachmentsPass worldOK embedDeleted fiveImages).
  { split; [vm_compute; reflexivity|].
    split; [repeat constructor|].
    split; [vm_compute; lia|].
    intros p Hp. destruct p as [|[|p]]; [vm_compute; lia|vm_compute; lia|].
    unfold Logging.maxImages in Hp. cbn [length fiveImages] in Hp. lia. }
  split; [exact Hpass|].
  split; [|vm_compute; reflexivity].
  destruct (@attachmentLoop_posts worldOK (fun _ => true) embedDeleted fiveImages)
    as (_ & _ & _ & _ & _ & H).
  apply H; [exact Hpass|reflexivity].
Defined.

Lemma postLogEvent_channels_witness :
  Logging.messagePasses worldOK embedDeleted (Some messageDeleted)
  /\ In chanA
        (map fst (Logging.postLogEvent worldOK embedDeleted clientA logchanA
                    Logging.ModDelete (Some messageDeleted)))
  /\ length (Logging.postLogEvent worldOK embedDeleted clientA logchanA
               Logging.ModDelete (Some messageDeleted)) = 2.
Proof.
  assert (Hpass : Logging.messagePasses worldOK embedDeleted (Some messageDeleted)).
  { split; [vm_compute; reflexivity|].
    split; [repeat constructor|].
    split; [vm_compute; lia|].
    intros p Hp. destruct p as [|[|p]]; [vm_compute; lia|vm_compute; lia|].
    unfold Logging.maxImages in Hp.
    cbn [length Logging.attachments messageDeleted fiveImages] in Hp. lia. }
  split; [exact Hpass|].
  split; [|vm_compute; reflexivity].
  destruct (@postLogEvent_channels worldOK embedDeleted clientA logchanA
              Logging.ModDelete (Some messageDeleted)) as (_ & H).
  apply (H Hpass (fun _ _ => eq_refl)
           {| Logging.channelid := chanA; Logging.logtype := "modex" |});
    [now left|vm_compute; tauto|vm_compute; reflexivity].
Defined.

(** X23.  The "Content" field of the embed for a deleted message is never
    empty and never longer than 1024 characters, whatever the message
    held: an empty text is shown as "No text", a longer one is replaced
    by a notice. *)
Theorem buildMsgDeleteEmbedParams_content
        (executor : Logging.Executor) (message : Logging.Message) :
  exists v more,
    snd (Logging.buildMsgDeleteEmbedParams executor message)
    = {| Logging.name := "Content"; Logging.value := v; Logging.inline := None |}
      :: more
    /\ 1 <= String.length v <= 1024
    /\ (v = Logging.content message
        \/ v = "No text"%string /\ Logging.content message = ""%string
        \/ v = "Message too long to output."%string
           /\ 1024 < String.length (Logging.content message)).
Proof.
  unfold Logging.buildMsgDeleteEmbedParams. cbv zeta. cbn [snd].
  eexists. eexists. split; [reflexivity|].
  unfold truthy.
  destruct (String.eqb (Logging.content message) "") eqn:E0; cbn [negb].
  - apply String.eqb_eq in E0. cbn. split; [lia|auto].
  - destruct (1024 <? String.length (Logging.content message)) eqn:E1.
    + apply Nat.ltb_lt in E1. cbn [String.length]. split; [lia|auto].
    + apply Nat.ltb_ge in E1. split; [|auto]. split; [|exact E1].
      destruct (Logging.content message); [discriminate E0|cbn; lia].
Qed.

(** ** The support tickets *)

Lemma uniqueFrom_In (arr : list string) :
  forall seen x,
    In x (Tickets.uniqueFrom seen arr) <-> In x arr /\ ~ In x seen.
Proof.
  induction arr as [|a arr IH]; intros seen x; cbn [Tickets.uniqueFrom In].
  - split; [intros []|intros ([] & _)].
  - destruct (arrIncludes a seen) eqn:E.
    + rewrite IH. apply arrIncludes_In in E. split.
      * intros (H & Hn). auto.
      * intros ([<-|H] & Hn); [contradiction|auto].
    + assert (Ha : ~ In a seen)
        by (intros X; apply arrIncludes_In in X; congruence).
      cbn [In]. rewrite IH. split.
      * intros [<-|(H & Hn)]; [auto|].
        split; [auto|]. intros X. apply Hn. apply in_or_app. now left.
      * intros ([<-|H] & Hn); [now left|].
        destruct (string_dec a x) as [->|Hne]; [now left|right].
        split; [exact H|]. intros X. apply in_app_or in X.
        destruct X as [X|[X|[]]]; auto.
Qed.

Lemma uniqueFrom_NoDup (arr : list string) :
  forall seen, NoDup (Tickets.uniqueFrom seen arr).
Proof.
  induction arr as [|a arr IH]; intros seen; cbn [Tickets.uniqueFrom];
    [constructor|].
  destruct (arrIncludes a seen); [apply IH|].
  constructor; [|apply IH].
  intros H. apply uniqueFrom_In in H. destruct H as (_ & Hn).
  apply Hn. apply in_or_app. right. now left.
Qed.

Lemma ping_inj (a b : string) : Tickets.ping a = Tickets.ping b -> a = b.
Proof.
  unfold Tickets.ping. intros E. cbn in E. injection E as E.
  now apply append_cancel_r in E.
Qed.

Section DistinctImages.

Variables (A B : Type) (f : A -> B).

Lemma NoDup_map_filter (p : A -> bool) (l : list A) :
  NoDup (map f l) -> NoDup (map f (filter p l)).
Proof.
  induction l as [|x l IH]; cbn [map filter]; [auto|].
  intros H. inversion H as [|y l' Hx Hl]; subst.
  destruct (p x); cbn [map]; [|auto].
  constructor; [|auto].
  intros X. apply Hx. apply in_map_iff in X. destruct X as (z & E & Hz).
  apply filter_In in Hz. rewrite <- E. apply in_map. tauto.
Qed.

Lemma NoDup_map_inj (l : list A) :
  (forall x y, f x = f y -> x = y) -> NoDup l -> NoDup (map f l).
Proof.
  intros Hf. induction 1 as [|x l Hx Hl IH]; cbn [map]; constructor; [|exact IH].
  intros X. apply in_map_iff in X. destruct X as (y & E & Hy).
  apply Hf in E. now subst.
Qed.

End DistinctImages.

Lemma pings_of_roles (l : list string) :
  (forall s, In s l -> s <> "-"%string) ->
  flat_map (fun s => if negb (String.eqb s "-") then [Tickets.ping s] else []) l
  = map Tickets.ping l.
Proof.
  induction l as [|s l IH]; intros Hok; [reflexivity|].
  cbn [flat_map map].
  assert (E : String.eqb s "-" = false)
    by (apply String.eqb_neq; apply Hok; now left).
  rewrite E. cbn [negb app]. f_equal. apply IH.
  intros s' Hs'. apply Hok. now right.
Qed.

(** X24.  What [/config tickets] stores is what [createTicket] pings.  For a
    message id that is new to the table and role ids other than "-":
    the roles pinged under the button are the roles given to the
    command, each once, or the word "staff" when none was given; and
    the rows stored keep (serverid, staffid) a key of the table. *)
Theorem tickets_staff_round_trip
        (table : list Tickets.row) (guildId msgId threadChannelId : string)
        (staffRole staff2 staff3 : option string) (logchan : option string) :
  (forall r, In r table -> Tickets.messageid r <> msgId) ->
  (forall id, In (Some id) [staffRole; staff2; staff3] -> id <> "-"%string) ->
  let table' :=
    Tickets.saveTickets table guildId msgId threadChannelId
      (Tickets.staffRoles staffRole staff2 staff3) logchan in
  let pings := Tickets.staffPings (Tickets.threadSetup table' msgId) in
  NoDup pings
  /\ (forall p,
        In p pings <->
        (exists id, In (Some id) [staffRole; staff2; staff3] /\ p = Tickets.ping id)
        \/ (staffRole = None /\ staff2 = None /\ staff3 = None /\ p = "staff"%string))
  /\ (NoDup (map Tickets.key table) -> NoDup (map Tickets.key table')).
Proof.
  intros Hfresh Hdash. cbv zeta.
  set (given := flat_map (fun role => match role with Some id => [id] | None => [] end)
                         [staffRole; staff2; staff3]).
  assert (Hgiven : forall id, In id given <-> In (Some id) [staffRole; staff2; staff3]).
  { intros id. unfold given. rewrite in_flat_map. split.
    - intros ([x|] & Hx & Hid); [|destruct Hid].
      destruct Hid as [<-|[]]. exact Hx.
    - intros H. exists (Some id). split; [exact H|now left]. }
  set (sr := Tickets.staffRoles staffRole staff2 staff3).
  assert (Esetup : Tickets.threadSetup
                     (Tickets.saveTickets table guildId msgId threadChannelId sr logchan)
                     msgId
                   = map (fun s => {| Tickets.serverid := guildId;
                                      Tickets.messageid := msgId;
                                      Tickets.threadchanid := threadChannelId;
                                      Tickets.staffid := s;
                                      Tickets.logchanid := logchan |}) sr).
  { unfold Tickets.threadSetup, Tickets.saveTickets. rewrite filter_app.
    rewrite (existsb_false_filter _ (filter _ table)).
    - cbn [app]. induction sr as [|s l IH]; [reflexivity|].
      cbn [map filter Tickets.messageid]. rewrite String.eqb_refl. now rewrite IH.
    - destruct (existsb _ _) eqn:Ex; [|reflexivity].
      apply existsb_exists in Ex. destruct Ex as (r & Hr & E).
      apply filter_In in Hr. apply String.eqb_eq in E.
      now apply (Hfresh r) in E. }
  assert (Epings : forall l,
             flat_map (fun staffrow =>
                         if negb (String.eqb (Tickets.staffid staffrow) "-")
                         then [Tickets.ping (Tickets.staffid staffrow)] else [])
                      (map (fun s => {| Tickets.serverid := guildId;
                                        Tickets.messageid := msgId;
                                        Tickets.threadchanid := threadChannelId;
                                        Tickets.staffid := s;
                                        Tickets.logchanid := logchan |}) l)
             = flat_map (fun s => if negb (String.eqb s "-")
                                  then [Tickets.ping s] else []) l).
  { induction l as [|s l IH]; [reflexivity|]. cbn [map flat_map Tickets.staffid].
    now rewrite IH. }
  assert (Hsr : NoDup sr).
  { unfold sr, Tickets.staffRoles. cbv zeta. fold given.
    destruct (length (Tickets.unique given) =? 0);
      [repeat constructor; intros []|apply uniqueFrom_NoDup]. }
  split; [|split].
  - (* each role once *)
    rewrite Esetup. unfold Tickets.staffPings. cbv zeta. rewrite Epings.
    destruct (length _ =? 0); [repeat constructor; intros []|].
    clear - Hsr. induction Hsr as [|s l Hs Hl IH]; [constructor|].
    cbn [flat_map]. destruct (negb (String.eqb s "-")); [|exact IH].
    cbn [app]. constructor; [|exact IH].
    intros X. apply in_flat_map in X. destruct X as (s' & Hs' & X).
    destruct (negb (String.eqb s' "-")); [|destruct X].
    destruct X as [X|[]]. apply ping_inj in X. now subst.
  - (* the roles given, or "staff" *)
    intros p. rewrite Esetup. unfold Tickets.staffPings. cbv zeta. rewrite Epings.
    unfold sr, Tickets.staffRoles. cbv zeta. fold given.
    destruct (Tickets.unique given) as [|u us] eqn:Eu; cbn [length Nat.eqb].
    + assert (Eg : given = []).
      { destruct given as [|x l]; [reflexivity|].
        assert (X : In x (Tickets.unique (x :: l)))
          by (apply uniqueFrom_In; split; [now left|intros []]).
        rewrite Eu in X. destruct X. }
      cbn. split.
      * intros [<-|[]]. right.
        destruct staffRole, staff2, staff3; try discriminate Eg. auto.
      * intros [(id & Hid & _)|(_ & _ & _ & ->)]; [|now left].
        apply Hgiven in Hid. rewrite Eg in Hid. destruct Hid.
    + rewrite <- Eu.
      assert (Emap : flat_map (fun s => if negb (String.eqb s "-")
                                        then [Tickets.ping s] else [])
                              (Tickets.unique given)
                     = map Tickets.ping (Tickets.unique given)).
      { apply pings_of_roles. intros s Hs.
        apply uniqueFrom_In in Hs. destruct Hs as (Hs & _).
        apply Hdash. now apply Hgiven. }
      rewrite Emap, Eu. cbn [map length Nat.eqb].
      change (Tickets.ping u :: map Tickets.ping us)
        with (map Tickets.ping (u :: us)).
      rewrite <- Eu.
      rewrite in_map_iff. split.
      * intros (s & <- & Hs). left. exists s. split; [|reflexivity].
        apply uniqueFrom_In in Hs. apply Hgiven. tauto.
      * intros [(id & Hid & ->)|(-> & -> & -> & _)].
        -- exists id. split; [reflexivity|].
           apply uniqueFrom_In. split; [now apply Hgiven|intros []].
        -- unfold given in Eu. discriminate Eu.
  - (* the key *)
    intros Hkey. unfold Tickets.saveTickets. rewrite map_app, map_map.
    apply NoDup_app.
    + now apply NoDup_map_filter.
    + apply NoDup_map_inj; [|exact Hsr].
      unfold Tickets.key. cbn. intros x y E. now injection E.
    + intros k Hk Hk'. apply in_map_iff in Hk. destruct Hk as (r & <- & Hr).
      apply filter_In in Hr. destruct Hr as (_ & Hr).
      apply in_map_iff in Hk'. destruct Hk' as (s & E & _).
      unfold Tickets.key in E. cbn in E. injection E as E _.
      rewrite <- E, String.eqb_refl in Hr. discriminate Hr.
Qed.

Lemma tickets_staff_round_trip_witness :
  NoDup ["<@&1061135917160607766>"; "<@&1061136091056439386>"]%string
  /\ Tickets.staffPings
       (Tickets.threadSetup
          (Tickets.saveTickets [] "192713314399289344" "1208795569649356820"
             "1059653209678950460"
             (Tickets.staffRoles (Some "1061135917160607766"%string)
                (Some "1061136091056439386"%string)
                (Some "1061135917160607766"%string)) None)
          "1208795569649356820")
     = ["<@&1061135917160607766>"; "<@&1061136091056439386>"]%string.
Proof.
  split; [|vm_compute; reflexivity].
  refine (proj1 (@tickets_staff_round_trip [] "192713314399289344"
                   "1208795569649356820" "1059653209678950460"
                   (Some "1061135917160607766"%string)
                   (Some "1061136091056439386"%string)
                   (Some "1061135917160607766"%string) None _ _)).
  - intros r [].
  - intros id [E|[E|[E|[]]]]; injection E as <-; discriminate.
Defined.

(** ** The environment *)

(** X25.  [getSanitzedConfig] accepts the environment exactly when the nine
    variables without a default are set; a variable read with a default
    or through [parseInt] (the two ports, the two passwords, the SQL
    host and socket path) is never reported missing, and the error
    names a variable that is not set. *)
Theorem getSanitzedConfig_required (env : string -> option string) :
  (Env.getSanitzedConfig (Env.getConfig env) = inr (Env.getConfig env)
   <-> forall k, In k Env.required -> env k <> None)
  /\ (forall msg,
        Env.getSanitzedConfig (Env.getConfig env) = inl msg ->
        exists k, In k Env.required /\ env k = None
                  /\ msg = ("Missing key " ++ k ++ " in .env")%string).
Proof.
  unfold Env.getSanitzedConfig, Env.getConfig, Env.required.
  cbn [Env.firstMissing].
  repeat match goal with
         | |- context [Env.ofEnv (env ?k)] =>
             let E := fresh "E" in
             destruct (env k) eqn:E; cbn [Env.ofEnv];
             [|split;
               [split; [discriminate|
                        intros H; exfalso; apply (H k); [cbn; auto 20|exact E]]
               |intros msg H; injection H as <-; exists k;
                split; [cbn; auto 20|split; [exact E|reflexivity]]]]
         end.
  split; [|discriminate].
  split; [|reflexivity].
  intros _ k Hk. cbn [In] in Hk.
  repeat (destruct Hk as [<-|Hk]; [congruence|]). destruct Hk.
Qed.


(** ** The rater list *)

Lemma indexOfFrom_first (arr : list string) (x : string) :
  forall i,
    In x arr ->
    exists l1 l2,
      arr = l1 ++ x :: l2 /\ ~ In x l1
      /\ Raters.indexOfFrom i arr x = (i + Z.of_nat (length l1))%Z.
Proof.
  induction arr as [|y arr IH]; intros i Hin; [destruct Hin|].
  cbn [Raters.indexOfFrom].
  destruct (String.eqb y x) eqn:E.
  - apply String.eqb_eq in E. subst y. exists [], arr.
    repeat split; [intros []|cbn; lia].
  - assert (Hne : y <> x) by now apply String.eqb_neq.
    destruct Hin as [Hin|Hin]; [contradiction|].
    destruct (IH (i + 1)%Z Hin) as (l1 & l2 & -> & Hn & Ei).
    exists (y :: l1), l2. repeat split.
    + intros [X|X]; [contradiction|now apply Hn].
    + rewrite Ei. cbn [length]. lia.
Qed.

(** X26.  [removerater] takes out the first occurrence of the user and
    nothing else: the list it writes is the old list without that one
    entry, the entries before and after it in their order; and it
    writes nothing exactly when the user is not in the list, so that
    [splice] is never given the index -1. *)
Theorem removeRater_first_occurrence
        (currentRaters : list string) (userId : string) :
  (Raters.removeRater currentRaters userId = None <-> ~ In userId currentRaters)
  /\ (forall left,
        Raters.removeRater currentRaters userId = Some left ->
        exists l1 l2,
          currentRaters = l1 ++ userId :: l2 /\ ~ In userId l1
          /\ left = l1 ++ l2
          /\ Raters.indexOf currentRaters userId = Z.of_nat (length l1)).
Proof.
  unfold Raters.removeRater.
  destruct (arrIncludes userId currentRaters) eqn:E; cbn [negb].
  - apply arrIncludes_In in E. split.
    + split; [discriminate|intros H; now destruct H].
    + intros left H. injection H as <-.
      destruct (@indexOfFrom_first currentRaters userId 0%Z E)
        as (l1 & l2 & Earr & Hn & Ei).
      exists l1, l2. unfold Raters.indexOf. rewrite Ei. clear Ei E.
      subst currentRaters.
      repeat split; [exact Hn|].
      unfold Raters.splice1. cbv zeta.
      replace (0 + Z.of_nat (length l1) <? 0)%Z with false
        by (symmetry; apply Z.ltb_ge; lia).
      assert (El : (Z.min (0 + Z.of_nat (length l1))
                          (Z.of_nat (length (l1 ++ userId :: l2)))
                    = Z.of_nat (length l1))%Z)
        by (rewrite length_app; cbn [length]; lia).
      rewrite El, Nat2Z.id.
      rewrite firstn_app, Nat.sub_diag, firstn_all. cbn [firstn].
      rewrite app_nil_r. f_equal.
      rewrite skipn_app, skipn_all2 by lia.
      replace (length l1 + 1 - length l1) with 1 by lia. reflexivity.
  - split; [|discriminate].
    split; [intros _ H; apply arrIncludes_In in H; congruence|reflexivity].
Qed.

(** ** Custom commands *)

Lemma findIndexFrom_find {A : Type} (p : A -> bool) (arr : list A) :
  forall i,
    (0 <= i)%Z ->
    existsb p arr = true ->
    (i <= CustomCommands.findIndexFrom i p arr)%Z
    /\ nth_error arr (Z.to_nat (CustomCommands.findIndexFrom i p arr - i))
       = find p arr.
Proof.
  induction arr as [|y arr IH]; intros i Hi Hex; [discriminate Hex|].
  cbn [CustomCommands.findIndexFrom find existsb] in *.
  destruct (p y).
  - rewrite Z.sub_diag. split; [lia|reflexivity].
  - cbn [orb] in Hex. destruct (IH (i + 1)%Z ltac:(lia) Hex) as (I1 & I2).
    split; [lia|].
    replace (Z.to_nat (CustomCommands.findIndexFrom (i + 1) p arr - i))
      with (S (Z.to_nat (CustomCommands.findIndexFrom (i + 1) p arr - (i + 1))))
      by lia.
    exact I2.
Qed.

Lemma find_filter {A : Type} (p q : A -> bool) (l : list A) :
  find q (filter p l) = find (fun x => p x && q x) l.
Proof.
  induction l as [|x l IH]; [reflexivity|].
  cbn [filter find]. destruct (p x); cbn [find andb]; [|exact IH].
  destruct (q x); [reflexivity|exact IH].
Qed.

Lemma find_map {A B : Type} (f : A -> B) (q : B -> bool) (l : list A) :
  find q (map f l) = option_map f (find (fun x => q (f x)) l).
Proof.
  induction l as [|x l IH]; [reflexivity|].
  cbn [map find]. destruct (q (f x)); [reflexivity|exact IH].
Qed.

Lemma existsb_find {A : Type} (p : A -> bool) (l : list A) :
  existsb p l = match find p l with Some _ => true | None => false end.
Proof.
  induction l as [|x l IH]; [reflexivity|].
  cbn [existsb find]. destruct (p x); [reflexivity|exact IH].
Qed.

(** X27.  The reply to a custom command is the text of the first row of
    the table that belongs to the server and whose prefix and command
    spell the message; rows of other servers are not looked at, and the
    handler never reads a row that does not exist. *)
Theorem customCommand_first_row
        (dbmatches : list CustomCommands.dbmatch) (guildId content : string) :
  CustomCommands.customCommand dbmatches guildId content
  = Ok (option_map CustomCommands.txt
          (find (fun row =>
                   String.eqb (CustomCommands.serverid row) guildId
                   && String.eqb (CustomCommands.prefix row
                                  ++ CustomCommands.cmd row) content)
                dbmatches)).
Proof.
  unfold CustomCommands.customCommand. cbv zeta.
  set (serverRows := filter (fun row => String.eqb (CustomCommands.serverid row) guildId)
                            dbmatches).
  set (spells := fun r => String.eqb (CustomCommands.prefix r ++ CustomCommands.cmd r)
                                     content).
  rewrite <- (find_filter
                (fun row => String.eqb (CustomCommands.serverid row) guildId) spells).
  fold serverRows.
  assert (Esome : existsb (fun c => String.eqb content c)
                          (map (fun r => (CustomCommands.prefix r
                                          ++ CustomCommands.cmd r)%string) serverRows)
                  = existsb spells serverRows).
  { induction serverRows as [|r l IH]; [reflexivity|].
    cbn [map existsb]. unfold spells at 1. now rewrite String.eqb_sym, IH. }
  rewrite Esome.
  destruct (existsb spells serverRows) eqn:Ex.
  - assert (Ei : CustomCommands.atZ serverRows
                   (CustomCommands.findIndex (fun c => String.eqb c content)
                      (map (fun r => (CustomCommands.prefix r
                                      ++ CustomCommands.cmd r)%string) serverRows))
                 = find spells serverRows).
    { assert (Eidx : forall i,
                 CustomCommands.findIndexFrom i (fun c => String.eqb c content)
                   (map (fun r => (CustomCommands.prefix r
                                   ++ CustomCommands.cmd r)%string) serverRows)
                 = CustomCommands.findIndexFrom i spells serverRows).
      { clear. induction serverRows as [|r l IH]; intros i; [reflexivity|].
        cbn [map CustomCommands.findIndexFrom]. now rewrite IH. }
      unfold CustomCommands.findIndex. rewrite Eidx.
      destruct (@findIndexFrom_find _ spells serverRows 0%Z ltac:(lia) Ex)
        as (I1 & I2).
      unfold CustomCommands.atZ.
      replace (CustomCommands.findIndexFrom 0 spells serverRows <? 0)%Z with false
        by (symmetry; apply Z.ltb_ge; lia).
      now rewrite Z.sub_0_r in I2. }
    rewrite Ei. rewrite existsb_find in Ex.
    destruct (find spells serverRows); [reflexivity|discriminate Ex].
  - rewrite existsb_find in Ex.
    destruct (find spells serverRows); [discriminate Ex|reflexivity].
Qed.

(** ** Subscribing a channel *)

Lemma sameKey_key (r1 r2 : CCPrefs.row) :
  CCPrefs.sameKey r1 r2 = true <-> CCPrefs.key r1 = CCPrefs.key r2.
Proof.
  unfold CCPrefs.sameKey, CCPrefs.sameSub, CCPrefs.key.
  rewrite !andb_true_iff, !String.eqb_eq. split.
  - intros ((((-> & ->) & ->) & ->) & ->). reflexivity.
  - intros E. injection E as -> -> -> -> ->. auto.
Qed.

Lemma sameSub_key (g c t gn : string) (r1 r2 : CCPrefs.row) :
  CCPrefs.key r1 = CCPrefs.key r2 ->
  CCPrefs.sameSub g c t gn r1 = CCPrefs.sameSub g c t gn r2.
Proof.
  unfold CCPrefs.key, CCPrefs.sameSub. intros E.
  injection E as -> -> -> -> _. reflexivity.
Qed.

(** Exclusion of "all" is a property of the keys of a table. *)
Lemma exclusive_keys (t1 t2 : list CCPrefs.row) :
  (forall r, In r t2 -> exists r', In r' t1 /\ CCPrefs.key r' = CCPrefs.key r) ->
  CCPrefs.exclusive t1 -> CCPrefs.exclusive t2.
Proof.
  intros Hk Hex r1 r2 H1 H2 Hs Ha.
  destruct (Hk r1 H1) as (r1' & H1' & E1).
  destruct (Hk r2 H2) as (r2' & H2' & E2).
  assert (S1 : CCPrefs.stage r1' = CCPrefs.stage r1)
    by (unfold CCPrefs.key in E1; now injection E1).
  assert (S2 : CCPrefs.stage r2' = CCPrefs.stage r2)
    by (unfold CCPrefs.key in E2; now injection E2).
  rewrite <- S2. apply (Hex r1' r2' H1' H2'); [|congruence].
  rewrite (sameSub_key _ _ _ _ E2).
  unfold CCPrefs.key in E1. injection E1 as -> -> -> -> _. exact Hs.
Qed.

Section CCAdd.
Variable validTier validGen : string -> bool.

(** X28.  [cc add] keeps the table of subscriptions consistent.  When
    it accepts its input, the subscription asked for is in the table
    afterwards, with a tier prefix in lower case that is none of the
    stage labels; no two rows share a primary key, so that its plain
    [INSERT] cannot fail; and a row of stage "all" stays alone among
    the rows of its channel, tier and generation. *)
Theorem ccAdd_keeps_table_consistent
        (table table' : list CCPrefs.row) (guildId channelId tier : string)
        (role : option string) (gen : string) (stageOption : option string)
        (cooldown : option Z) (tierprefix : option string) :
  NoDup (map CCPrefs.key table) ->
  CCPrefs.exclusive table ->
  CCPrefs.ccAdd validTier validGen table guildId channelId tier role gen
                stageOption cooldown tierprefix = Some table' ->
  let newRow :=
    {| CCPrefs.serverid := guildId; CCPrefs.channelid := channelId;
       CCPrefs.tier := tier; CCPrefs.role := role; CCPrefs.gen := gen;
       CCPrefs.stage := match stageOption with Some s => s | None => "all" end;
       CCPrefs.cooldown := cooldown;
       CCPrefs.prefix := option_map toLowerCase tierprefix |} in
  In newRow table'
  /\ (forall p, CCPrefs.prefix newRow = Some p ->
                p = ""%string \/ ~ In p CCPrefs.standardPrefixes)
  /\ validTier tier = true /\ validGen gen = true
  /\ NoDup (map CCPrefs.key table')
  /\ CCPrefs.exclusive table'.
Proof.
  intros Hnd Hex H. cbv zeta. unfold CCPrefs.ccAdd in H. cbv zeta in H.
  set (st := match stageOption with Some s => s | None => "all"%string end) in *.
  set (px := option_map toLowerCase tierprefix) in *.
  set (newRow := {| CCPrefs.serverid := guildId; CCPrefs.channelid := channelId;
                    CCPrefs.tier := tier; CCPrefs.role := role; CCPrefs.gen := gen;
                    CCPrefs.stage := st; CCPrefs.cooldown := cooldown;
                    CCPrefs.prefix := px |}) in *.
  destruct (truthy px && match px with
                         | Some p => arrIncludes p CCPrefs.standardPrefixes
                         | None => false
                         end) eqn:Epx; [discriminate H|].
  destruct (validTier tier) eqn:Evt; cbn [negb] in H; [|discriminate H].
  destruct (validGen gen) eqn:Evg; cbn [negb] in H; [|discriminate H].
  assert (Hpx : forall p, px = Some p ->
                          p = ""%string \/ ~ In p CCPrefs.standardPrefixes).
  { intros p E. rewrite E in Epx. cbn [truthy] in Epx.
    destruct (String.eqb p "") eqn:E0; [left; now apply String.eqb_eq|right].
    cbn [negb andb] in Epx. intros X. apply arrIncludes_In in X. congruence. }
  assert (Hsub : forall r, CCPrefs.sameSub guildId channelId tier gen r = true ->
                           CCPrefs.sameSub (CCPrefs.serverid r) (CCPrefs.channelid r)
                             (CCPrefs.tier r) (CCPrefs.gen r) newRow = true).
  { intros r Hr. unfold CCPrefs.sameSub in *. cbn.
    repeat (apply andb_true_iff in Hr; destruct Hr as (Hr & ?)).
    repeat match goal with
           | X : String.eqb _ _ = true |- _ => apply String.eqb_eq in X; rewrite X
           end.
    now rewrite !String.eqb_refl. }
  assert (Hsub' : forall r, CCPrefs.sameSub (CCPrefs.serverid r) (CCPrefs.channelid r)
                              (CCPrefs.tier r) (CCPrefs.gen r) newRow = true ->
                            CCPrefs.sameSub guildId channelId tier gen r = true).
  { intros r Hr. unfold CCPrefs.sameSub in *. cbn in Hr.
    repeat (apply andb_true_iff in Hr; destruct Hr as (Hr & ?)).
    repeat match goal with
           | X : String.eqb _ _ = true |- _ => apply String.eqb_eq in X; rewrite <- X
           end.
    now rewrite !String.eqb_refl. }
  assert (Hself : CCPrefs.sameSub guildId channelId tier gen newRow = true)
    by (unfold CCPrefs.sameSub; cbn; now rewrite !String.eqb_refl).
  split; [|split; [exact Hpx|split; [reflexivity|split; [reflexivity|]]]].
  - (* the row is stored *)
    destruct (String.eqb st "all").
    + injection H as <-. apply in_or_app. right. now left.
    + injection H as <-.
      match goal with
      | |- In _ (if existsb ?f ?k then _ else _) =>
          destruct (existsb f k) eqn:Ex
      end.
      * apply existsb_exists in Ex. destruct Ex as (r & Hr & Ek).
        apply in_map_iff. exists r. now rewrite Ek.
      * apply in_or_app. right. now left.
  - destruct (String.eqb st "all") eqn:Est.
    + (* everything of the subscription is replaced by the row "all" *)
      injection H as <-. split.
      * rewrite map_app. apply NoDup_app.
        -- now apply NoDup_map_filter.
        -- repeat constructor. intros [].
        -- intros k Hk [Hk'|[]]. apply in_map_iff in Hk.
           destruct Hk as (r & E & Hr). apply filter_In in Hr.
           destruct Hr as (_ & Hr). apply negb_true_iff in Hr.
           rewrite (@sameSub_key _ _ _ _ r newRow) in Hr by congruence.
           congruence.
      * intros r1 r2 H1 H2 Hs Ha.
        apply in_app_or in H1. apply in_app_or in H2.
        destruct H1 as [H1|[<-|[]]], H2 as [H2|[<-|[]]].
        -- apply filter_In in H1, H2. apply (Hex r1 r2); tauto.
        -- apply String.eqb_eq in Est. exact Est.
        -- apply filter_In in H2. destruct H2 as (_ & H2).
           apply negb_true_iff in H2. cbn in Hs. congruence.
        -- apply String.eqb_eq in Est. exact Est.
    + (* the row "all" of the subscription goes, the row of the stage is set *)
      set (kept := filter (fun r => negb (CCPrefs.sameSub guildId channelId tier gen r
                                          && String.eqb (CCPrefs.stage r) "all"))
                          table) in *.
      assert (Hk_nd : NoDup (map CCPrefs.key kept)) by now apply NoDup_map_filter.
      assert (Hk_ex : CCPrefs.exclusive kept).
      { intros r1 r2 H1 H2. apply filter_In in H1, H2. apply Hex; tauto. }
      assert (Hk_all : forall r, In r kept ->
                                 CCPrefs.sameSub guildId channelId tier gen r = true ->
                                 CCPrefs.stage r <> "all"%string).
      { intros r Hr Hs Ha. apply filter_In in Hr. destruct Hr as (_ & Hr).
        rewrite Hs, Ha in Hr. discriminate Hr. }
      destruct (existsb (fun r => CCPrefs.sameKey r newRow) kept) eqn:Ex;
        injection H as <-.
      * assert (Ekeys : map CCPrefs.key
                          (map (fun r => if CCPrefs.sameKey r newRow then newRow else r)
                               kept)
                        = map CCPrefs.key kept).
        { rewrite map_map. apply map_ext. intros r.
          destruct (CCPrefs.sameKey r newRow) eqn:Ek; [|reflexivity].
          symmetry. now apply sameKey_key. }
        split; [now rewrite Ekeys|].
        apply (@exclusive_keys kept); [|exact Hk_ex].
        intros r Hr. apply in_map_iff in Hr. destruct Hr as (r' & <- & Hr').
        exists r'. split; [exact Hr'|].
        destruct (CCPrefs.sameKey r' newRow) eqn:Ek; [|reflexivity].
        now apply sameKey_key.
      * split.
        -- rewrite map_app. apply NoDup_app; [exact Hk_nd| |].
           ++ repeat constructor. intros [].
           ++ intros k Hk [Hk'|[]]. apply in_map_iff in Hk.
              destruct Hk as (r & E & Hr).
              assert (X : existsb (fun r => CCPrefs.sameKey r newRow) kept = true).
              { apply existsb_exists. exists r. split; [exact Hr|].
                apply sameKey_key. congruence. }
              congruence.
        -- intros r1 r2 H1 H2 Hs Ha.
           apply in_app_or in H1. apply in_app_or in H2.
           destruct H1 as [H1|[<-|[]]], H2 as [H2|[<-|[]]].
           ++ now apply (Hk_ex r1 r2).
           ++ exfalso. apply (Hk_all r1 H1); [|exact Ha].
              apply Hsub'. exact Hs.
           ++ cbn in Ha. apply String.eqb_neq in Est. contradiction.
           ++ exact Ha.
Qed.

End CCAdd.

Lemma ccAdd_keeps_table_consistent_witness :
  In {| CCPrefs.serverid := "192713314399289344";
        CCPrefs.channelid := "1059653209678950460";
        CCPrefs.tier := "ou"; CCPrefs.role := None; CCPrefs.gen := "sv";
        CCPrefs.stage := "qc"; CCPrefs.cooldown := None;
        CCPrefs.prefix := Some "gen 9"%string |}
     [{| CCPrefs.serverid := "192713314399289344";
         CCPrefs.channelid := "1059653209678950460";
         CCPrefs.tier := "ou"; CCPrefs.role := None; CCPrefs.gen := "sv";
         CCPrefs.stage := "qc"; CCPrefs.cooldown := None;
         CCPrefs.prefix := Some "gen 9"%string |}]
  /\ CCPrefs.exclusive
       [{| CCPrefs.serverid := "192713314399289344";
           CCPrefs.channelid := "1059653209678950460";
           CCPrefs.tier := "ou"; CCPrefs.role := None; CCPrefs.gen := "sv";
           CCPrefs.stage := "qc"; CCPrefs.cooldown := None;
           CCPrefs.prefix := Some "gen 9"%string |}].
Proof.
  destruct (@ccAdd_keeps_table_consistent (fun _ => true) (fun _ => true)
              [{| CCPrefs.serverid := "192713314399289344";
                  CCPrefs.channelid := "1059653209678950460";
                  CCPrefs.tier := "ou"; CCPrefs.role := None; CCPrefs.gen := "sv";
                  CCPrefs.stage := "all"; CCPrefs.cooldown := None;
                  CCPrefs.prefix := None |}]
              [{| CCPrefs.serverid := "192713314399289344";
                  CCPrefs.channelid := "1059653209678950460";
                  CCPrefs.tier := "ou"; CCPrefs.role := None; CCPrefs.gen := "sv";
                  CCPrefs.stage := "qc"; CCPrefs.cooldown := None;
                  CCPrefs.prefix := Some "gen 9"%string |}]
              "192713314399289344" "1059653209678950460" "ou" None "sv"
              (Some "qc"%string) None (Some "Gen 9"%string))
    as (H1 & _ & _ & _ & _ & H6).
  - repeat constructor. intros [].
  - intros r1 r2 [<-|[]] [<-|[]] _ E. exact E.
  - vm_compute. reflexivity.
  - split; [exact H1|exact H6].
Defined.
